(** * Parakeet transcription service: speaker alignment, chunked pipeline,
      response formatting and remote orchestration.

    A shallow embedding of the Python sources
    [diarization/__init__.py], [runpod_handler_transcription.py],
    [api.py], [runpod_handler_orchestrator.py] and
    [runpod_handler_diarization.py].

    Numbers.  Timestamps and durations are Python floats, that is
    IEEE 754 binary64 numbers: they are embedded as Rocq's primitive
    [float], whose [+], [-], [*], [/] and [<?] are the operations of
    the hardware, rounding to nearest even, with infinities and NaNs.
    Python integers are [Z].

    Text.  A Python [str] is embedded as the [string] of its UTF-8
    encoding. *)

From Stdlib Require Import ZArith Lia Ascii String Sorted Floats.
From Stdlib Require Import Decimal DecimalString DecimalZ Permutation.
From stdpp Require Import base list strings.

Local Open Scope string_scope.
Local Open Scope list_scope.
Local Open Scope float_scope.

(** ** Numeric helpers *)

(** Python [a < b] on floats, as a proposition: it fails when either
    side is a NaN. *)
Definition flt (a b : float) : Prop := (a <? b) = true.

(** [x] is a NaN: the only value that differs from itself. *)
Definition isnan (x : float) : Prop := (x =? x) = false.

(** Python's two-argument [max(a, b)] and [min(a, b)]: the first
    argument, unless the second is strictly larger (resp. smaller). *)
Definition pymax (a b : float) : float := if a <? b then b else a.

Definition pymin (a b : float) : float := if b <? a then b else a.

(** [float(z)] for an integer: the nearest float, ties to even. *)
Definition float_of_Z (z : Z) : float :=
  SF2Prim (binary_normalize prec emax z 0 false).

(** [a / b] for positive integers: Python's true division returns the
    float nearest to the exact quotient. *)
Definition int_truediv (a b : positive) : float :=
  SF2Prim (SF64div (S754_finite false a 0) (S754_finite false b 0)).

(** The position of a float in the order of [<?]: the sign class, then
    exponent and mantissa; a NaN has none.  Two floats are related by
    [<?] exactly when both have a position and the positions are in
    lexicographic order. *)
Definition SFkey (x : spec_float) : option (Z * Z * Z) :=
  match x with
  | S754_nan => None
  | S754_infinity true => Some (-2, 0, 0)%Z
  | S754_finite true m e => Some (-1, - e, - Zpos m)%Z
  | S754_zero _ => Some (0, 0, 0)%Z
  | S754_finite false m e => Some (1, e, Zpos m)%Z
  | S754_infinity false => Some (2, 0, 0)%Z
  end.

Definition key_lt (a b : Z * Z * Z) : Prop :=
  (a.1.1 < b.1.1 \/
   (a.1.1 = b.1.1 /\ (a.1.2 < b.1.2 \/ (a.1.2 = b.1.2 /\ a.2 < b.2))))%Z.

Definition okey_lt (a b : option (Z * Z * Z)) : Prop :=
  match a, b with
  | Some ka, Some kb => key_lt ka kb
  | _, _ => False
  end.

Definition fkey (x : float) : option (Z * Z * Z) := SFkey (Prim2SF x).

(** A finite or infinite value above (resp. below) zero. *)
Definition SFpositive (x : spec_float) : Prop :=
  (exists m e, x = S754_finite false m e) \/ x = S754_infinity false.

Definition SFnegative (x : spec_float) : Prop :=
  (exists m e, x = S754_finite true m e) \/ x = S754_infinity true.

(** ** Data model *)

(** [diarization.SpeakerSegment]. *)
Record SpeakerSegment := {
  spk_start : float;
  spk_end : float;
  spk_speaker : string
}.

(** [diarization.DiarizationResult]. *)
Record DiarizationResult := {
  dr_segments : list SpeakerSegment;
  dr_num_speakers : nat
}.

(** Modelled from the spec: [models.WhisperSegment] is imported by the
    sources but its declaration is absent; the data model gives a
    segment the fields [id], [start], [end], [text] and an optional
    [speaker].  [getattr(seg, "speaker", None)] reads [seg_speaker]. *)
Record Segment := {
  seg_id : Z;
  seg_start : float;
  seg_end : float;
  seg_text : string;
  seg_speaker : option string
}.

(** [setattr(segment, "speaker", label)]. *)
Definition setattr_speaker (label : string) (s : Segment) : Segment :=
  {| seg_id := seg_id s; seg_start := seg_start s; seg_end := seg_end s;
     seg_text := seg_text s; seg_speaker := Some label |}.

(** ** Speaker alignment

    [Diarizer.merge_with_transcription] (diarization/__init__.py) and
    [merge_diarization_with_transcription]
    (runpod_handler_transcription.py) run the same two nested loops. *)

(** The inner loop: the list [overlapping] of [(speaker, duration)]
    pairs, appended in diarization-list order. *)
Definition overlapping_of (start end_ : float) (diar : list SpeakerSegment)
  : list (string * float) :=
  fold_left
    (fun overlapping spk_segment =>
       let overlap_start := pymax start (spk_start spk_segment) in
       let overlap_end := pymin end_ (spk_end spk_segment) in
       if overlap_start <? overlap_end
       then overlapping ++ [(spk_speaker spk_segment, overlap_end - overlap_start)]
       else overlapping)
    diar [].

(** [overlapping.sort(key=lambda x: x[1], reverse=True)]: Python's sort
    compares keys with [<] only and is stable, also under
    [reverse=True].  An element moves behind the elements whose
    duration is strictly larger than its own and stops in front of the
    first other one, so that among equal durations the earlier element
    stays first.  (The durations in [overlapping] are never NaN: each
    is a difference [overlap_end - overlap_start] with
    [overlap_end > overlap_start].) *)
Fixpoint insert_desc (x : string * float) (l : list (string * float))
  : list (string * float) :=
  match l with
  | [] => [x]
  | y :: l' => if snd x <? snd y then y :: insert_desc x l' else x :: y :: l'
  end.

Definition sort_desc (l : list (string * float)) : list (string * float) :=
  foldr insert_desc [] l.

(** The label chosen for a segment with bounds [start], [end_]: the body
    of the outer loop up to the [setattr].  The inner [[]] case cannot
    occur (a sorted non-empty list is non-empty). *)
Definition dominant_speaker (start end_ : float) (diar : list SpeakerSegment) : string :=
  let overlapping := overlapping_of start end_ diar in
  match overlapping with
  | [] => "unknown"
  | _ :: _ =>
      match sort_desc overlapping with
      | (speaker, _) :: _ => speaker
      | [] => "unknown"
      end
  end.

(** Segments are Python objects, mutated in place.  The object store is
    a list indexed by object identity; [transcription_segments] is a
    list of references into it.  Besides the store, the state records
    every [setattr(segment, "speaker", _)] that is executed. *)
Abbreviation heap := (list Segment) (only parsing).

Record merge_state := {
  ms_heap : heap;
  ms_writes : list (nat * string)
}.

(** One iteration of the outer loop, for the object referenced by [r].
    (A Python reference always denotes a live object; a reference
    outside the store is skipped.) *)
Definition merge_step (diar : list SpeakerSegment) (st : merge_state) (r : nat)
  : merge_state :=
  match ms_heap st !! r with
  | None => st
  | Some segment =>
      let label := dominant_speaker (seg_start segment) (seg_end segment) diar in
      {| ms_heap := <[r := setattr_speaker label segment]> (ms_heap st);
         ms_writes := ms_writes st ++ [(r, label)] |}
  end.

(** [merge_diarization_with_transcription(diarization_segments,
    transcription_segments)]: returns the list it was given (the same
    references) and the final state. *)
Definition merge_diarization_with_transcription
    (diarization_segments : list SpeakerSegment)
    (transcription_segments : list nat) (h : heap) : list nat * merge_state :=
  match diarization_segments with
  | [] => (transcription_segments, {| ms_heap := h; ms_writes := [] |})
  | _ :: _ =>
      (transcription_segments,
       fold_left (merge_step diarization_segments) transcription_segments
                 {| ms_heap := h; ms_writes := [] |})
  end.

(** [Diarizer.merge_with_transcription(diarization,
    transcription_segments)]. *)
Definition merge_with_transcription
    (diarization : DiarizationResult)
    (transcription_segments : list nat) (h : heap) : list nat * merge_state :=
  match dr_segments diarization with
  | [] => (transcription_segments, {| ms_heap := h; ms_writes := [] |})
  | _ :: _ =>
      (transcription_segments,
       fold_left (merge_step (dr_segments diarization)) transcription_segments
                 {| ms_heap := h; ms_writes := [] |})
  end.

(** The overlap duration as the specification writes it:
    [max(0, min(s.end, d.end) - max(s.start, d.start))]. *)
Definition overlap (start end_ : float) (d : SpeakerSegment) : float :=
  pymax 0 (pymin end_ (spk_end d) - pymax start (spk_start d)).

(** [d] is the first segment of [diar] achieving the largest overlap
    with [[start, end_]]: every earlier segment overlaps for less, no
    later segment overlaps for more. *)
Definition first_max_overlap (start end_ : float) (diar : list SpeakerSegment)
    (d : SpeakerSegment) : Prop :=
  exists pre post,
    diar = pre ++ d :: post /\
    Forall (fun d' => flt (overlap start end_ d') (overlap start end_ d)) pre /\
    Forall (fun d' => ~ flt (overlap start end_ d) (overlap start end_ d')) post.

(** What one diarization segment contributes to [overlapping]. *)
Definition overlap_entry (start end_ : float) (d : SpeakerSegment)
  : option (string * float) :=
  let overlap_start := pymax start (spk_start d) in
  let overlap_end := pymin end_ (spk_end d) in
  if overlap_start <? overlap_end
  then Some (spk_speaker d, overlap_end - overlap_start)
  else None.

(** The segment stored after the loop body ran on [s]. *)
Definition assigned (diar : list SpeakerSegment) (s : Segment) : Segment :=
  setattr_speaker (dominant_speaker (seg_start s) (seg_end s) diar) s.

(** The fields of a segment other than [speaker]. *)
Definition frame (s : Segment) : Z * float * float * string :=
  (seg_id s, seg_start s, seg_end s, seg_text s).

(** The references that denote an object of the store. *)
Definition live (h : heap) (refs : list nat) : list nat :=
  filter (fun r => r < length h)%nat refs.

(** How often the log records a write to the object [r]. *)
Definition writes_to (r : nat) (log : list (nat * string)) : nat :=
  length (filter (fun w => w.1 = r) log).

(** The merge as the pipelines use it: [all_segments] is a list of
    pairwise distinct objects (each built by the ASR collaborator for
    one chunk), so the list itself serves as the store and position [k]
    as the reference to its [k]-th object. *)
Definition merge_segments (diar : list SpeakerSegment) (all_segments : list Segment)
  : list Segment :=
  ms_heap (merge_diarization_with_transcription diar
             (seq 0 (length all_segments)) all_segments).2.

Definition diarizer_merge_segments (diarization : DiarizationResult)
    (all_segments : list Segment) : list Segment :=
  ms_heap (merge_with_transcription diarization
             (seq 0 (length all_segments)) all_segments).2.

(** ** JSON values and the Python operations applied to them *)

(** A [dict] keeps its insertion order; it is an association list with
    pairwise distinct keys. *)
#[warnings="-register-all"]
Inductive json :=
  | JNull
  | JBool (b : bool)
  | JInt (z : Z)
  | JFloat (f : float)
  | JStr (s : string)
  | JList (l : list json)
  | JDict (d : list (string * json)).

Abbreviation dict := (list (string * json)).

(** [d[k]], as an option. *)
Fixpoint dict_lookup (k : string) (d : dict) : option json :=
  match d with
  | [] => None
  | (k', v) :: d' => if String.eqb k k' then Some v else dict_lookup k d'
  end.

(** [k in d]. *)
Definition dict_has (k : string) (d : dict) : bool :=
  match dict_lookup k d with Some _ => true | None => false end.

(** [d.get(k, default)]; [d.get(k)] is [dict_get k JNull d]. *)
Definition dict_get (k : string) (default : json) (d : dict) : json :=
  match dict_lookup k d with Some v => v | None => default end.

(** [d[k] = v]. *)
Fixpoint dict_set (k : string) (v : json) (d : dict) : dict :=
  match d with
  | [] => [(k, v)]
  | (k', v') :: d' =>
      if String.eqb k k' then (k, v) :: d' else (k', v') :: dict_set k v d'
  end.

(** Truth value of a JSON value. *)
Definition truthy (j : json) : bool :=
  match j with
  | JNull => false
  | JBool b => b
  | JInt z => negb (z =? 0)%Z
  | JFloat f => negb (f =? 0)
  | JStr s => negb (String.eqb s "")
  | JList l => match l with [] => false | _ => true end
  | JDict d => match d with [] => false | _ => true end
  end.

(** [a or b]: the first operand when it is true, else the second. *)
Definition py_or (a b : json) : json := if truthy a then a else b.

Definition opt_str (o : option string) : json :=
  match o with Some s => JStr s | None => JNull end.

(** [" ".join(all_text)]. *)
Definition join (sep : string) (l : list string) : string := String.concat sep l.

(** ** Exceptions, collaborators and recorded effects *)

(** A raised exception.  [Error msg] is any exception [e] with
    [str(e) = msg]; FastAPI's [HTTPException] carries a status. *)
Inductive exn :=
  | Error (msg : string)
  | HTTPException (status_code : nat) (detail : string).

Inductive outcome (A : Type) :=
  | Returns (a : A)
  | Raises (e : exn).
Arguments Returns {A} a.
Arguments Raises {A} e.

(** The calls to external collaborators that a job performs, in order. *)
Inductive event :=
  | EvSaveUpload (path : string)
  | EvMkdtemp
  | EvDownload (url : string)
  | EvDecodeBase64 (audio_format : string)
  | EvConvertToWav (path : string)
  | EvSplit (wav_file : string)
  | EvDiarize (wav_file : string)
  | EvDiarizerCleanup
  | EvTranscribe (i : nat) (chunk_path : string)
  | EvPost (url : string) (payload : json) (timeout : nat).

(** A computation records its collaborator calls and either returns or
    raises. *)
Definition M (A : Type) : Type := list event -> outcome A * list event.

Definition ret {A} (a : A) : M A := fun t => (Returns a, t).

Definition raise {A} (e : exn) : M A := fun t => (Raises e, t).

Definition bind {A B} (c : M A) (k : A -> M B) : M B :=
  fun t => match c t with
           | (Returns a, t') => k a t'
           | (Raises e, t') => (Raises e, t')
           end.

(** [try: c  except Exception as e: handler(e)]. *)
Definition try_except {A} (c : M A) (handler : exn -> M A) : M A :=
  fun t => match c t with
           | (Returns a, t') => (Returns a, t')
           | (Raises e, t') => handler e t'
           end.

(** An outcome that is computed without calling a collaborator. *)
Definition run {A} (o : outcome A) : M A := fun t => (o, t).

(** Calling a collaborator: the call is recorded, then its outcome
    takes effect. *)
Definition call {A} (ev : event) (o : outcome A) : M A :=
  fun t => (o, t ++ [ev]).

#[global] Instance M_ret : MRet M := @ret.
#[global] Instance M_bind : MBind M := fun A B k c => bind c k.

(** The modules [audio], [transcription] and [config] are external
    collaborators; a job sees them through their results.  [float_sum]
    is the built-in [sum] on a non-empty list of floats: CPython adds
    the items to 0 from left to right up to version 3.11, and
    compensates the rounding errors of the additions from 3.12 on. *)
Record Collaborators := {
  save_upload : outcome string;
  mkdtemp : outcome string;
  download_audio : string -> string -> outcome string;
  decode_base64_audio : string -> string -> string -> outcome string;
  convert_audio_to_wav : string -> outcome string;
  split_audio_into_chunks : string -> float -> outcome (list string);
  transcribe_audio_chunk :
    string -> option string -> bool -> outcome (string * list Segment);
  format_srt : list Segment -> outcome string;
  format_vtt : list Segment -> outcome string;
  get_hf_token : option string;
  diarize : string -> DiarizationResult;
  chunk_duration : float;
  float_sum : list float -> float
}.

(** [str(e)].  How an [HTTPException] prints depends on the installed
    Starlette; it is a parameter. *)
Definition str_exn (http_str : nat -> string -> string) (e : exn) : string :=
  match e with
  | Error msg => msg
  | HTTPException status_code detail => http_str status_code detail
  end.

(** [str(e)] in the serverless handlers, where no [HTTPException] is
    raised. *)
Definition str_error (e : exn) : string := str_exn (fun _ detail => detail) e.

(** ** The chunk loop

    [api.py] lines 152-178 and [runpod_handler_transcription.py] lines
    244-270 are the same loop.  The segments that the ASR collaborator
    returns for a chunk are fresh objects, so shifting them in place is
    a map over the chunk's list. *)

(** [segment.start += offset; segment.end += offset]. *)
Definition shift_segment (offset : float) (segment : Segment) : Segment :=
  {| seg_id := seg_id segment;
     seg_start := seg_start segment + offset;
     seg_end := seg_end segment + offset;
     seg_text := seg_text segment;
     seg_speaker := seg_speaker segment |}.

(** The timestamp correction applied to the segments of chunk [i];
    [offset = i * chunk_duration] multiplies the index, converted to a
    float, with the configured duration.  (A duration configured as an
    integer gives the same offset as the float of its value, as long
    as the product stays below 2^53.) *)
Definition correct_timestamps (chunk_duration : float) (i : nat)
    (chunk_segments : list Segment) : list Segment :=
  if (0 <? i)%nat
  then let offset := float_of_Z (Z.of_nat i) * chunk_duration in
       map (shift_segment offset) chunk_segments
  else chunk_segments.

(** [for i, chunk_path in enumerate(audio_chunks): ...], started at
    index [i] with the accumulators [all_text] and [all_segments]. *)
Fixpoint process_chunks (w : Collaborators) (language : option string)
    (word_timestamps : bool) (i : nat) (audio_chunks : list string)
    (all_text : list string) (all_segments : list Segment)
  : M (list string * list Segment) :=
  match audio_chunks with
  | [] => ret (all_text, all_segments)
  | chunk_path :: rest =>
      '(chunk_text, chunk_segments) ←
         call (EvTranscribe i chunk_path)
              (transcribe_audio_chunk w chunk_path language word_timestamps);
      let chunk_segments := correct_timestamps (chunk_duration w) i chunk_segments in
      process_chunks w language word_timestamps (S i) rest
        (all_text ++ [chunk_text]) (all_segments ++ chunk_segments)
  end.

(** ** The serverless transcription handler
    ([runpod_handler_transcription.py]) *)

(** The fields read from [job["input"]], with their defaults applied
    ([response_format] defaults to ["json"], the flags to [False]). *)
Record JobInput := {
  ji_audio : option string;
  ji_audio_format : option string;
  ji_language : option string;
  ji_response_format : string;
  ji_timestamps : bool;
  ji_word_timestamps : bool;
  ji_diarization_segments : option (list SpeakerSegment)
}.

(** Truth value of an optional string: [None] and [""] are false. *)
Definition str_truthy (o : option string) : bool :=
  match o with
  | Some s => negb (String.eqb s "")
  | None => false
  end.

(** Truth value of [diarization_segments]: [None] and [[]] are false. *)
Definition has_diarization (job_input : JobInput) : bool :=
  match ji_diarization_segments job_input with
  | Some (_ :: _) => true
  | _ => false
  end.

Definition valid_formats : list string :=
  ["json"; "text"; "srt"; "vtt"; "verbose_json"].

(** [response_format in valid_formats]. *)
Definition format_is_valid (response_format : string) : bool :=
  existsb (String.eqb response_format) valid_formats.

(** One element of the ["segments"] list of a response. *)
Definition segment_json (seg : Segment) : json :=
  JDict [("id", JInt (seg_id seg));
         ("start", JFloat (seg_start seg));
         ("end", JFloat (seg_end seg));
         ("text", JStr (seg_text seg));
         ("speaker", opt_str (seg_speaker seg))].

(** [sum(xs)] for floats: the integer 0 for no item, otherwise the
    float that the interpreter's [sum] makes of the items. *)
Definition py_sum (w : Collaborators) (xs : list float) : json :=
  match xs with
  | [] => JInt 0
  | _ :: _ => JFloat (float_sum w xs)
  end.

(** [sum((seg.end - seg.start) for seg in all_segments)]. *)
Definition sum_durations (w : Collaborators) (all_segments : list Segment) : json :=
  py_sum w (map (fun seg => seg_end seg - seg_start seg) all_segments).

(** Lines 281-317: the response for a valid [response_format]. *)
Definition format_response (w : Collaborators) (job_input : JobInput)
    (full_text : string) (all_segments : list Segment) : M dict :=
  let response_format := ji_response_format job_input in
  if String.eqb response_format "text" then
    ret [("text", JStr full_text)]
  else if String.eqb response_format "srt" then
    text ← run (format_srt w all_segments);
    ret [("text", JStr text)]
  else if String.eqb response_format "vtt" then
    text ← run (format_vtt w all_segments);
    ret [("text", JStr text)]
  else if String.eqb response_format "verbose_json" then
    ret [("text", JStr full_text);
         ("language", opt_str (ji_language job_input));
         ("duration", sum_durations w all_segments);
         ("model", JStr "parakeet-tdt-0.6b-v2");
         ("segments", JList (map segment_json all_segments))]
  else
    let result := [("text", JStr full_text)] in
    if ji_timestamps job_input || has_diarization job_input
    then ret (dict_set "segments" (JList (map segment_json all_segments)) result)
    else ret result.

(** Lines 212-279 of the [try] block: either the value of the early
    [return], or [full_text] and [all_segments] as they reach the
    formatting step. *)
Definition handler_pipeline (w : Collaborators) (job_input : JobInput)
    (audio_input : string) : M (dict + string * list Segment) :=
  temp_dir ← call EvMkdtemp (mkdtemp w);
  let temp_file := temp_dir +:+ "/input_audio" in
  let fetch : M (dict + string) :=
    if String.prefix "http://" audio_input || String.prefix "https://" audio_input
    then temp_file ← call (EvDownload audio_input)
                          (download_audio w audio_input temp_file);
         ret (inr temp_file)
    else if negb (str_truthy (ji_audio_format job_input))
    then ret (inl [("error",
                    JStr "audio_format is required when using base64-encoded audio")])
    else let audio_format := default "" (ji_audio_format job_input) in
         temp_file ← call (EvDecodeBase64 audio_format)
                          (decode_base64_audio w audio_input temp_file audio_format);
         ret (inr temp_file) in
  fetched ← fetch;
  match fetched with
  | inl early => ret (inl early)
  | inr temp_file =>
      wav_file ← call (EvConvertToWav temp_file) (convert_audio_to_wav w temp_file);
      audio_chunks ← call (EvSplit wav_file)
                          (split_audio_into_chunks w wav_file (chunk_duration w));
      '(all_text, all_segments) ←
         process_chunks w (ji_language job_input) (ji_word_timestamps job_input)
                        0 audio_chunks [] [];
      let full_text := join " " all_text in
      let all_segments :=
        match ji_diarization_segments job_input with
        | Some (d :: ds) => merge_segments (d :: ds) all_segments
        | _ => all_segments
        end in
      ret (inr (full_text, all_segments))
  end.

(** The body of the [try] block (lines 212-320). *)
Definition handler_body (w : Collaborators) (job_input : JobInput)
    (audio_input : string) : M dict :=
  r ← handler_pipeline w job_input audio_input;
  match r with
  | inl early => ret early
  | inr (full_text, all_segments) =>
      format_response w job_input full_text all_segments
  end.

(** [handler(job)] from the validation of the input on, on the fields
    of [job["input"]] ([handler_job] below starts from the job).  The
    [finally] block only removes temporary files: it has no [return]
    and catches its own exceptions, so it does not change the value
    returned. *)
Definition handler (w : Collaborators) (job_input : JobInput) : M dict :=
  if negb (str_truthy (ji_audio job_input)) then
    ret [("error", JStr "Missing required 'audio' field in input")]
  else
    let audio_input := default "" (ji_audio job_input) in
    if negb (format_is_valid (ji_response_format job_input)) then
      ret [("error",
            JStr ("Invalid response_format. Must be one of: "
                  +:+ join ", " valid_formats))]
    else
      try_except (handler_body w job_input audio_input)
                 (fun e => ret [("error", JStr (str_error e))]).

(** ** The single-process API ([api.py], [transcribe_audio]) *)

(** Modelled from the spec: [models.TranscriptionResponse] is imported
    by [api.py] but its declaration is absent; the external interface
    gives a transcription response the fields [text], [segments]
    (optional), [language] (optional), [duration] and [model].
    [response.dict()] is the record itself. *)
Record TranscriptionResponse := {
  tr_text : string;
  tr_segments : option (list Segment);
  tr_language : option string;
  tr_duration : float;
  tr_model : string
}.

(** The form fields of a request that the endpoint reads. *)
Record ApiRequest := {
  rq_file_suffix : string;
  rq_language : option string;
  rq_response_format : string;
  rq_timestamps : bool;
  rq_word_timestamps : bool;
  rq_diarize : bool
}.

(** What the endpoint sends back. *)
Inductive api_response :=
  | JsonBody (r : TranscriptionResponse)
  | PlainTextResponse (body : string).

(** The code points of a text.  A byte below 128 is a character; a
    lead byte with its continuation bytes is the character they
    encode; a byte that starts no well-formed sequence is read as the
    code point of its own value. *)
Definition continuation (c : ascii) : option N :=
  let n := N_of_ascii c in
  if ((128 <=? n) && (n <? 192))%N then Some (n - 128)%N else None.

Fixpoint code_points (s : string) : list N :=
  match s with
  | EmptyString => []
  | String c rest =>
      let n := N_of_ascii c in
      let single := n :: code_points rest in
      if (n <? 192)%N then single
      else if (n <? 224)%N then
        match rest with
        | String c1 rest1 =>
            match continuation c1 with
            | Some x1 => ((n - 192) * 64 + x1)%N :: code_points rest1
            | None => single
            end
        | _ => single
        end
      else if (n <? 240)%N then
        match rest with
        | String c1 (String c2 rest2) =>
            match continuation c1, continuation c2 with
            | Some x1, Some x2 =>
                (((n - 224) * 64 + x1) * 64 + x2)%N :: code_points rest2
            | _, _ => single
            end
        | _ => single
        end
      else if (n <? 248)%N then
        match rest with
        | String c1 (String c2 (String c3 rest3)) =>
            match continuation c1, continuation c2, continuation c3 with
            | Some x1, Some x2, Some x3 =>
                ((((n - 240) * 64 + x1) * 64 + x2) * 64 + x3)%N
                :: code_points rest3
            | _, _, _ => single
            end
        | _ => single
        end
      else single
  end.

(** The characters on which [str.split()] separates words: Unicode
    white space. *)
Definition is_space (c : N) : bool :=
  ((9 <=? c) && (c <=? 13) || (28 <=? c) && (c <=? 32)
   || (c =? 133) || (c =? 160) || (c =? 5760)
   || (8192 <=? c) && (c <=? 8202)
   || (c =? 8232) || (c =? 8233) || (c =? 8239) || (c =? 8287)
   || (c =? 12288))%N.

(** [len(text.split())]: the number of maximal runs of non-space
    characters; [in_word] tells whether the previous character belonged
    to a word. *)
Fixpoint count_words (in_word : bool) (text : list N) : nat :=
  match text with
  | [] => 0
  | c :: rest =>
      if is_space c then count_words false rest
      else if in_word then count_words true rest
      else S (count_words true rest)
  end.

Definition word_count (text : string) : nat :=
  count_words false (code_points text).

(** [sum(len(segment.text.split()) for segment in all_segments) / 150
    if all_segments else 0], as the [duration: float] of the response:
    the quotient of two integers is the float nearest to it. *)
Definition total_words (all_segments : list Segment) : nat :=
  fold_left (fun acc segment => (acc + word_count (seg_text segment))%nat)
            all_segments 0%nat.

Definition estimated_duration (all_segments : list Segment) : float :=
  match all_segments with
  | [] => 0
  | _ :: _ =>
      match total_words all_segments with
      | O => 0
      | S n => int_truediv (Pos.of_succ_nat n) 150
      end
  end.

(** Lines 193-199. *)
Definition make_response (request : ApiRequest) (full_text : string)
    (all_segments : list Segment) : TranscriptionResponse :=
  {| tr_text := full_text;
     tr_segments :=
       if rq_timestamps request
          || String.eqb (rq_response_format request) "verbose_json"
       then Some all_segments else None;
     tr_language := rq_language request;
     tr_duration := estimated_duration all_segments;
     tr_model := "parakeet-tdt-0.6b-v2" |}.

(** The same request with another [response_format]. *)
Definition with_format (response_format : string) (request : ApiRequest)
  : ApiRequest :=
  {| rq_file_suffix := rq_file_suffix request;
     rq_language := rq_language request;
     rq_response_format := response_format;
     rq_timestamps := rq_timestamps request;
     rq_word_timestamps := rq_word_timestamps request;
     rq_diarize := rq_diarize request |}.

(** Lines 201-213. *)
Definition render_response (w : Collaborators) (request : ApiRequest)
    (response : TranscriptionResponse) (full_text : string)
    (all_segments : list Segment) : M api_response :=
  let response_format := rq_response_format request in
  if String.eqb response_format "json" then
    ret (JsonBody response)
  else if String.eqb response_format "text" then
    ret (PlainTextResponse full_text)
  else if String.eqb response_format "srt" then
    text ← run (format_srt w all_segments);
    ret (PlainTextResponse text)
  else if String.eqb response_format "vtt" then
    text ← run (format_vtt w all_segments);
    ret (PlainTextResponse text)
  else if String.eqb response_format "verbose_json" then
    ret (JsonBody response)
  else
    raise (HTTPException 400 ("Unsupported response format: " +:+ response_format)).

(** Lines 108-189 of the [try] block: [full_text] and [all_segments]
    as they reach the construction of the response. *)
Definition transcribe_audio_pipeline (w : Collaborators) (request : ApiRequest)
  : M (string * list Segment) :=
  temp_file ← call (EvSaveUpload (rq_file_suffix request)) (save_upload w);
  wav_file ← call (EvConvertToWav temp_file) (convert_audio_to_wav w temp_file);
  audio_chunks ← call (EvSplit wav_file)
                      (split_audio_into_chunks w wav_file (chunk_duration w));
  (* diarizer = Diarizer(access_token=hf_token), when requested and a
     token is configured *)
  let diarizer : bool :=
    rq_diarize request && str_truthy (get_hf_token w) in
  diarization_result ←
    (if diarizer
     then r ← call (EvDiarize wav_file) (Returns (diarize w wav_file));
          _ ← call EvDiarizerCleanup (Returns tt);
          ret (Some r)
     else ret None);
  '(all_text, all_segments) ←
     process_chunks w (rq_language request) (rq_word_timestamps request)
                    0 audio_chunks [] [];
  let full_text := join " " all_text in
  let all_segments :=
    match diarization_result with
    | Some r =>
        match dr_segments r with
        | _ :: _ => diarizer_merge_segments r all_segments
        | [] => all_segments
        end
    | None => all_segments
    end in
  ret (full_text, all_segments).

(** The body of the [try] block (lines 108-213). *)
Definition transcribe_audio_body (w : Collaborators) (request : ApiRequest)
  : M api_response :=
  '(full_text, all_segments) ← transcribe_audio_pipeline w request;
  let response := make_response request full_text all_segments in
  render_response w request response full_text all_segments.

(** [transcribe_audio]: a returned response, or the [HTTPException]
    that leaves the endpoint.  [model_loaded] is the truth value of the
    global [asr_model]. *)
Definition transcribe_audio (http_str : nat -> string -> string)
    (model_loaded : bool) (w : Collaborators) (request : ApiRequest)
  : M api_response :=
  if negb model_loaded then
    raise (HTTPException 503
             "Model not loaded yet. Please try again in a few moments.")
  else
    try_except (transcribe_audio_body w request)
               (fun e => raise (HTTPException 500 (str_exn http_str e))).

(** ** The orchestrator ([runpod_handler_orchestrator.py]) *)

(** What [requests.post(...)], [raise_for_status()] and
    [response.json()] together come to. *)
Inductive reply :=
  | Timeout
  | RequestException (msg : string)
  | OtherException (msg : string)
  | ResponseJson (result : json).

(** Texts produced by the Python runtime: [repr] of a value that is not
    a string, and the messages of the [TypeError] and [AttributeError]
    raised when a value does not support an operation. *)
Record PyText := {
  repr : json -> string;
  not_iterable : json -> string;
  bad_subscript : json -> string;
  no_get : json -> string
}.

(** [s1 in s2] on strings. *)
Definition is_substring (s1 s2 : string) : bool :=
  match String.index 0 s1 s2 with Some _ => true | None => false end.

(** [key in x], for a string [key]. *)
Definition py_in (py : PyText) (key : string) (x : json) : outcome bool :=
  match x with
  | JDict d => Returns (dict_has key d)
  | JStr s => Returns (is_substring key s)
  | JList l =>
      Returns (existsb (fun v => match v with
                                 | JStr s => String.eqb s key
                                 | _ => false
                                 end) l)
  | _ => Raises (Error (not_iterable py x))
  end.

(** [x[key]], for a string [key]; a missing key raises [KeyError],
    which prints as the quoted key. *)
Definition py_getitem (py : PyText) (key : string) (x : json) : outcome json :=
  match x with
  | JDict d =>
      match dict_lookup key d with
      | Some v => Returns v
      | None => Raises (Error ("'" +:+ key +:+ "'"))
      end
  | _ => Raises (Error (bad_subscript py x))
  end.

(** [x.get(key, default)]. *)
Definition py_get (py : PyText) (key : string) (default : json) (x : json)
  : outcome json :=
  match x with
  | JDict d => Returns (dict_get key default d)
  | _ => Raises (Error (no_get py x))
  end.

(** [f"{x}"]. *)
Definition py_format (py : PyText) (x : json) : string :=
  match x with
  | JStr s => s
  | _ => repr py x
  end.

Definition error_result (msg : json) : json := JDict [("error", msg)].

(** The network, as the orchestrator sees it. *)
Definition network := string -> json -> nat -> reply.

(** What [call_runpod_endpoint] returns for a given reply: every
    exception is turned into an error dict. *)
Definition endpoint_result (py : PyText) (r : reply) : json :=
  match r with
  | Timeout => error_result (JStr "Endpoint request timed out")
  | RequestException msg =>
      error_result (JStr ("Failed to call endpoint: " +:+ msg))
  | OtherException msg => error_result (JStr msg)
  | ResponseJson result =>
      match py_in py "error" result with
      | Raises e => error_result (JStr (str_error e))
      | Returns true =>
          match py_getitem py "error" result with
          | Raises e => error_result (JStr (str_error e))
          | Returns err => error_result err
          end
      | Returns false =>
          match py_in py "output" result with
          | Raises e => error_result (JStr (str_error e))
          | Returns true =>
              match py_getitem py "output" result with
              | Raises e => error_result (JStr (str_error e))
              | Returns output => output
              end
          | Returns false => result
          end
      end
  end.

(** [call_runpod_endpoint(url, payload, timeout)]: never raises. *)
Definition call_runpod_endpoint (py : PyText) (net : network)
    (url : string) (payload : json) (timeout : nat) : M json :=
  call (EvPost url payload timeout)
       (Returns (endpoint_result py (net url payload timeout))).

Definition diar_payload (job_input : dict) : json :=
  JDict [("input",
          JDict [("audio", dict_get "audio" JNull job_input);
                 ("audio_format", dict_get "audio_format" JNull job_input)])].

(** Step 1 (lines 146-165): the value of [diarization_result] when the
    transcription request is built. *)
Definition diarization_stage (py : PyText) (net : network)
    (DIARIZATION_ENDPOINT : string) (job_input : dict) : M json :=
  let diarize := dict_get "diarize" (JBool true) job_input in
  if truthy diarize then
    diarization_result ←
      call_runpod_endpoint py net DIARIZATION_ENDPOINT (diar_payload job_input) 600;
    failed ← run (py_in py "error" diarization_result);
    if (failed : bool) then
      (* the warning formats diarization_result['error'] *)
      _ ← run (py_getitem py "error" diarization_result);
      ret JNull
    else
      (* the log line formats diarization_result.get('num_speakers', 0) *)
      _ ← run (py_get py "num_speakers" (JInt 0) diarization_result);
      ret diarization_result
  else ret JNull.

(** The ["input"] of the transcription request before diarization
    segments are added (lines 169-179). *)
Definition trans_input (job_input : dict) : dict :=
  [("audio", dict_get "audio" JNull job_input);
   ("audio_format", dict_get "audio_format" JNull job_input);
   ("language", dict_get "language" JNull job_input);
   ("response_format", dict_get "response_format" (JStr "json") job_input);
   ("timestamps", py_or (dict_get "timestamps" (JBool false) job_input)
                        (dict_get "diarize" (JBool true) job_input));
   ("word_timestamps", dict_get "word_timestamps" (JBool false) job_input);
   ("temperature", dict_get "temperature" (JFloat 0) job_input)].

(** Lines 169-183: the transcription request. *)
Definition trans_payload (py : PyText) (job_input : dict)
    (diarization_result : json) : M json :=
  if truthy diarization_result then
    has_segments ← run (py_in py "segments" diarization_result);
    if (has_segments : bool) then
      segments ← run (py_getitem py "segments" diarization_result);
      ret (JDict [("input",
                   JDict (dict_set "diarization_segments" segments
                                   (trans_input job_input)))])
    else ret (JDict [("input", JDict (trans_input job_input))])
  else ret (JDict [("input", JDict (trans_input job_input))]).

(** Steps 2 and 3 (lines 167-192). *)
Definition transcription_stage (py : PyText) (net : network)
    (TRANSCRIPTION_ENDPOINT : string) (job_input : dict)
    (diarization_result : json) : M json :=
  payload ← trans_payload py job_input diarization_result;
  transcription_result ←
    call_runpod_endpoint py net TRANSCRIPTION_ENDPOINT payload 900;
  failed ← run (py_in py "error" transcription_result);
  if (failed : bool) then
    err ← run (py_getitem py "error" transcription_result);
    ret (error_result (JStr ("Transcription failed: " +:+ py_format py err)))
  else ret transcription_result.

(** [handler(job)] of the orchestrator from the validation of the
    input on, on the dict [job["input"]] ([orchestrator_handler_job]
    below starts from the job). *)
Definition orchestrator_handler (py : PyText) (net : network)
    (DIARIZATION_ENDPOINT TRANSCRIPTION_ENDPOINT : string) (job_input : dict)
  : M json :=
  if negb (truthy (dict_get "audio" JNull job_input)) then
    ret (error_result (JStr "Missing required 'audio' field in input"))
  else
    try_except
      (diarization_result ←
         diarization_stage py net DIARIZATION_ENDPOINT job_input;
       transcription_stage py net TRANSCRIPTION_ENDPOINT job_input
                           diarization_result)
      (fun e => ret (error_result (JStr (str_error e)))).

(** The ways the diarization call can fail: timeout, transport error,
    an ["error"] field in the response, or an ["error"] field in the
    output that the response wraps. *)
Inductive diarization_failure : reply -> Prop :=
  | fail_timeout : diarization_failure Timeout
  | fail_transport msg : diarization_failure (RequestException msg)
  | fail_error_field d :
      dict_has "error" d = true ->
      diarization_failure (ResponseJson (JDict d))
  | fail_error_output d out :
      dict_has "error" d = false ->
      dict_lookup "output" d = Some (JDict out) ->
      dict_has "error" out = true ->
      diarization_failure (ResponseJson (JDict d)).

(** ** Specification-side definitions *)

(** Global timestamps as the specification states them: the segments
    of chunk [i > 0] have [i * chunk_duration] added to [start] and
    [end]; those of chunk 0 are as the ASR collaborator returned them. *)
Definition spec_global_segments (chunk_duration : float)
    (chunk_outputs : list (list Segment)) : list Segment :=
  concat
    (imap (fun i segs =>
             match i with
             | O => segs
             | S _ =>
                 map (fun s =>
                        {| seg_id := seg_id s;
                           seg_start := seg_start s + float_of_Z (Z.of_nat i) * chunk_duration;
                           seg_end := seg_end s + float_of_Z (Z.of_nat i) * chunk_duration;
                           seg_text := seg_text s;
                           seg_speaker := seg_speaker s |}) segs
             end)
          chunk_outputs).

(** The sum of the per-segment durations [end - start] of the
    segments, in their order, for the summation [sum]. *)
Definition spec_total_duration (sum : list float -> float)
    (segments : list Segment) : float :=
  sum (map (fun s => seg_end s - seg_start s) segments).

(** ** A concrete scenario

    Audio of 150 s split into three chunks of at most 60 s; the ASR
    collaborator reports one segment at chunk-local [5, 10] for every
    chunk. *)
(** The sum of floats from left to right, starting from 0. *)
Definition sum_left (xs : list float) : float := fold_left add xs 0.

Definition local_segment : Segment :=
  {| seg_id := 0; seg_start := 5; seg_end := 10; seg_text := "hello world";
     seg_speaker := None |}.

Definition scenario : Collaborators :=
  {| save_upload := Returns "/tmp/upload_00.mp3";
     mkdtemp := Returns "/tmp/runpod_transcription_0";
     download_audio := fun _ output_path => Returns output_path;
     decode_base64_audio :=
       fun _ output_path audio_format =>
         Returns (output_path +:+ "." +:+ audio_format);
     convert_audio_to_wav := fun _ => Returns "/tmp/audio.wav";
     split_audio_into_chunks :=
       fun _ _ => Returns ["chunk_0.wav"; "chunk_1.wav"; "chunk_2.wav"];
     transcribe_audio_chunk := fun _ _ _ => Returns ("hello world", [local_segment]);
     format_srt := fun _ => Returns "srt";
     format_vtt := fun _ => Returns "vtt";
     get_hf_token := None;
     diarize := fun _ => {| dr_segments := []; dr_num_speakers := 0 |};
     chunk_duration := 60;
     float_sum := sum_left |}.

Definition scenario_request (response_format : string) (timestamps : bool)
  : ApiRequest :=
  {| rq_file_suffix := ".mp3"; rq_language := None;
     rq_response_format := response_format; rq_timestamps := timestamps;
     rq_word_timestamps := false; rq_diarize := true |}.

Definition scenario_job (response_format : string) (timestamps : bool)
    (diarization_segments : option (list SpeakerSegment)) : JobInput :=
  {| ji_audio := Some "https://example.com/audio.mp3";
     ji_audio_format := None; ji_language := None;
     ji_response_format := response_format; ji_timestamps := timestamps;
     ji_word_timestamps := false;
     ji_diarization_segments := diarization_segments |}.

(** [str(e)] of an [HTTPException] in the scenario. *)
Definition scenario_http_str (status_code : nat) (detail : string) : string :=
  detail.

(** Orchestrator scenarios. *)
Definition diar_url : string := "https://api.runpod.ai/v2/diar/runsync".
Definition trans_url : string := "https://api.runpod.ai/v2/trans/runsync".

Definition scenario_py : PyText :=
  {| repr := fun _ => "<repr>";
     not_iterable := fun _ => "argument is not iterable";
     bad_subscript := fun _ => "indices must be integers";
     no_get := fun _ => "object has no attribute 'get'" |}.

Definition orchestrator_job : dict :=
  [("audio", JStr "https://example.com/audio.mp3");
   ("response_format", JStr "verbose_json")].

(** The diarization call times out; the transcription service answers. *)
Definition net_diarization_times_out : network :=
  fun url _ _ =>
    if String.eqb url diar_url then Timeout
    else ResponseJson
           (JDict [("id", JStr "sync-1"); ("status", JStr "COMPLETED");
                   ("output", JDict [("text", JStr "hello world")])]).

(** The diarization service answers; the transcription service reports
    an error. *)
Definition net_transcription_fails : network :=
  fun url _ _ =>
    if String.eqb url diar_url
    then ResponseJson
           (JDict [("output",
                    JDict [("segments",
                            JList [JDict [("start", JFloat 0); ("end", JFloat 5);
                                          ("speaker", JStr "1")]]);
                           ("num_speakers", JInt 1);
                           ("duration", JFloat 5)])])
    else ResponseJson (JDict [("error", JStr "CUDA out of memory")]).

(** The scenario with an ASR collaborator that fails on the second
    chunk. *)
Definition scenario_asr_fails : Collaborators :=
  {| save_upload := save_upload scenario;
     mkdtemp := mkdtemp scenario;
     download_audio := download_audio scenario;
     decode_base64_audio := decode_base64_audio scenario;
     convert_audio_to_wav := convert_audio_to_wav scenario;
     split_audio_into_chunks := split_audio_into_chunks scenario;
     transcribe_audio_chunk :=
       fun chunk_path _ _ =>
         if String.eqb chunk_path "chunk_1.wav"
         then Raises (Error "CUDA out of memory")
         else Returns ("hello world", [local_segment]);
     format_srt := format_srt scenario;
     format_vtt := format_vtt scenario;
     get_hf_token := get_hf_token scenario;
     diarize := diarize scenario;
     chunk_duration := chunk_duration scenario;
     float_sum := float_sum scenario |}.

(** The same request with [diarize] switched off. *)
Definition without_diarization (request : ApiRequest) : ApiRequest :=
  {| rq_file_suffix := rq_file_suffix request;
     rq_language := rq_language request;
     rq_response_format := rq_response_format request;
     rq_timestamps := rq_timestamps request;
     rq_word_timestamps := rq_word_timestamps request;
     rq_diarize := false |}.

(** ** Order of the collaborator calls *)

(** The position of a collaborator call in a job: storing or fetching
    the audio, conversion, splitting, diarization, release of the
    diarizer, then the chunks by index. *)
Definition stage (ev : event) : nat :=
  match ev with
  | EvSaveUpload _ => 0
  | EvMkdtemp => 0
  | EvDownload _ => 1
  | EvDecodeBase64 _ => 1
  | EvConvertToWav _ => 2
  | EvSplit _ => 3
  | EvDiarize _ => 4
  | EvDiarizerCleanup => 5
  | EvTranscribe i _ => 6 + i
  | EvPost _ _ _ => 0
  end.

(** Every call belongs to a later stage than all calls before it. *)
Definition in_pipeline_order (l : list event) : Prop :=
  StronglySorted (fun a b => (stage a < stage b)%nat) l.

(** ** The serverless diarization handler
    ([runpod_handler_diarization.py]) *)

(** The fields read from [job["input"]]. *)
Record DiarizationJob := {
  dj_audio : option string;
  dj_audio_format : option string;
  dj_num_speakers : option Z
}.

(** The global [diarizer]: absent, or an object whose [diarize] method
    is called with the WAV file and [num_speakers]. *)
Abbreviation diarizer_handle :=
  (option (string -> option Z -> outcome DiarizationResult)) (only parsing).

(** One element of the ["segments"] list of a diarization response. *)
Definition speaker_segment_json (seg : SpeakerSegment) : json :=
  JDict [("start", JFloat (spk_start seg));
         ("end", JFloat (spk_end seg));
         ("speaker", JStr (spk_speaker seg))].

(** [max(seg.end for seg in segments) if segments else 0.0]: the
    running maximum is replaced only by a strictly larger value. *)
Definition max_end (segments : list SpeakerSegment) : float :=
  match segments with
  | [] => 0
  | seg :: rest => fold_left (fun m s => pymax m (spk_end s)) rest (spk_end seg)
  end.

(** Lines 176-200: the response built from the diarization result. *)
Definition diarization_response (diarization_result : DiarizationResult) : dict :=
  match dr_segments diarization_result with
  | [] =>
      [("segments", JList []); ("num_speakers", JInt 0); ("duration", JFloat 0)]
  | _ :: _ =>
      [("segments",
        JList (map speaker_segment_json (dr_segments diarization_result)));
       ("num_speakers", JInt (Z.of_nat (dr_num_speakers diarization_result)));
       ("duration", JFloat (max_end (dr_segments diarization_result)))]
  end.

(** The body of the [try] block (lines 153-205). *)
Definition diarization_handler_body
    (diarize_method : string -> option Z -> outcome DiarizationResult)
    (w : Collaborators) (job_input : DiarizationJob) (audio_input : string)
  : M dict :=
  temp_dir ← call EvMkdtemp (mkdtemp w);
  let temp_file := temp_dir +:+ "/input_audio" in
  let fetch : M (dict + string) :=
    if String.prefix "http://" audio_input || String.prefix "https://" audio_input
    then temp_file ← call (EvDownload audio_input)
                          (download_audio w audio_input temp_file);
         ret (inr temp_file)
    else if negb (str_truthy (dj_audio_format job_input))
    then ret (inl [("error",
                    JStr "audio_format is required when using base64-encoded audio")])
    else let audio_format := default "" (dj_audio_format job_input) in
         temp_file ← call (EvDecodeBase64 audio_format)
                          (decode_base64_audio w audio_input temp_file audio_format);
         ret (inr temp_file) in
  fetched ← fetch;
  match fetched with
  | inl early => ret early
  | inr temp_file =>
      wav_file ← call (EvConvertToWav temp_file) (convert_audio_to_wav w temp_file);
      diarization_result ←
        call (EvDiarize wav_file)
             (diarize_method wav_file (dj_num_speakers job_input));
      ret (diarization_response diarization_result)
  end.

(** [handler(job)] of the diarization service, on the fields of
    [job["input"]] ([diarization_handler_job] below starts from the
    job). *)
Definition diarization_handler (diarizer : diarizer_handle) (w : Collaborators)
    (job_input : DiarizationJob) : M dict :=
  match diarizer with
  | None => ret [("error", JStr "Diarization model not initialized")]
  | Some diarize_method =>
      if negb (str_truthy (dj_audio job_input)) then
        ret [("error", JStr "Missing required 'audio' field in input")]
      else
        let audio_input := default "" (dj_audio job_input) in
        try_except (diarization_handler_body diarize_method w job_input audio_input)
                   (fun e => ret [("error", JStr (str_error e))])
  end.

(** ** Jobs as the platform delivers them

    Each handler starts with [job_input = job.get("input", {})] and
    [job_input.get("audio")], both in front of its [try]: on a job or
    an input that is not a dict, [.get] raises [AttributeError] and the
    exception leaves the handler. *)
Definition read_job_input (py : PyText) (job : json) : outcome dict :=
  match py_get py "input" (JDict []) job with
  | Raises e => Raises e
  | Returns (JDict job_input) => Returns job_input
  | Returns v => Raises (Error (no_get py v))
  end.

(** A field that holds a string, or is absent or null. *)
Definition field_opt_str (k : string) (d : dict) : option (option string) :=
  match dict_get k JNull d with
  | JNull => Some None
  | JStr s => Some (Some s)
  | _ => None
  end.

(** A flag that defaults to [False]. *)
Definition field_flag (k : string) (d : dict) : option bool :=
  match dict_get k (JBool false) d with
  | JBool b => Some b
  | _ => None
  end.

(** One diarization segment of a request: a dict with float [start]
    and [end] and a string [speaker]. *)
Definition speaker_segment_of_json (j : json) : option SpeakerSegment :=
  match j with
  | JDict d =>
      match dict_lookup "start" d, dict_lookup "end" d, dict_lookup "speaker" d with
      | Some (JFloat a), Some (JFloat b), Some (JStr speaker) =>
          Some {| spk_start := a; spk_end := b; spk_speaker := speaker |}
      | _, _, _ => None
      end
  | _ => None
  end.

(** The fields of the input of a transcription job, when each of them
    has the type the interface documents: strings (or null) for
    [audio], [audio_format] and [language], a string for
    [response_format], booleans for the flags, and a list of segments
    (or null) for [diarization_segments]. *)
Definition job_fields (d : dict) : option JobInput :=
  audio ← field_opt_str "audio" d;
  audio_format ← field_opt_str "audio_format" d;
  language ← field_opt_str "language" d;
  response_format ←
    match dict_get "response_format" (JStr "json") d with
    | JStr s => Some s
    | _ => None
    end;
  timestamps ← field_flag "timestamps" d;
  word_timestamps ← field_flag "word_timestamps" d;
  diarization_segments ←
    match dict_get "diarization_segments" JNull d with
    | JNull => Some None
    | JList l => Some <$> mapM speaker_segment_of_json l
    | _ => None
    end;
  Some {| ji_audio := audio; ji_audio_format := audio_format;
          ji_language := language; ji_response_format := response_format;
          ji_timestamps := timestamps; ji_word_timestamps := word_timestamps;
          ji_diarization_segments := diarization_segments |}.

(** [handler(job)] of the transcription service on the job as
    delivered.  [None]: some field of the input has another type than
    documented; such a job is outside this model. *)
Definition handler_job (py : PyText) (w : Collaborators) (job : json)
  : option (M dict) :=
  match read_job_input py job with
  | Raises e => Some (raise e)
  | Returns job_input => handler w <$> job_fields job_input
  end.

(** [handler(job)] of the orchestrator on the job as delivered. *)
Definition orchestrator_handler_job (py : PyText) (net : network)
    (DIARIZATION_ENDPOINT TRANSCRIPTION_ENDPOINT : string) (job : json) : M json :=
  match read_job_input py job with
  | Raises e => raise e
  | Returns job_input =>
      orchestrator_handler py net DIARIZATION_ENDPOINT TRANSCRIPTION_ENDPOINT
                           job_input
  end.

(** The fields of the input of a diarization job, when [audio] and
    [audio_format] are strings (or null) and [num_speakers] is an
    integer (or null). *)
Definition diarization_job_fields (d : dict) : option DiarizationJob :=
  audio ← field_opt_str "audio" d;
  audio_format ← field_opt_str "audio_format" d;
  num_speakers ←
    match dict_get "num_speakers" JNull d with
    | JNull => Some None
    | JInt z => Some (Some z)
    | _ => None
    end;
  Some {| dj_audio := audio; dj_audio_format := audio_format;
          dj_num_speakers := num_speakers |}.

(** [handler(job)] of the diarization service on the job as delivered:
    the test of the global [diarizer] comes first.  [None] as for
    [handler_job]. *)
Definition diarization_handler_job (py : PyText) (diarizer : diarizer_handle)
    (w : Collaborators) (job : json) : option (M dict) :=
  match diarizer with
  | None => Some (ret [("error", JStr "Diarization model not initialized")])
  | Some _ =>
      match read_job_input py job with
      | Raises e => Some (raise e)
      | Returns job_input =>
          diarization_handler diarizer w <$> diarization_job_fields job_input
      end
  end.

(** ** [Diarizer.diarize] and [Diarizer.cleanup]
    ([diarization/__init__.py]) *)

(** A speaker label as the diarization pipeline yields it: a string,
    or an integer. *)
Inductive label :=
  | LStr (s : string)
  | LInt (z : Z).

#[global] Instance label_eq_dec : EqDecision label.
Proof. solve_decision. Defined.

(** One item of [itertracks(yield_label=True)]: the turn's bounds and
    the speaker. *)
Record Track := {
  turn_start : float;
  turn_end : float;
  turn_speaker : label
}.

(** What the pipeline returns: a [DiarizeOutput] whose annotation is
    at [.speaker_diarization] (pyannote 4.x), an annotation itself
    (pyannote 3.x), or an object with neither attribute. *)
Inductive pipeline_output :=
  | DiarizeOutput (speaker_diarization : list Track)
  | Annotation (tracks : list Track)
  | UnknownOutput.

(** [str(n)] for an integer. *)
Definition str_of_int (n : Z) : string := NilZero.string_of_int (Z.to_int n).

(** [c in s] for a one-character string [c]. *)
Fixpoint contains_char (c : ascii) (s : string) : bool :=
  match s with
  | EmptyString => false
  | String a rest => Ascii.eqb a c || contains_char c rest
  end.

(** [s.split(c)] for a one-character separator: never empty. *)
Fixpoint split_char (c : ascii) (s : string) : list string :=
  match s with
  | EmptyString => [EmptyString]
  | String a rest =>
      match split_char c rest with
      | part :: parts =>
          if Ascii.eqb a c then EmptyString :: part :: parts
          else String a part :: parts
      | [] => [EmptyString]
      end
  end.

(** [int(s)] and [s.isdigit()] are the interpreter's: they know the
    digits and the white space of every script.  [str_int] yields
    [None] where [int] raises [ValueError]. *)
Record PyStr := {
  str_int : string -> option Z;
  str_isdigit : string -> bool
}.

(** Lines 130-145 (and again 150-165): the [speaker] string of the
    segment built for a track; a label that does not parse is kept.
    For an integer label, [str(speaker).isdigit()] holds exactly when
    it is not negative. *)
Definition speaker_name (py : PyStr) (speaker : label) : string :=
  match speaker with
  | LStr s =>
      if contains_char "_" s then
        match str_int py (List.last (split_char "_" s) EmptyString) with
        | Some n => str_of_int (n + 1)
        | None => s
        end
      else if str_isdigit py s then
        match str_int py s with
        | Some n => str_of_int (n + 1)
        | None => s
        end
      else s
  | LInt z =>
      if (0 <=? z)%Z then str_of_int (z + 1) else str_of_int z
  end.

(** [int] and [isdigit] on ASCII text: white space around the number
    is dropped, one sign is accepted, and at least one decimal digit
    must follow. *)
Definition ascii_space (a : ascii) : bool := is_space (N_of_ascii a).

Fixpoint lstrip (s : string) : string :=
  match s with
  | EmptyString => EmptyString
  | String a rest => if ascii_space a then lstrip rest else s
  end.

Fixpoint rstrip (s : string) : string :=
  match s with
  | EmptyString => EmptyString
  | String a rest =>
      match rstrip rest with
      | EmptyString => if ascii_space a then EmptyString else String a EmptyString
      | rest' => String a rest'
      end
  end.

Definition ascii_int (s : string) : option Z :=
  let s := rstrip (lstrip s) in
  let parse (digits : string) : option Z :=
    match digits with
    | EmptyString => None
    | _ => Z.of_uint <$> NilEmpty.uint_of_string digits
    end in
  match s with
  | String "+" digits => parse digits
  | String "-" digits => Z.opp <$> parse digits
  | _ => parse s
  end.

Fixpoint all_digits (s : string) : bool :=
  match s with
  | EmptyString => true
  | String a rest =>
      ((48 <=? nat_of_ascii a) && (nat_of_ascii a <=? 57))%nat && all_digits rest
  end.

Definition ascii_isdigit (s : string) : bool :=
  match s with
  | EmptyString => false
  | _ => all_digits s
  end.

Definition ascii_py : PyStr :=
  {| str_int := ascii_int; str_isdigit := ascii_isdigit |}.

Definition segment_of_track (py : PyStr) (track : Track) : SpeakerSegment :=
  {| spk_start := turn_start track;
     spk_end := turn_end track;
     spk_speaker := speaker_name py (turn_speaker track) |}.

(** [segments.sort(key=lambda x: x.start)]: stable, ascending, the
    keys compared with [<] only.  An element moves behind the elements
    that start strictly earlier and stops in front of the first other
    one.  (On keys without NaN, where [<] is a strict weak order, every
    stable sort returns this list.) *)
Fixpoint insert_by_start (x : SpeakerSegment) (l : list SpeakerSegment)
  : list SpeakerSegment :=
  match l with
  | [] => [x]
  | y :: l' =>
      if spk_start y <? spk_start x then y :: insert_by_start x l'
      else x :: y :: l'
  end.

Definition sort_by_start (l : list SpeakerSegment) : list SpeakerSegment :=
  foldr insert_by_start [] l.

Definition no_diarization : DiarizationResult :=
  {| dr_segments := []; dr_num_speakers := 0 |}.

(** The loop over the tracks and what follows it (lines 121-179);
    [speakers] is the set of the labels as the pipeline gave them. *)
Definition diarization_of_tracks (py : PyStr) (tracks : list Track)
  : DiarizationResult :=
  {| dr_segments := sort_by_start (map (segment_of_track py) tracks);
     dr_num_speakers := length (remove_dups (map turn_speaker tracks)) |}.

(** [Diarizer.diarize(audio_path, num_speakers)]: [pipeline] is
    [self.pipeline], called on the audio that [load_audio] read. *)
Definition Diarizer_diarize (py : PyStr)
    (pipeline : option (string -> option Z -> outcome pipeline_output))
    (load_audio : string -> outcome unit)
    (audio_path : string) (num_speakers : option Z) : DiarizationResult :=
  match pipeline with
  | None => no_diarization
  | Some run_pipeline =>
      match load_audio audio_path with
      | Raises _ => no_diarization
      | Returns _ =>
          match run_pipeline audio_path num_speakers with
          | Raises _ => no_diarization
          | Returns (DiarizeOutput annotation) => diarization_of_tracks py annotation
          | Returns (Annotation tracks) => diarization_of_tracks py tracks
          | Returns UnknownOutput => no_diarization
          end
      end
  end.


(* ================================================================== *)
(** * Theorems *)

(** ** Floating-point comparison and subtraction

    The facts about binary64 arithmetic that the properties below rest
    on, derived from the specification of the primitive operations. *)

Local Open Scope Z_scope.

Lemma SFltb_key x y : SFltb x y = true <-> okey_lt (SFkey x) (SFkey y).
Proof.
  unfold SFltb, okey_lt, key_lt.
  destruct x as [sx|sx| |sx mx ex], y as [sy|sy| |sy my ey];
    try destruct sx; try destruct sy; simpl;
    try (split; [discriminate|lia]);
    try (split; [lia | reflexivity]); try tauto.
  - change (Pos.compare_cont Eq mx my) with (Pos.compare mx my).
    destruct (Z.compare_spec ex ey); [destruct (Pos.compare_spec mx my)|..];
      simpl; split; try discriminate; try reflexivity; lia.
  - change (Pos.compare_cont Eq mx my) with (Pos.compare mx my).
    destruct (Z.compare_spec ex ey); [destruct (Pos.compare_spec mx my)|..];
      simpl; split; try discriminate; try reflexivity; lia.
Qed.

Lemma ltb_key a b : (a <? b)%float = true <-> okey_lt (fkey a) (fkey b).
Proof. rewrite ltb_spec. apply SFltb_key. Qed.

Lemma ltb_irrefl a : (a <? a)%float = false.
Proof.
  apply not_true_is_false. rewrite ltb_key. unfold okey_lt, key_lt.
  destruct (fkey a) as [[[]]|]; simpl; lia.
Qed.

Lemma ltb_trans a b c :
  (a <? b)%float = true -> (b <? c)%float = true -> (a <? c)%float = true.
Proof.
  rewrite !ltb_key. unfold okey_lt, key_lt.
  destruct (fkey a) as [[[]]|], (fkey b) as [[[]]|], (fkey c) as [[[]]|]; simpl; lia.
Qed.

(** [b] is comparable (not a NaN). *)
Lemma ltb_neg_trans a b c :
  fkey b <> None ->
  (a <? b)%float = false -> (b <? c)%float = false -> (a <? c)%float = false.
Proof.
  intros Hb H1 H2. apply not_true_is_false. apply not_true_iff_false in H1, H2.
  revert H1 H2. rewrite !ltb_key. unfold okey_lt, key_lt.
  destruct (fkey a) as [[[]]|], (fkey b) as [[[]]|], (fkey c) as [[[]]|]; simpl; try lia; done.
Qed.

Lemma ltb_some a b : (a <? b)%float = true -> fkey a <> None /\ fkey b <> None.
Proof.
  rewrite ltb_key. unfold okey_lt. destruct (fkey a), (fkey b); simpl; try tauto; done.
Qed.

(** ** Rounding keeps the sign *)

Lemma digits2_pos_bounds m :
  2 ^ (Zpos (digits2_pos m) - 1) <= Zpos m < 2 ^ Zpos (digits2_pos m).
Proof.
  induction m as [m IH|m IH|]; simpl digits2_pos.
  - rewrite Pos2Z.inj_succ.
    replace (Z.succ (Zpos (digits2_pos m)) - 1) with (Z.succ (Zpos (digits2_pos m) - 1)) by lia.
    rewrite !Z.pow_succ_r by lia. lia.
  - rewrite Pos2Z.inj_succ.
    replace (Z.succ (Zpos (digits2_pos m)) - 1) with (Z.succ (Zpos (digits2_pos m) - 1)) by lia.
    rewrite !Z.pow_succ_r by lia. lia.
  - simpl. lia.
Qed.

Lemma iter_xO m d : Zpos (Pos.iter xO m d) = Zpos m * 2 ^ Zpos d.
Proof.
  induction d as [|d IH] using Pos.peano_ind.
  - simpl. lia.
  - rewrite Pos.iter_succ, Pos2Z.inj_succ, Z.pow_succ_r by lia.
    rewrite Pos2Z.inj_xO, IH. lia.
Qed.

Lemma shl_align_fst m e e' :
  e' <= e -> Zpos (fst (shl_align m e e')) = Zpos m * 2 ^ (e - e').
Proof.
  intros Hle. unfold shl_align.
  destruct (e' - e) as [|d|d] eqn:E; simpl fst.
  - replace (e - e') with 0 by lia. simpl. lia.
  - lia.
  - rewrite iter_xO. f_equal. f_equal. lia.
Qed.

Lemma shl_align_snd m e e' : snd (shl_align m e e') = Z.min e e'.
Proof.
  unfold shl_align. destruct (e' - e) as [|d|d] eqn:E; simpl snd; lia.
Qed.

Lemma bounded_inv m e :
  bounded prec emax m e = true ->
  -1074 <= e /\ Zpos (digits2_pos m) <= 53 /\
  (Zpos (digits2_pos m) = 53 \/ e = -1074).
Proof.
  unfold bounded, canonical_mantissa, fexp, SpecFloat.emin, prec, emax.
  intros H. apply andb_true_iff in H as [H _]. apply Z.eqb_eq in H. lia.
Qed.

Lemma shr_1_m r : 0 <= shr_m r -> shr_m (shr_1 r) = shr_m r / 2.
Proof.
  destruct r as [m r s]. simpl. intros Hm.
  destruct m as [|[p|p|]|p]; simpl; try lia; try done.
  - apply Z.div_unique with 1; lia.
  - apply Z.div_unique with 0; lia.
Qed.

Lemma iter_shr_1 p r :
  0 <= shr_m r -> shr_m (SpecFloat.iter_pos shr_1 p r) = shr_m r / 2 ^ Zpos p.
Proof.
  revert r. induction p as [p IH|p IH|]; intros r Hr; simpl SpecFloat.iter_pos.
  - assert (0 <= shr_m (shr_1 r)) as H1.
    { rewrite shr_1_m by done. apply Z.div_pos; lia. }
    assert (0 < 2 ^ Zpos p) as Hpow by (apply Z.pow_pos_nonneg; lia).
    assert (0 <= shr_m (SpecFloat.iter_pos shr_1 p (shr_1 r))) as H2.
    { rewrite IH by done. apply Z.div_pos; lia. }
    rewrite IH, IH, shr_1_m by done.
    assert (0 < 2 ^ Zpos p) by (apply Z.pow_pos_nonneg; lia).
    rewrite !Z.div_div by lia. f_equal.
    replace (Zpos p~1) with (1 + Zpos p + Zpos p) by lia.
    rewrite !Z.pow_add_r by lia. change (2 ^ 1) with 2. lia.
  - assert (0 <= shr_m (SpecFloat.iter_pos shr_1 p r)) as H2.
    { rewrite IH by done. apply Z.div_pos; lia. }
    rewrite IH, IH by done.
    assert (0 < 2 ^ Zpos p) by (apply Z.pow_pos_nonneg; lia).
    rewrite !Z.div_div by lia. f_equal.
    replace (Zpos p~0) with (Zpos p + Zpos p) by lia.
    rewrite !Z.pow_add_r by lia. lia.
  - rewrite shr_1_m by done. done.
Qed.

Lemma shr_record_of_loc_m m l : shr_m (shr_record_of_loc m l) = m.
Proof. by destruct l as [|[]]. Qed.

Lemma shr_fexp_pos m e l :
  0 < m -> -1074 <= e ->
  0 < shr_m (shr_fexp prec emax m e l).1 /\ -1074 <= (shr_fexp prec emax m e l).2.
Proof.
  intros Hm He. destruct m as [|p|p]; try lia.
  unfold shr_fexp, shr, fexp, SpecFloat.emin, prec, emax. simpl Zdigits2.
  pose proof (digits2_pos_bounds p) as [Hlo Hhi].
  set (d := Zpos (digits2_pos p)) in *.
  destruct (Z.max (d + e - 53) (3 - 1024 - 53) - e) as [|n|n] eqn:En; simpl fst; simpl snd.
  - by rewrite shr_record_of_loc_m.
  - split; [|lia].
    rewrite iter_shr_1 by (rewrite shr_record_of_loc_m; lia).
    rewrite shr_record_of_loc_m.
    assert (Zpos n = d - 53) as -> by lia.
    assert (2 ^ (d - 1) = 2 ^ 52 * 2 ^ (d - 53)) as Hp.
    { rewrite <- Z.pow_add_r by lia. f_equal. lia. }
    assert (0 < 2 ^ (d - 53)) by (apply Z.pow_pos_nonneg; lia).
    apply Z.div_str_pos. split; [lia|].
    assert (0 < 2 ^ 52) by done. nia.
  - by rewrite shr_record_of_loc_m.
Qed.

Lemma round_nearest_even_pos m l : 0 < m -> 0 < round_nearest_even m l.
Proof.
  intros Hm. destruct l as [|[]]; simpl; try lia. destruct (Z.even m); lia.
Qed.

Lemma binary_round_aux_sign sx m e l :
  0 < m -> -1074 <= e ->
  (exists m' e', binary_round_aux prec emax sx m e l = S754_finite sx m' e') \/
  binary_round_aux prec emax sx m e l = S754_infinity sx.
Proof.
  intros Hm He. unfold binary_round_aux.
  pose proof (shr_fexp_pos m e l Hm He) as [H1 H2].
  destruct (shr_fexp prec emax m e l) as [mrs' e']. simpl in H1, H2.
  pose proof (shr_fexp_pos _ e' loc_Exact
                (round_nearest_even_pos _ (loc_of_shr_record mrs') H1) H2) as [H3 H4].
  destruct (shr_fexp prec emax _ e' loc_Exact) as [mrs'' e'']. simpl in H3, H4.
  destruct (shr_m mrs'') as [|p|p]; try lia.
  destruct (e'' <=? emax - prec); eauto.
Qed.

Lemma binary_round_sign sx m e :
  -1074 <= e ->
  (exists m' e', binary_round prec emax sx m e = S754_finite sx m' e') \/
  binary_round prec emax sx m e = S754_infinity sx.
Proof.
  intros He. unfold binary_round.
  pose proof (shl_align_snd m e (fexp prec emax (Zpos (digits2_pos m) + e))) as Hs.
  destruct (shl_align m e _) as [mz ez]. simpl in Hs.
  apply binary_round_aux_sign; [done|].
  unfold fexp, SpecFloat.emin, prec, emax in Hs. lia.
Qed.

(** ** The sign of a difference *)

Lemma mantissa_bounds m e :
  bounded prec emax m e = true ->
  -1074 <= e /\ Zpos m < 9007199254740992 /\
  (-1074 < e -> 4503599627370496 <= Zpos m).
Proof.
  intros H. apply bounded_inv in H as (He & Hd & Hn).
  pose proof (digits2_pos_bounds m) as [Hlo Hhi].
  change 9007199254740992 with (2 ^ 53). change 4503599627370496 with (2 ^ 52).
  split; [done|]. split.
  - eapply Z.lt_le_trans; [exact Hhi|]. apply Z.pow_le_mono_r; lia.
  - intros He'. destruct Hn as [Hn|Hn]; [|lia]. by rewrite Hn in Hlo.
Qed.

Lemma aligned_diff_pos sx mx ex sy my ey ez :
  bounded prec emax mx ex = true -> bounded prec emax my ey = true ->
  ez = Z.min ex ey ->
  SFltb (S754_finite sx mx ex) (S754_finite sy my ey) = true ->
  0 < cond_Zopp sy (Zpos (shl_align my ey ez).1)
      - cond_Zopp sx (Zpos (shl_align mx ex ez).1).
Proof.
  intros Hx Hy -> Hlt.
  apply mantissa_bounds in Hx as (Hex & Hmx & Hnx).
  apply mantissa_bounds in Hy as (Hey & Hmy & Hny).
  rewrite !shl_align_fst by lia.
  apply SFltb_key in Hlt. unfold okey_lt, key_lt in Hlt.
  assert (forall a b, a < b -> 2 <= 2 ^ (b - a)) as Hpow.
  { intros a b Hab. change 2 with (2 ^ 1) at 1. apply Z.pow_le_mono_r; lia. }
  destruct sx, sy; simpl in Hlt; unfold cond_Zopp.
  - (* both negative *)
    destruct (Z.lt_trichotomy ex ey) as [Hlt'|[Heq|Hgt]]; try lia.
    + subst ey. rewrite Z.min_id, Z.sub_diag. change (2 ^ 0) with 1. lia.
    + replace (Z.min ex ey) with ey by lia.
      rewrite Z.sub_diag. change (2 ^ 0) with 1.
      specialize (Hpow ey ex Hgt). specialize (Hnx ltac:(lia)).
      assert (4503599627370496 * 2 <= Zpos mx * 2 ^ (ex - ey))
        by (apply Z.mul_le_mono_nonneg; lia).
      lia.
  - assert (0 < Zpos my * 2 ^ (ey - Z.min ex ey))
      by (apply Z.mul_pos_pos; [lia | apply Z.pow_pos_nonneg; lia]).
    assert (0 < Zpos mx * 2 ^ (ex - Z.min ex ey))
      by (apply Z.mul_pos_pos; [lia | apply Z.pow_pos_nonneg; lia]).
    lia.
  - lia.
  - destruct (Z.lt_trichotomy ex ey) as [Hlt'|[Heq|Hgt]]; try lia.
    + replace (Z.min ex ey) with ex by lia.
      rewrite Z.sub_diag. change (2 ^ 0) with 1.
      specialize (Hpow ex ey Hlt'). specialize (Hny ltac:(lia)).
      assert (4503599627370496 * 2 <= Zpos my * 2 ^ (ey - ex))
        by (apply Z.mul_le_mono_nonneg; lia).
      lia.
    + subst ey. rewrite Z.min_id, Z.sub_diag. change (2 ^ 0) with 1. lia.
Qed.

Lemma binary_normalize_pos m e :
  0 < m -> -1074 <= e -> SFpositive (binary_normalize prec emax m e false).
Proof.
  intros Hm He. destruct m as [|p|p]; try lia. by apply binary_round_sign.
Qed.

Lemma binary_normalize_neg m e :
  m < 0 -> -1074 <= e -> SFnegative (binary_normalize prec emax m e false).
Proof.
  intros Hm He. destruct m as [|p|p]; try lia. by apply binary_round_sign.
Qed.

Lemma SFsub_pos x y :
  valid_binary x = true -> valid_binary y = true ->
  SFltb x y = true -> SFpositive (SF64sub y x).
Proof.
  intros Hx Hy Hlt. unfold SFpositive.
  destruct x as [sx|sx| |sx mx ex], y as [sy|sy| |sy my ey];
    try destruct sx; try destruct sy; try discriminate Hlt;
    unfold SF64sub, SFsub; cbv beta iota zeta; eauto.
  all: simpl in Hx, Hy;
    pose proof (aligned_diff_pos _ mx ex _ my ey _ Hx Hy (Z.min_comm ey ex) Hlt) as Hd;
    apply binary_normalize_pos; [exact Hd | apply mantissa_bounds in Hx, Hy; lia].
Qed.

Lemma SFsub_neg x y :
  valid_binary x = true -> valid_binary y = true ->
  SFltb x y = true -> SFnegative (SF64sub x y).
Proof.
  intros Hx Hy Hlt. unfold SFnegative.
  destruct x as [sx|sx| |sx mx ex], y as [sy|sy| |sy my ey];
    try destruct sx; try destruct sy; try discriminate Hlt;
    unfold SF64sub, SFsub; cbv beta iota zeta; eauto.
  all: simpl in Hx, Hy;
    pose proof (aligned_diff_pos _ mx ex _ my ey _ Hx Hy eq_refl Hlt) as Hd;
    apply binary_normalize_neg; [lia | apply mantissa_bounds in Hx, Hy; lia].
Qed.

Lemma SFsub_unordered x y :
  SFkey x = None \/ SFkey y = None -> SF64sub y x = S754_nan.
Proof.
  intros [H|H]; destruct x as [[]|[]| |[] ? ?], y as [[]|[]| |[] ? ?];
    try discriminate H; reflexivity.
Qed.

Lemma SFsub_equal x y k :
  SFkey x = Some k -> SFkey y = Some k ->
  (exists s, SF64sub y x = S754_zero s) \/ SF64sub y x = S754_nan.
Proof.
  intros Hx Hy.
  destruct x as [[]|[]| |[] mx ex], y as [[]|[]| |[] my ey];
    simpl in Hx, Hy; try congruence;
    try (left; eexists; reflexivity); try (right; reflexivity).
  all: assert (ex = ey /\ mx = my) as [-> ->]
         by (rewrite <- Hy in Hx; injection Hx; intros; split; lia).
  all: left; exists false; unfold SF64sub, SFsub; cbv beta iota zeta.
  all: by rewrite Z.sub_diag.
Qed.

Lemma key_trichotomy (a b : Z * Z * Z) : key_lt a b \/ a = b \/ key_lt b a.
Proof.
  destruct a as [[a1 a2] a3], b as [[b1 b2] b3]. unfold key_lt. simpl.
  destruct (Z.lt_trichotomy a1 b1) as [?|[->|?]]; [lia| |lia].
  destruct (Z.lt_trichotomy a2 b2) as [?|[->|?]]; [lia| |lia].
  destruct (Z.lt_trichotomy a3 b3) as [?|[->|?]]; [lia| |lia].
  right. by left.
Qed.

Lemma Prim2SF_zero : Prim2SF 0 = S754_zero false.
Proof. reflexivity. Qed.

(** The difference of two floats is positive exactly when the second
    is smaller than the first: subtraction rounds, but it neither
    rounds a non-zero difference to zero nor changes its sign. *)
Lemma sub_pos_iff a b : (0 <? b - a)%float = true <-> (a <? b)%float = true.
Proof.
  rewrite !ltb_spec, sub_spec, Prim2SF_zero.
  pose proof (Prim2SF_valid a) as Ha. pose proof (Prim2SF_valid b) as Hb.
  split.
  - intros Hpos.
    destruct (SFkey (Prim2SF a)) as [ka|] eqn:Ka;
      [|by rewrite SFsub_unordered in Hpos by auto].
    destruct (SFkey (Prim2SF b)) as [kb|] eqn:Kb;
      [|by rewrite SFsub_unordered in Hpos by auto].
    destruct (key_trichotomy ka kb) as [Hlt|[->|Hgt]].
    + apply SFltb_key. by rewrite Ka, Kb.
    + by destruct (SFsub_equal _ _ _ Ka Kb) as [[s E]| E]; rewrite E in Hpos.
    + assert (SFltb (Prim2SF b) (Prim2SF a) = true) as Hba.
      { apply SFltb_key. by rewrite Ka, Kb. }
      by destruct (SFsub_neg _ _ Hb Ha Hba) as [(m & e & E)| E]; rewrite E in Hpos.
  - intros Hlt.
    by destruct (SFsub_pos _ _ Ha Hb Hlt) as [(m & e & E)| E]; rewrite E.
Qed.

Lemma ltb_zero_some a : (0 <? a)%float = true -> fkey a <> None.
Proof. intros H. by apply ltb_some in H as [_ H]. Qed.

Local Close Scope Z_scope.

Lemma flt_irrefl a : ~ flt a a.
Proof. unfold flt. by rewrite ltb_irrefl. Qed.

Lemma flt_trans a b c : flt a b -> flt b c -> flt a c.
Proof. apply ltb_trans. Qed.

Lemma flt_asym a b : flt a b -> ~ flt b a.
Proof. intros H1 H2. exact (flt_irrefl a (flt_trans _ _ _ H1 H2)). Qed.

(** [<?] is a strict weak order on the floats that are not NaN. *)
Lemma flt_neg_trans a b c :
  fkey b <> None -> ~ flt a b -> ~ flt b c -> ~ flt a c.
Proof.
  unfold flt. intros Hb H1 H2. apply not_true_iff_false.
  apply (ltb_neg_trans a b c Hb); by apply not_true_iff_false.
Qed.

Lemma flt_pos_key a : flt 0 a -> fkey a <> None.
Proof. apply ltb_zero_some. Qed.

(** ** The inner loop and the overlap formula *)

Lemma overlapping_fold_app start end_ diar acc :
  fold_left
    (fun overlapping spk_segment =>
       let overlap_start := pymax start (spk_start spk_segment) in
       let overlap_end := pymin end_ (spk_end spk_segment) in
       if overlap_start <? overlap_end
       then overlapping ++ [(spk_speaker spk_segment, overlap_end - overlap_start)]
       else overlapping)
    diar acc
  = acc ++ omap (overlap_entry start end_) diar.
Proof.
  revert acc. induction diar as [|d diar IH]; intros acc; simpl.
  - by rewrite app_nil_r.
  - rewrite IH. unfold overlap_entry.
    destruct (_ <? _); simpl; [by rewrite <- app_assoc | done].
Qed.

Lemma overlapping_of_omap start end_ diar :
  overlapping_of start end_ diar = omap (overlap_entry start end_) diar.
Proof. unfold overlapping_of. by rewrite overlapping_fold_app. Qed.

Lemma pymax_zero_pos x : (0 <? x) = true -> pymax 0 x = x.
Proof. intros H. unfold pymax. by rewrite H. Qed.

Lemma pymax_zero_nonpos x : (0 <? x) = false -> pymax 0 x = 0.
Proof. intros H. unfold pymax. by rewrite H. Qed.

(** The test [overlap_end > overlap_start] of the loop and the formula
    [max(0, overlap_end - overlap_start)] agree: the segment enters
    [overlapping] exactly when the formula is positive, with the
    formula's value as its duration, and the formula is 0 otherwise. *)
Lemma overlap_entry_Some start end_ d spk q :
  overlap_entry start end_ d = Some (spk, q) ->
  spk = spk_speaker d /\ overlap start end_ d = q /\ flt 0 q.
Proof.
  unfold overlap_entry, overlap.
  destruct (_ <? _) eqn:E; [|done].
  intros [= <- <-]. apply sub_pos_iff in E.
  split; [done|]. split; [|done]. by apply pymax_zero_pos.
Qed.

Lemma overlap_entry_None start end_ d :
  overlap_entry start end_ d = None -> overlap start end_ d = 0.
Proof.
  unfold overlap_entry, overlap.
  destruct (_ <? _) eqn:E; [done|]. intros _.
  apply pymax_zero_nonpos, not_true_iff_false.
  rewrite sub_pos_iff. congruence.
Qed.

Lemma overlap_zero_or_positive start end_ d :
  overlap start end_ d = 0 \/ flt 0 (overlap start end_ d).
Proof.
  destruct (overlap_entry start end_ d) as [[spk q]|] eqn:E.
  - right. by apply overlap_entry_Some in E as (_ & -> & ?).
  - left. by apply overlap_entry_None.
Qed.

Lemma overlap_positive_or_zero start end_ diar :
  Exists (fun d => flt 0 (overlap start end_ d)) diar \/
  Forall (fun d => overlap start end_ d = 0) diar.
Proof.
  induction diar as [|d diar [IH|IH]].
  - right. constructor.
  - left. by apply Exists_cons_tl.
  - destruct (overlap_zero_or_positive start end_ d) as [Hz|Hp].
    + right. by constructor.
    + left. by apply Exists_cons_hd.
Qed.

(** ** The stable descending sort *)

Lemma insert_desc_perm x l : Permutation (x :: l) (insert_desc x l).
Proof.
  induction l as [|y l IH]; simpl; [done|].
  destruct (snd x <? snd y); [|done].
  rewrite <- IH. apply perm_swap.
Qed.

Lemma sort_desc_perm l : Permutation l (sort_desc l).
Proof.
  induction l as [|x l IH]; simpl; [done|].
  rewrite <- insert_desc_perm. by constructor.
Qed.

Lemma sort_desc_nil_inv l : sort_desc l = [] -> l = [].
Proof.
  intros H. apply Permutation_nil. rewrite <- H. symmetry. apply sort_desc_perm.
Qed.

(** The head of the sorted list is the first element of the input whose
    duration is maximal. *)
Lemma sort_desc_head l x rest :
  Forall (fun y => flt 0 (snd y)) l ->
  sort_desc l = x :: rest ->
  exists pre post,
    l = pre ++ x :: post /\
    Forall (fun y => flt (snd y) (snd x)) pre /\
    Forall (fun y => ~ flt (snd x) (snd y)) post.
Proof.
  intros Hpos. revert x rest.
  induction Hpos as [|a l Ha Hl IH]; intros x rest; simpl; [done|].
  destruct (sort_desc l) as [|y rest'] eqn:Hs; simpl.
  - intros [= <- <-]. apply sort_desc_nil_inv in Hs as ->.
    exists [], []. by repeat split.
  - destruct (IH y rest' eq_refl) as (pre & post & -> & Hpre & Hpost).
    assert (fkey (snd y) <> None) as Hy.
    { apply flt_pos_key. rewrite Forall_forall in Hl. apply Hl.
      apply elem_of_app. right. left. }
    destruct (snd a <? snd y) eqn:E.
    + intros [= <- <-].
      exists (a :: pre), post. repeat split; [|done].
      by constructor.
    + intros [= <- <-]. apply not_true_iff_false in E.
      exists [], (pre ++ y :: post). repeat split; [constructor|].
      apply Forall_app. split.
      * eapply Forall_impl; [exact Hpre|]. simpl. intros z Hz Haz.
        apply E. by apply flt_trans with (snd z).
      * constructor; [done|].
        eapply Forall_impl; [exact Hpost|]. simpl. intros z Hz.
        by apply flt_neg_trans with (snd y).
Qed.

Lemma omap_split {A B} (f : A -> option B) l pre' x post' :
  omap f l = pre' ++ x :: post' ->
  exists pre d post,
    l = pre ++ d :: post /\ f d = Some x /\
    omap f pre = pre' /\ omap f post = post'.
Proof.
  revert pre'. induction l as [|a l IH]; intros pre'; simpl.
  - by destruct pre'.
  - destruct (f a) as [b|] eqn:Ha.
    + destruct pre' as [|b' pre']; simpl.
      * intros [= -> <-]. exists [], a, l. simpl. by rewrite Ha.
      * intros [= <- H]. destruct (IH _ H) as (pre & d & post & -> & Hd & <- & <-).
        exists (a :: pre), d, post. simpl. by rewrite Ha.
    + intros H. destruct (IH _ H) as (pre & d & post & -> & Hd & <- & <-).
      exists (a :: pre), d, post. simpl. by rewrite Ha.
Qed.

Lemma overlap_entries_positive start end_ l :
  Forall (fun y => flt 0 (snd y)) (omap (overlap_entry start end_) l).
Proof.
  induction l as [|d l IH]; simpl; [constructor|].
  destruct (overlap_entry start end_ d) as [[spk q]|] eqn:E; [|done].
  constructor; [|done]. by apply overlap_entry_Some in E as (_ & _ & ?).
Qed.

Lemma overlap_Forall_transfer (R : float -> float -> Prop) start end_ q l :
  R 0 q ->
  Forall (fun y => R (snd y) q) (omap (overlap_entry start end_) l) ->
  Forall (fun d' => R (overlap start end_ d') q) l.
Proof.
  intros H0. induction l as [|d l IH]; simpl; [constructor|].
  destruct (overlap_entry start end_ d) as [[spk q']|] eqn:E.
  - intros Hall. apply Forall_cons in Hall as [Hd Hl].
    apply overlap_entry_Some in E as (_ & Hq & _).
    constructor; [by rewrite Hq | auto].
  - intros Hall. apply overlap_entry_None in E.
    constructor; [by rewrite E | auto].
Qed.

(** ** The label chosen by the loop body *)

Lemma dominant_speaker_unknown start end_ diar :
  Forall (fun d => overlap start end_ d = 0) diar ->
  dominant_speaker start end_ diar = "unknown".
Proof.
  intros Hall. unfold dominant_speaker. rewrite overlapping_of_omap.
  assert (omap (overlap_entry start end_) diar = []) as ->; [|done].
  induction Hall as [|d l Hd Hl IH]; simpl; [done|].
  destruct (overlap_entry start end_ d) as [[spk q]|] eqn:E; [|done].
  apply overlap_entry_Some in E as (_ & Hq & Hpos). rewrite Hq in Hd.
  rewrite Hd in Hpos. by apply flt_irrefl in Hpos.
Qed.

Lemma dominant_speaker_first_max start end_ diar :
  Exists (fun d => flt 0 (overlap start end_ d)) diar ->
  exists d, first_max_overlap start end_ diar d /\
            flt 0 (overlap start end_ d) /\
            dominant_speaker start end_ diar = spk_speaker d.
Proof.
  intros Hex. unfold dominant_speaker. rewrite overlapping_of_omap.
  destruct (omap (overlap_entry start end_) diar) as [|e es] eqn:Hov.
  - exfalso. apply Exists_exists in Hex as (d & Hin & Hpos).
    assert (Forall (fun d' => overlap start end_ d' = 0) diar) as Hall.
    { apply (overlap_Forall_transfer (fun a b => a = b)); [done|].
      rewrite Hov. constructor. }
    rewrite Forall_forall in Hall. rewrite (Hall d Hin) in Hpos.
    by apply flt_irrefl in Hpos.
  - rewrite <- Hov.
    destruct (sort_desc (omap (overlap_entry start end_) diar))
      as [|[spk q] rest] eqn:Hs.
    { apply sort_desc_nil_inv in Hs. congruence. }
    apply sort_desc_head in Hs as (pre' & post' & Hsplit & Hpre & Hpost);
      [|apply overlap_entries_positive].
    apply omap_split in Hsplit as (pre & d & post & -> & Hd & <- & <-).
    apply overlap_entry_Some in Hd as (-> & Hq & Hpos). simpl in *.
    exists d. split; [|by rewrite Hq].
    exists pre, post. rewrite Hq. split; [done|]. split.
    + by apply (overlap_Forall_transfer (fun a b => flt a b)).
    + apply (overlap_Forall_transfer (fun a b => ~ flt b a)); [|done].
      by apply flt_asym.
Qed.

(** ** The outer loop on the object store *)

Lemma assigned_frame diar s : frame (assigned diar s) = frame s.
Proof. done. Qed.

Lemma assigned_idemp diar s : assigned diar (assigned diar s) = assigned diar s.
Proof. done. Qed.

Lemma merge_step_length diar st r :
  length (ms_heap (merge_step diar st r)) = length (ms_heap st).
Proof.
  unfold merge_step. destruct (ms_heap st !! r); simpl; [|done].
  by rewrite length_insert.
Qed.

Lemma merge_step_lookup diar st r r' :
  ms_heap (merge_step diar st r) !! r' =
  if decide (r' = r) then assigned diar <$> ms_heap st !! r' else ms_heap st !! r'.
Proof.
  unfold merge_step. destruct (ms_heap st !! r) as [s|] eqn:E; simpl.
  - destruct (decide (r' = r)) as [->|Hne].
    + rewrite E. simpl. apply list_lookup_insert_eq. by eapply lookup_lt_Some.
    + by apply list_lookup_insert_ne.
  - destruct (decide (r' = r)) as [->|Hne]; [by rewrite E | done].
Qed.

Lemma merge_fold_length diar refs st :
  length (ms_heap (fold_left (merge_step diar) refs st)) = length (ms_heap st).
Proof.
  revert st. induction refs as [|r refs IH]; intros st; simpl; [done|].
  by rewrite IH, merge_step_length.
Qed.

Lemma merge_fold_lookup diar refs st r' :
  ms_heap (fold_left (merge_step diar) refs st) !! r' =
  if decide (r' ∈ refs) then assigned diar <$> ms_heap st !! r' else ms_heap st !! r'.
Proof.
  revert st. induction refs as [|r refs IH]; intros st; simpl.
  - destruct (decide (r' ∈ [])) as [H|H]; [by apply elem_of_nil in H | done].
  - rewrite IH, merge_step_lookup.
    destruct (decide (r' = r)) as [->|Hne].
    + destruct (decide (r ∈ r :: refs)) as [_|H]; [|exfalso; apply H; left].
      destruct (decide (r ∈ refs)); [|done].
      destruct (ms_heap st !! r); simpl; [|done]. by rewrite assigned_idemp.
    + destruct (decide (r' ∈ refs)) as [Hin|Hnin].
      * destruct (decide (r' ∈ r :: refs)) as [_|H]; [done|].
        exfalso. apply H. by right.
      * destruct (decide (r' ∈ r :: refs)) as [H|_]; [|done].
        apply elem_of_cons in H as [?|?]; done.
Qed.

Lemma merge_step_writes diar st r :
  (ms_writes (merge_step diar st r)).*1 =
  (ms_writes st).*1 ++ live (ms_heap st) [r].
Proof.
  unfold merge_step, live. simpl.
  destruct (ms_heap st !! r) as [s|] eqn:E; simpl.
  - apply lookup_lt_Some in E.
    rewrite filter_cons_True by done. rewrite filter_nil.
    by rewrite fmap_app.
  - apply lookup_ge_None in E.
    rewrite filter_cons_False by lia. rewrite filter_nil.
    by rewrite app_nil_r.
Qed.

Lemma merge_fold_writes diar refs st :
  (ms_writes (fold_left (merge_step diar) refs st)).*1 =
  (ms_writes st).*1 ++ live (ms_heap st) refs.
Proof.
  revert st. induction refs as [|r refs IH]; intros st; simpl.
  - unfold live. rewrite filter_nil. by rewrite app_nil_r.
  - rewrite IH, merge_step_writes. unfold live.
    rewrite merge_step_length, <- app_assoc. f_equal.
    by rewrite <- filter_app.
Qed.

Lemma writes_to_count r log :
  writes_to r log = length (filter (fun r' => r' = r) log.*1).
Proof.
  unfold writes_to. induction log as [|[r' l] log IH]; simpl; [done|].
  destruct (decide (r' = r)) as [->|Hne].
  - rewrite !filter_cons_True by done. simpl. by rewrite IH.
  - rewrite !filter_cons_False by done. done.
Qed.

Lemma filter_eq_notin (r : nat) (l : list nat) :
  r ∉ l -> filter (fun r' => r' = r) l = [].
Proof.
  induction l as [|y l IH]; intros Hr; [done|].
  apply not_elem_of_cons in Hr as [Hne Hr].
  rewrite filter_cons_False by done. by apply IH.
Qed.

Lemma NoDup_filter_eq_length (r : nat) (l : list nat) :
  NoDup l -> (length (filter (fun r' => r' = r) l) <= 1)%nat.
Proof.
  induction 1 as [|x l Hx Hl IH]; [simpl; lia|].
  destruct (decide (x = r)) as [->|Hne].
  - rewrite filter_cons_True by done.
    rewrite filter_eq_notin by done. simpl. lia.
  - by rewrite filter_cons_False.
Qed.

Lemma merge_with_transcription_eq diarization refs h :
  merge_with_transcription diarization refs h =
  merge_diarization_with_transcription (dr_segments diarization) refs h.
Proof. done. Qed.

Lemma merge_heap_lookup diar refs h r :
  diar <> [] ->
  ms_heap (merge_diarization_with_transcription diar refs h).2 !! r =
  if decide (r ∈ refs) then assigned diar <$> h !! r else h !! r.
Proof.
  intros Hne. unfold merge_diarization_with_transcription.
  destruct diar as [|d diar]; [done|]. simpl snd.
  by rewrite merge_fold_lookup.
Qed.

Lemma merge_writes diar refs h :
  diar <> [] ->
  (ms_writes (merge_diarization_with_transcription diar refs h).2).*1 = live h refs.
Proof.
  intros Hne. unfold merge_diarization_with_transcription.
  destruct diar as [|d diar]; [done|]. simpl snd.
  by rewrite merge_fold_writes.
Qed.

Lemma live_NoDup h refs : NoDup refs -> NoDup (live h refs).
Proof. apply NoDup_filter. Qed.

(** On a list of distinct objects the merge is a map. *)
Lemma merge_segments_map diar all_segments :
  diar <> [] ->
  merge_segments diar all_segments = map (assigned diar) all_segments.
Proof.
  intros Hne. unfold merge_segments. apply list_eq. intros i.
  rewrite merge_heap_lookup by done. rewrite list_lookup_fmap.
  destruct (decide (i ∈ seq 0 (length all_segments))) as [Hin|Hnin]; [done|].
  rewrite lookup_ge_None_2; [done|].
  destruct (decide (i < length all_segments)%nat) as [Hlt|Hge]; [|lia].
  exfalso. apply Hnin. apply elem_of_seq. lia.
Qed.

Lemma diarizer_merge_segments_eq diarization all_segments :
  diarizer_merge_segments diarization all_segments
  = merge_segments (dr_segments diarization) all_segments.
Proof. done. Qed.

(** ** Claims on the speaker alignment *)

(** C1 (as amended).  With a non-empty diarization list: for a
    transcript segment that overlaps some diarization segment for a
    positive duration, both merge functions store the speaker label of
    the first diarization segment, in list order, whose overlap
    [max(0, min(s.end, d.end) - max(s.start, d.start))] -- computed in
    floating point, as the code computes it -- is largest; for a
    segment that no diarization segment overlaps they store the
    sentinel ["unknown"]. *)
Theorem merge_assigns_first_max_overlap
    (diarization : DiarizationResult) (refs : list nat) (h : heap)
    (r : nat) (s : Segment) :
  r ∈ refs ->
  h !! r = Some s ->
  dr_segments diarization <> [] ->
  let stored label :=
    ms_heap (merge_with_transcription diarization refs h).2 !! r
      = Some (setattr_speaker label s) /\
    ms_heap (merge_diarization_with_transcription (dr_segments diarization) refs h).2 !! r
      = Some (setattr_speaker label s) in
  (Exists (fun d => flt 0 (overlap (seg_start s) (seg_end s) d))
          (dr_segments diarization) ->
   exists d,
     first_max_overlap (seg_start s) (seg_end s) (dr_segments diarization) d /\
     stored (spk_speaker d)) /\
  (Forall (fun d => overlap (seg_start s) (seg_end s) d = 0)
          (dr_segments diarization) ->
   stored "unknown") /\
  (Exists (fun d => flt 0 (overlap (seg_start s) (seg_end s) d))
          (dr_segments diarization) \/
   Forall (fun d => overlap (seg_start s) (seg_end s) d = 0)
          (dr_segments diarization)).
Proof.
  intros Hr Hs Hne stored.
  assert (forall label,
            dominant_speaker (seg_start s) (seg_end s) (dr_segments diarization)
            = label -> stored label) as Hstored.
  { intros label Hdom. unfold stored.
    rewrite merge_with_transcription_eq.
    rewrite merge_heap_lookup by done.
    destruct (decide (r ∈ refs)); [|done].
    rewrite Hs. simpl. unfold assigned. by rewrite Hdom. }
  split; [|split].
  - intros Hex.
    destruct (dominant_speaker_first_max _ _ _ Hex) as (d & Hfirst & _ & Hdom).
    exists d. split; [done|]. by apply Hstored.
  - intros Hall. by apply Hstored, dominant_speaker_unknown.
  - apply overlap_positive_or_zero.
Qed.

(** The tie of the specification: transcript segment [2.0, 4.0] against
    [A = [1.0, 3.0]] and [B = [3.0, 5.0]] overlaps both for [1.0]; the
    earlier one wins. *)
Lemma merge_assigns_first_max_overlap_witness :
  let diarization :=
    {| dr_segments := [ {| spk_start := 1; spk_end := 3; spk_speaker := "A" |};
                        {| spk_start := 3; spk_end := 5; spk_speaker := "B" |} ];
       dr_num_speakers := 2 |} in
  let s := {| seg_id := 0; seg_start := 2; seg_end := 4; seg_text := "hello";
              seg_speaker := None |} in
  exists d,
    first_max_overlap 2 4 (dr_segments diarization) d /\
    ms_heap (merge_with_transcription diarization [0%nat] [s]).2 !! 0%nat
      = Some (setattr_speaker (spk_speaker d) s) /\
    ms_heap (merge_diarization_with_transcription (dr_segments diarization) [0%nat] [s]).2
      !! 0%nat
      = Some (setattr_speaker (spk_speaker d) s).
Proof.
  intros diarization s.
  apply (merge_assigns_first_max_overlap diarization [0%nat] [s] 0%nat s).
  - apply list_elem_of_here.
  - reflexivity.
  - discriminate.
  - apply Exists_cons_hd. reflexivity.
Defined.

Example merge_tie_prefers_earlier :
  let diar := [ {| spk_start := 1; spk_end := 3; spk_speaker := "A" |};
                {| spk_start := 3; spk_end := 5; spk_speaker := "B" |} ] in
  overlap 2 4 {| spk_start := 1; spk_end := 3; spk_speaker := "A" |} = 1 /\
  overlap 2 4 {| spk_start := 3; spk_end := 5; spk_speaker := "B" |} = 1 /\
  dominant_speaker 2 4 diar = "A".
Proof. vm_compute. done. Qed.

(** Rounding takes part in the selection: against the transcript
    segment [[2^-60, 3]], the turn [A = [0, 1]] overlaps for
    [1 - 2^-60], which rounds to [1], and the later turn [B = [2, 3]]
    for [1]; the two computed durations tie and the earlier turn wins,
    although the exact overlap of [B] is the larger one. *)
Example merge_tie_after_rounding :
  let diar := [ {| spk_start := 0; spk_end := 1; spk_speaker := "A" |};
                {| spk_start := 2; spk_end := 3; spk_speaker := "B" |} ] in
  overlap 0x1p-60 3 {| spk_start := 0; spk_end := 1; spk_speaker := "A" |} = 1 /\
  overlap 0x1p-60 3 {| spk_start := 2; spk_end := 3; spk_speaker := "B" |} = 1 /\
  dominant_speaker 0x1p-60 3 diar = "A".
Proof. vm_compute. done. Qed.

(** C1 (as stated) fails where nothing overlaps: the only diarization
    segment is then the first one of largest overlap (namely 0), yet the
    label stored is the sentinel, not that segment's speaker. *)
Lemma merge_zero_overlap_not_first_max :
  let d := {| spk_start := 0; spk_end := 5; spk_speaker := "A" |} in
  let s := {| seg_id := 0; seg_start := 10; seg_end := 11; seg_text := "hello";
              seg_speaker := None |} in
  [d] <> [] /\
  first_max_overlap (seg_start s) (seg_end s) [d] d /\
  ms_heap (merge_diarization_with_transcription [d] [0%nat] [s]).2 !! 0%nat
    = Some (setattr_speaker "unknown" s) /\
  ms_heap (merge_diarization_with_transcription [d] [0%nat] [s]).2 !! 0%nat
    <> Some (setattr_speaker (spk_speaker d) s).
Proof.
  intros d s. split; [done|]. split.
  - exists [], []. split; [done|]. split; constructor.
  - split; [reflexivity|]. vm_compute. discriminate.
Qed.

(** C5.  With an empty diarization list the merge returns the sequence
    and the store as they were and executes no [setattr]; with a
    non-empty list it writes the speaker of every segment of the
    sequence, and a segment whose overlap with every diarization segment
    is 0 receives exactly ["unknown"]. *)
Theorem merge_writes_speaker_iff_diarization
    (diarization : DiarizationResult) (refs : list nat) (h : heap) :
  let out := merge_diarization_with_transcription (dr_segments diarization) refs h in
  merge_with_transcription diarization refs h = out /\
  (dr_segments diarization = [] ->
     out = (refs, {| ms_heap := h; ms_writes := [] |})) /\
  (dr_segments diarization <> [] ->
     (ms_writes out.2).*1 = live h refs /\
     forall r s, r ∈ refs -> h !! r = Some s ->
       (exists label, ms_heap out.2 !! r = Some (setattr_speaker label s)) /\
       (Forall (fun d => overlap (seg_start s) (seg_end s) d = 0)
               (dr_segments diarization) ->
        ms_heap out.2 !! r = Some (setattr_speaker "unknown" s))).
Proof.
  intros out. split; [done|]. split.
  - intros E. unfold out. by rewrite E.
  - intros Hne. split; [by apply merge_writes|].
    intros r s Hr Hs. unfold out. rewrite merge_heap_lookup by done.
    destruct (decide (r ∈ refs)); [|done]. rewrite Hs. simpl. split.
    + by eexists.
    + intros Hall. unfold assigned. by rewrite dominant_speaker_unknown.
Qed.

(** Transcript segment [10.0, 11.0] against a diarization that only
    covers [0, 5]; and the same segment against no diarization. *)
Lemma merge_writes_speaker_iff_diarization_witness :
  let d := {| spk_start := 0; spk_end := 5; spk_speaker := "1" |} in
  let s := {| seg_id := 0; seg_start := 10; seg_end := 11; seg_text := "hello";
              seg_speaker := None |} in
  merge_diarization_with_transcription [] [0%nat] [s]
    = ([0%nat], {| ms_heap := [s]; ms_writes := [] |}) /\
  ms_heap (merge_diarization_with_transcription [d] [0%nat] [s]).2 !! 0%nat
    = Some (setattr_speaker "unknown" s).
Proof.
  intros d s. split.
  - apply (merge_writes_speaker_iff_diarization
             {| dr_segments := []; dr_num_speakers := 0 |} [0%nat] [s]).
    reflexivity.
  - apply (merge_writes_speaker_iff_diarization
             {| dr_segments := [d]; dr_num_speakers := 1 |} [0%nat] [s]).
    + discriminate.
    + apply list_elem_of_here.
    + reflexivity.
    + repeat constructor.
Defined.

Lemma merge_frame_lookup diar refs h r s :
  h !! r = Some s ->
  exists s',
    ms_heap (merge_diarization_with_transcription diar refs h).2 !! r = Some s' /\
    frame s' = frame s.
Proof.
  intros Hs. destruct diar as [|d diar].
  - exists s. by simpl.
  - rewrite merge_heap_lookup by done.
    destruct (decide (r ∈ refs)); rewrite Hs; simpl; eauto.
Qed.

Lemma merge_untouched diar refs h r :
  r ∉ refs ->
  ms_heap (merge_diarization_with_transcription diar refs h).2 !! r = h !! r.
Proof.
  intros Hr. destruct diar as [|d diar]; [done|].
  rewrite merge_heap_lookup by done. by destruct (decide (r ∈ refs)).
Qed.

Lemma merge_writes_at_most_once diar refs h r :
  NoDup refs ->
  (writes_to r (ms_writes (merge_diarization_with_transcription diar refs h).2) <= 1)%nat.
Proof.
  intros Hnd. destruct diar as [|d diar]; [simpl; unfold writes_to; simpl; lia|].
  rewrite writes_to_count, merge_writes by done.
  apply NoDup_filter_eq_length. by apply live_NoDup.
Qed.

Lemma correct_timestamps_speaker chunk_duration i chunk_segments :
  map seg_speaker (correct_timestamps chunk_duration i chunk_segments)
  = map seg_speaker chunk_segments.
Proof.
  unfold correct_timestamps. destruct (0 <? i)%nat; [|done].
  rewrite map_map. done.
Qed.

(** C9.  The merge returns the sequence of references it was given
    (same length, same order); the store keeps its size; every segment
    keeps its [id], [start], [end] and [text]; segments outside the
    sequence are untouched; when the sequence lists pairwise distinct
    segments, each segment's [speaker] is written at most once.  The
    only other mutation of segments, the timestamp shift of the chunk
    loop, does not write [speaker]. *)
Theorem merge_frame
    (diarization : DiarizationResult) (refs : list nat) (h : heap) :
  let out := merge_diarization_with_transcription (dr_segments diarization) refs h in
  merge_with_transcription diarization refs h = out /\
  out.1 = refs /\
  length (ms_heap out.2) = length h /\
  (forall r s, h !! r = Some s ->
     exists s', ms_heap out.2 !! r = Some s' /\
                seg_id s' = seg_id s /\ seg_start s' = seg_start s /\
                seg_end s' = seg_end s /\ seg_text s' = seg_text s) /\
  (forall r, r ∉ refs -> ms_heap out.2 !! r = h !! r) /\
  (ms_writes out.2 = [] \/ (ms_writes out.2).*1 = live h refs) /\
  (NoDup refs -> forall r, (writes_to r (ms_writes out.2) <= 1)%nat) /\
  (forall offset s, seg_speaker (shift_segment offset s) = seg_speaker s).
Proof.
  intros out. split; [done|]. split.
  { unfold out, merge_diarization_with_transcription.
    by destruct (dr_segments diarization). }
  split.
  { unfold out, merge_diarization_with_transcription.
    destruct (dr_segments diarization); [done|]. simpl snd.
    by rewrite merge_fold_length. }
  split.
  { intros r s Hs.
    destruct (merge_frame_lookup (dr_segments diarization) refs h r s Hs)
      as (s' & Hs' & Hf).
    exists s'. split; [done|]. unfold frame in Hf. by injection Hf. }
  split; [intros r; apply merge_untouched|].
  split.
  { destruct (dr_segments diarization) as [|d ds] eqn:E; [by left|].
    right. by apply merge_writes. }
  split; [intros Hnd r; by apply merge_writes_at_most_once | done].
Qed.

(** Two distinct segments, one overlapping the single speaker turn. *)
Lemma merge_frame_witness :
  let diarization :=
    {| dr_segments := [ {| spk_start := 0; spk_end := 5; spk_speaker := "1" |} ];
       dr_num_speakers := 1 |} in
  let h := [ {| seg_id := 0; seg_start := 1; seg_end := 2; seg_text := "a";
                seg_speaker := None |};
             {| seg_id := 1; seg_start := 7; seg_end := 8; seg_text := "b";
                seg_speaker := None |} ] in
  let out :=
    merge_diarization_with_transcription (dr_segments diarization)
      [0%nat; 1%nat] h in
  (writes_to 0 (ms_writes out.2) <= 1)%nat /\
  (writes_to 1 (ms_writes out.2) <= 1)%nat.
Proof.
  intros diarization h out.
  assert (NoDup [0%nat; 1%nat]) as Hnd.
  { apply NoDup_cons. split; [|apply NoDup_singleton].
    intros Hin. apply list_elem_of_singleton in Hin. discriminate. }
  split; apply (merge_frame diarization [0%nat; 1%nat] h); exact Hnd.
Defined.

(** ** The chunk loop *)

Lemma bind_Returns {A B} (c : M A) (k : A -> M B) t a t' :
  c t = (Returns a, t') -> (c ≫= k) t = k a t'.
Proof. intros H. unfold mbind, M_bind, bind. by rewrite H. Qed.

Lemma bind_Raises {A B} (c : M A) (k : A -> M B) t e t' :
  c t = (Raises e, t') -> (c ≫= k) t = (Raises e, t').
Proof. intros H. unfold mbind, M_bind, bind. by rewrite H. Qed.

Lemma correct_timestamps_spec chunk_duration i segs :
  correct_timestamps chunk_duration i segs =
  match i with
  | O => segs
  | S _ =>
      map (fun s =>
             {| seg_id := seg_id s;
                seg_start := seg_start s + float_of_Z (Z.of_nat i) * chunk_duration;
                seg_end := seg_end s + float_of_Z (Z.of_nat i) * chunk_duration;
                seg_text := seg_text s;
                seg_speaker := seg_speaker s |}) segs
  end.
Proof. by destruct i. Qed.

Lemma process_chunks_returns w language word_timestamps i audio_chunks outs
    all_text all_segments t :
  Forall2 (fun chunk_path out =>
             transcribe_audio_chunk w chunk_path language word_timestamps
             = Returns out) audio_chunks outs ->
  process_chunks w language word_timestamps i audio_chunks all_text all_segments t =
  (Returns (all_text ++ outs.*1,
            all_segments ++
            concat (imap (fun k segs =>
                            correct_timestamps (chunk_duration w) (i + k) segs)
                         outs.*2)),
   t ++ imap (fun k chunk_path => EvTranscribe (i + k) chunk_path) audio_chunks).
Proof.
  intros Hall. revert i all_text all_segments t.
  induction Hall as [|chunk_path [chunk_text chunk_segments] rest outs Hc Hrest IH];
    intros i all_text all_segments t.
  - simpl. unfold ret. by rewrite !app_nil_r.
  - cbn [process_chunks].
    erewrite bind_Returns; [|unfold call; by rewrite Hc].
    cbv beta iota. rewrite IH.
    rewrite !fmap_cons, !imap_cons, concat_cons. cbn [fst snd].
    rewrite (imap_ext (_ ∘ S)
               (fun k segs => correct_timestamps (chunk_duration w) (S i + k) segs))
      by (intros; simpl; by rewrite Nat.add_succ_r).
    rewrite (imap_ext (_ ∘ S) (fun k c => EvTranscribe (S i + k) c))
      by (intros; simpl; by rewrite Nat.add_succ_r).
    by rewrite Nat.add_0_r, <- !app_assoc.
Qed.

(** C2.  When the ASR collaborator returns for every chunk, the chunk
    loop returns the chunk texts in order and, as accumulated segments,
    the chunk outputs in order where the segments of chunk [i > 0] have
    [i * chunk_duration] added to [start] and [end] and those of chunk 0
    are unshifted; it calls the collaborator once per chunk, in index
    order. *)
Theorem process_chunks_global_timestamps
    (w : Collaborators) (language : option string) (word_timestamps : bool)
    (audio_chunks : list string) (outs : list (string * list Segment))
    (t : list event) :
  Forall2 (fun chunk_path out =>
             transcribe_audio_chunk w chunk_path language word_timestamps
             = Returns out) audio_chunks outs ->
  process_chunks w language word_timestamps 0 audio_chunks [] [] t =
  (Returns (outs.*1, spec_global_segments (chunk_duration w) outs.*2),
   t ++ imap EvTranscribe audio_chunks).
Proof.
  intros Hall. rewrite (process_chunks_returns _ _ _ _ _ outs) by done.
  unfold spec_global_segments. cbn [app].
  rewrite (imap_ext (fun k chunk_path => EvTranscribe (0 + k) chunk_path) EvTranscribe)
    by done.
  do 4 f_equal.
  apply imap_ext. intros k segs _. apply correct_timestamps_spec.
Qed.

(** The end-to-end scenario: local [5, 10] in each of three chunks of
    60 s becomes [5, 10], [65, 70], [125, 130]. *)
Lemma process_chunks_global_timestamps_witness :
  process_chunks scenario None false 0
    ["chunk_0.wav"; "chunk_1.wav"; "chunk_2.wav"] [] [] [] =
  (Returns
     (["hello world"; "hello world"; "hello world"],
      [ {| seg_id := 0; seg_start := 5; seg_end := 10;
           seg_text := "hello world"; seg_speaker := None |};
        {| seg_id := 0; seg_start := 65; seg_end := 70;
           seg_text := "hello world"; seg_speaker := None |};
        {| seg_id := 0; seg_start := 125; seg_end := 130;
           seg_text := "hello world"; seg_speaker := None |} ]),
   [EvTranscribe 0 "chunk_0.wav"; EvTranscribe 1 "chunk_1.wav";
    EvTranscribe 2 "chunk_2.wav"]).
Proof.
  apply (process_chunks_global_timestamps scenario None false
           ["chunk_0.wav"; "chunk_1.wav"; "chunk_2.wav"]
           [("hello world", [local_segment]); ("hello world", [local_segment]);
            ("hello world", [local_segment])] []).
  repeat constructor.
Defined.


(** The shift is a floating-point addition, so it rounds.  With
    [chunk_duration = 60], the segment [[0.1, 0.4]] of chunk 1 becomes
    [[60.1, 60.4]], whose computed duration is smaller than the
    computed duration of the local segment.  With
    [chunk_duration = 10.1], a segment of chunk 5 that ends at the
    chunk's end is moved behind the start of a segment that begins
    chunk 6. *)
Example shift_rounds :
  let seg a b := {| seg_id := 0; seg_start := a; seg_end := b;
                    seg_text := ""; seg_speaker := None |} in
  let duration s := seg_end s - seg_start s in
  let tenth := 0x1.999999999999ap-4 in
  let four_tenths := 0x1.999999999999ap-2 in
  let ten_one := 0x1.4333333333333p+3 in
  (forall s, s ∈ correct_timestamps 60 1 [seg tenth four_tenths] ->
     flt (duration s) (duration (seg tenth four_tenths))) /\
  (forall s s',
     s ∈ correct_timestamps ten_one 5 [seg 0 ten_one] ->
     s' ∈ correct_timestamps ten_one 6 [seg 0 ten_one] ->
     flt (seg_start s') (seg_end s)).
Proof.
  intros seg duration tenth four_tenths ten_one. split.
  - intros s Hs. apply list_elem_of_singleton in Hs as ->. reflexivity.
  - intros s s' Hs Hs'.
    apply list_elem_of_singleton in Hs as ->.
    apply list_elem_of_singleton in Hs' as ->. reflexivity.
Qed.
(** ** Python helpers on examples *)

(** A no-break space (U+00A0, encoded as the bytes 194 160) and an
    ideographic space (U+3000, bytes 227 128 128) separate words; the
    byte 160 inside the encoding of another character (here U+00E0,
    bytes 195 160) does not. *)
Example word_count_examples :
  word_count "hello world" = 2%nat /\
  word_count "  two   words  " = 2%nat /\
  word_count "" = 0%nat /\
  word_count ("a" +:+ String "194" (String "160" "b c")) = 3%nat /\
  word_count ("a" +:+ String "227" (String "128" (String "128" "b"))) = 2%nat /\
  word_count ("a" +:+ String "195" (String "160" "b c")) = 2%nat.
Proof. vm_compute. done. Qed.

Example is_substring_examples :
  is_substring "error" "an error occurred" = true /\
  is_substring "error" "fine" = false /\
  is_substring "error" "" = false.
Proof. done. Qed.

Example join_example : join " " ["a"; "b"; "c"] = "a b c" /\ join " " [] = "".
Proof. done. Qed.

(** ** Running the handlers *)

Ltac run_monad :=
  unfold mbind, M_bind, bind, call, run, ret, raise, try_except in *.

Ltac split_outcomes :=
  repeat (simpl in *;
    match goal with
    | |- context [match ?o with Returns _ => _ | Raises _ => _ end] =>
        destruct o eqn:?
    | |- context [match ?p with (_, _) => _ end] => destruct p eqn:?
    | |- context [match ?s with inl _ => _ | inr _ => _ end] => destruct s eqn:?
    | |- context [if ?b then _ else _] => destruct b eqn:?
    | H : context [if ?b then _ else _] |- _ => destruct b eqn:?
    | H : context [match ?o with Returns _ => _ | Raises _ => _ end] |- _ =>
        destruct o eqn:?
    | H : (_, _) = (_, _) |- _ => injection H as ? ?; subst
    end).

Lemma handler_pipeline_early w job_input audio_input t early t' :
  handler_pipeline w job_input audio_input t = (Returns (inl early), t') ->
  early = [("error", JStr "audio_format is required when using base64-encoded audio")].
Proof.
  unfold handler_pipeline. run_monad.
  split_outcomes; intros; simplify_eq; done.
Qed.

(** The serverless handler always returns: an error dict, or what the
    formatting step makes of the transcript. *)
Lemma handler_cases w job_input t :
  exists result t',
    handler w job_input t = (Returns result, t') /\
    ((exists msg, result = [("error", JStr msg)]) \/
     (exists full_text all_segments t1,
        handler_pipeline w job_input (default "" (ji_audio job_input)) t
        = (Returns (inr (full_text, all_segments)), t1) /\
        format_response w job_input full_text all_segments t1
        = (Returns result, t'))).
Proof.
  unfold handler.
  destruct (negb (str_truthy (ji_audio job_input))).
  { eexists _, _. split; [done|]. left. by eexists. }
  destruct (negb (format_is_valid (ji_response_format job_input))).
  { eexists _, _. split; [done|]. left. by eexists. }
  unfold try_except, handler_body.
  destruct (handler_pipeline w job_input (default "" (ji_audio job_input)) t)
    as [[[early|[full_text all_segments]]|e] t1] eqn:Hp.
  - erewrite bind_Returns by exact Hp. simpl.
    apply handler_pipeline_early in Hp as ->.
    eexists _, _. split; [done|]. left. by eexists.
  - erewrite bind_Returns by exact Hp. simpl.
    destruct (format_response w job_input full_text all_segments t1)
      as [[result|e] t'] eqn:Hf.
    + eexists _, _. split; [done|]. right. eauto.
    + eexists _, _. split; [done|]. left. by eexists.
  - erewrite bind_Raises by exact Hp.
    eexists _, _. split; [done|]. left. by eexists.
Qed.

Lemma format_response_json w job_input full_text all_segments t :
  ji_response_format job_input = "json" ->
  format_response w job_input full_text all_segments t =
  (Returns
     (if ji_timestamps job_input || has_diarization job_input
      then [("text", JStr full_text);
            ("segments", JList (map segment_json all_segments))]
      else [("text", JStr full_text)]),
   t).
Proof.
  intros E. unfold format_response. rewrite E. simpl.
  by destruct (ji_timestamps job_input || has_diarization job_input).
Qed.

Lemma format_response_verbose_json w job_input full_text all_segments t :
  ji_response_format job_input = "verbose_json" ->
  format_response w job_input full_text all_segments t =
  (Returns
     [("text", JStr full_text);
      ("language", opt_str (ji_language job_input));
      ("duration", sum_durations w all_segments);
      ("model", JStr "parakeet-tdt-0.6b-v2");
      ("segments", JList (map segment_json all_segments))],
   t).
Proof. intros E. unfold format_response. by rewrite E. Qed.

(** A response of the API comes from the rendering step. *)
Lemma transcribe_audio_returns_inv http_str w request t b t' :
  transcribe_audio http_str true w request t = (Returns b, t') ->
  exists full_text all_segments t1,
    transcribe_audio_pipeline w request t = (Returns (full_text, all_segments), t1) /\
    render_response w request (make_response request full_text all_segments)
                    full_text all_segments t1 = (Returns b, t').
Proof.
  unfold transcribe_audio, try_except, transcribe_audio_body. simpl.
  destruct (transcribe_audio_pipeline w request t)
    as [[[full_text all_segments]|e] t1] eqn:Hp.
  - erewrite bind_Returns by exact Hp. cbv beta iota.
    destruct (render_response _ _ _ _ _ _) as [[b'|e] t2] eqn:Hr; [|done].
    intros [= <- <-]. eauto.
  - erewrite bind_Raises by exact Hp. done.
Qed.

Lemma render_response_json_formats w request response full_text all_segments t :
  rq_response_format request = "json" \/
  rq_response_format request = "verbose_json" ->
  render_response w request response full_text all_segments t
  = (Returns (JsonBody response), t).
Proof. intros [E|E]; unfold render_response; by rewrite E. Qed.


(** What the generator expression and [sum] come to: the integer 0
    without segments, otherwise the float that [sum] makes of the
    differences [end - start], in the order of the segments. *)
Lemma sum_durations_spec w l :
  sum_durations w l =
  match l with
  | [] => JInt 0
  | _ :: _ => JFloat (spec_total_duration (float_sum w) l)
  end.
Proof. by destruct l. Qed.

(** ** Claims on the response formats *)

(** C6 (as amended).  For [response_format = "json"]: the serverless
    handler returns an error dict or a dict that contains ["segments"]
    if and only if timestamps were requested or a non-empty list of
    diarization segments was supplied, and that consists of the text
    only when neither holds; the API's body has its [segments] filled
    if and only if timestamps were requested, next to its [text],
    [language], [duration] and [model]. *)
Theorem json_segments_inclusion
    (http_str : nat -> string -> string) (w : Collaborators) :
  (forall job_input t,
     ji_response_format job_input = "json" ->
     exists result t',
       handler w job_input t = (Returns result, t') /\
       ((exists msg, result = [("error", JStr msg)]) \/
        (exists full_text all_segments,
           dict_has "segments" result
             = ji_timestamps job_input || has_diarization job_input /\
           result =
             if ji_timestamps job_input || has_diarization job_input
             then [("text", JStr full_text);
                   ("segments", JList (map segment_json all_segments))]
             else [("text", JStr full_text)]))) /\
  (forall request t b t',
     rq_response_format request = "json" ->
     transcribe_audio http_str true w request t = (Returns b, t') ->
     exists full_text all_segments,
       b = JsonBody
             {| tr_text := full_text;
                tr_segments :=
                  if rq_timestamps request then Some all_segments else None;
                tr_language := rq_language request;
                tr_duration := estimated_duration all_segments;
                tr_model := "parakeet-tdt-0.6b-v2" |}).
Proof.
  split.
  - intros job_input t E.
    destruct (handler_cases w job_input t)
      as (result & t' & Hh & [Herr | (full_text & all_segments & t1 & _ & Hf)]).
    + exists result, t'. split; [done|]. by left.
    + exists result, t'. split; [done|]. right.
      rewrite format_response_json in Hf by done.
      injection Hf as <- <-. exists full_text, all_segments.
      by destruct (ji_timestamps job_input || has_diarization job_input).
  - intros request t b t' E Hr.
    apply transcribe_audio_returns_inv in Hr
      as (full_text & all_segments & t1 & _ & Hr).
    rewrite render_response_json_formats in Hr by auto.
    injection Hr as <- <-. exists full_text, all_segments.
    unfold make_response. rewrite E. simpl. by rewrite orb_false_r.
Qed.

(** A json job without timestamps and without diarization segments:
    the response is the text alone. *)
Lemma json_segments_inclusion_witness :
  exists result t',
    handler scenario (scenario_job "json" false None) []
    = (Returns result, t') /\
    ((exists msg, result = [("error", JStr msg)]) \/
     (exists (full_text : string) (all_segments : list Segment),
        dict_has "segments" result = false /\
        result = [("text", JStr full_text)])).
Proof.
  apply (proj1 (json_segments_inclusion scenario_http_str scenario)
               (scenario_job "json" false None) []).
  reflexivity.
Defined.

Example handler_json_text_only :
  handler scenario (scenario_job "json" false None) [] =
  (Returns [("text", JStr "hello world hello world hello world")],
   [EvMkdtemp; EvDownload "https://example.com/audio.mp3";
    EvConvertToWav "/tmp/runpod_transcription_0/input_audio";
    EvSplit "/tmp/audio.wav";
    EvTranscribe 0 "chunk_0.wav"; EvTranscribe 1 "chunk_1.wav";
    EvTranscribe 2 "chunk_2.wav"]).
Proof. vm_compute. reflexivity. Qed.

(** C6 (as stated) fails in the serverless handler: a json job that
    did not request timestamps but carries diarization segments gets
    its segments back. *)
Lemma json_segments_without_timestamps :
  let d := {| spk_start := 0; spk_end := 100; spk_speaker := "1" |} in
  let job_input := scenario_job "json" false (Some [d]) in
  ji_response_format job_input = "json" /\
  ji_timestamps job_input = false /\
  exists result t',
    handler scenario job_input [] = (Returns result, t') /\
    dict_has "segments" result = true /\
    result <> [("text", JStr "hello world hello world hello world")].
Proof.
  intros d job_input. split; [done|]. split; [done|].
  eexists _, _. split; [vm_compute; reflexivity|].
  split; [reflexivity | discriminate].
Qed.

(** C7 (as amended).  In the serverless handler the [verbose_json]
    response carries as [duration] the sum -- the built-in [sum] -- of
    the durations [end - start] of the segments that the pipeline
    produced, in their order (the integer 0 without segments), and the
    [json] response carries no [duration]; in the API the [duration] of the
    [json] and [verbose_json] bodies is always the word-count estimate
    over the segments that the pipeline produced -- their total word
    count divided by 150, and 0 when there are no segments -- whether
    or not the segments, with their start and end, are part of the
    body. *)
Theorem response_duration
    (http_str : nat -> string -> string) (w : Collaborators) :
  (forall job_input t,
     ji_response_format job_input = "verbose_json" ->
     exists result t',
       handler w job_input t = (Returns result, t') /\
       ((exists msg, result = [("error", JStr msg)]) \/
        (exists full_text all_segments t1,
           handler_pipeline w job_input (default "" (ji_audio job_input)) t
           = (Returns (inr (full_text, all_segments)), t1) /\
           result =
             [("text", JStr full_text);
              ("language", opt_str (ji_language job_input));
              ("duration",
               match all_segments with
               | [] => JInt 0
               | _ :: _ =>
                   JFloat (spec_total_duration (float_sum w) all_segments)
               end);
              ("model", JStr "parakeet-tdt-0.6b-v2");
              ("segments", JList (map segment_json all_segments))]))) /\
  (forall job_input t,
     ji_response_format job_input = "json" ->
     exists result t',
       handler w job_input t = (Returns result, t') /\
       dict_has "duration" result = false) /\
  (forall request t b t',
     rq_response_format request = "json" \/
     rq_response_format request = "verbose_json" ->
     transcribe_audio http_str true w request t = (Returns b, t') ->
     exists full_text all_segments t1 r,
       transcribe_audio_pipeline w request t
       = (Returns (full_text, all_segments), t1) /\
       b = JsonBody r /\
       tr_text r = full_text /\
       tr_segments r =
         (if rq_timestamps request
             || String.eqb (rq_response_format request) "verbose_json"
          then Some all_segments else None) /\
       tr_duration r =
         match all_segments with
         | [] => 0
         | _ :: _ =>
             match total_words all_segments with
             | O => 0
             | S n => int_truediv (Pos.of_succ_nat n) 150
             end
         end).
Proof.
  split; [|split].
  - intros job_input t E.
    destruct (handler_cases w job_input t)
      as (result & t' & Hh & [Herr | (full_text & all_segments & t1 & Hp & Hf)]).
    + exists result, t'. split; [done|]. by left.
    + exists result, t'. split; [done|]. right.
      rewrite format_response_verbose_json in Hf by done.
      injection Hf as <- <-. exists full_text, all_segments, t1.
      split; [done|]. by rewrite sum_durations_spec.
  - intros job_input t E.
    destruct (handler_cases w job_input t)
      as (result & t' & Hh & [[msg ->] | (full_text & all_segments & t1 & _ & Hf)]).
    + by exists [("error", JStr msg)], t'.
    + exists result, t'. split; [done|].
      rewrite format_response_json in Hf by done.
      injection Hf as <- <-.
      by destruct (ji_timestamps job_input || has_diarization job_input).
  - intros request t b t' E Hr.
    apply transcribe_audio_returns_inv in Hr
      as (full_text & all_segments & t1 & Hp & Hr).
    rewrite render_response_json_formats in Hr by auto.
    injection Hr as <- <-.
    by exists full_text, all_segments, t1,
              (make_response request full_text all_segments).
Qed.

(** The scenario under [verbose_json] in the serverless handler: the
    duration is the float 5 + 5 + 5. *)
Lemma response_duration_witness :
  exists result t',
    handler scenario (scenario_job "verbose_json" false None) []
    = (Returns result, t') /\
    ((exists msg, result = [("error", JStr msg)]) \/
     (exists full_text all_segments t1,
        handler_pipeline scenario (scenario_job "verbose_json" false None)
          "https://example.com/audio.mp3" []
        = (Returns (inr (full_text, all_segments)), t1) /\
        result =
          [("text", JStr full_text);
           ("language", JNull);
           ("duration",
            match all_segments with
            | [] => JInt 0
            | _ :: _ =>
                JFloat (spec_total_duration (float_sum scenario) all_segments)
            end);
           ("model", JStr "parakeet-tdt-0.6b-v2");
           ("segments", JList (map segment_json all_segments))])).
Proof.
  apply (proj1 (response_duration scenario_http_str scenario)
               (scenario_job "verbose_json" false None) []).
  reflexivity.
Defined.

Example handler_verbose_json_scenario :
  handler scenario (scenario_job "verbose_json" false None) [] =
  (Returns
     [("text", JStr "hello world hello world hello world");
      ("language", JNull);
      ("duration", JFloat 15);
      ("model", JStr "parakeet-tdt-0.6b-v2");
      ("segments",
       JList [JDict [("id", JInt 0); ("start", JFloat 5); ("end", JFloat 10);
                     ("text", JStr "hello world"); ("speaker", JNull)];
              JDict [("id", JInt 0); ("start", JFloat 65); ("end", JFloat 70);
                     ("text", JStr "hello world"); ("speaker", JNull)];
              JDict [("id", JInt 0); ("start", JFloat 125); ("end", JFloat 130);
                     ("text", JStr "hello world"); ("speaker", JNull)]])],
   [EvMkdtemp; EvDownload "https://example.com/audio.mp3";
    EvConvertToWav "/tmp/runpod_transcription_0/input_audio";
    EvSplit "/tmp/audio.wav";
    EvTranscribe 0 "chunk_0.wav"; EvTranscribe 1 "chunk_1.wav";
    EvTranscribe 2 "chunk_2.wav"]).
Proof. vm_compute. reflexivity. Qed.

(** The sum is a floating-point sum: added from left to right, three
    segments of durations 2^53, 1 and 1 sum to 2^53, not to 2^53 + 2. *)
Example sum_durations_rounds :
  let seg a b := {| seg_id := 0; seg_start := a; seg_end := b;
                    seg_text := ""; seg_speaker := None |} in
  sum_durations scenario [seg 0 0x1p53; seg 0 1; seg 0 1] = JFloat 0x1p53 /\
  sum_durations scenario [seg 0 1; seg 0 1; seg 0 0x1p53]
  = JFloat 9007199254740994.
Proof. vm_compute. done. Qed.

(** C7 (as stated) fails in the API: the [verbose_json] body lists
    three segments of 5 s each, so their durations are available and
    sum to 15, yet [duration] is the estimate 6 / 150 = 0.04. *)
Lemma api_duration_is_word_estimate :
  exists r all_segments t',
    transcribe_audio scenario_http_str true scenario
      (scenario_request "verbose_json" false) []
    = (Returns (JsonBody r), t') /\
    tr_segments r = Some all_segments /\
    spec_total_duration sum_left all_segments = 15 /\
    tr_duration r = int_truediv 6 150 /\
    tr_duration r <> spec_total_duration sum_left all_segments.
Proof.
  eexists _, _, _. split; [vm_compute; reflexivity|].
  split; [reflexivity|]. split; [vm_compute; reflexivity|].
  split; [vm_compute; reflexivity|].
  vm_compute. intros H. apply (f_equal Prim2SF) in H. vm_compute in H.
  discriminate H.
Qed.

Lemma transcribe_audio_json_formats http_str w request t f :
  f = "json" \/ f = "verbose_json" ->
  transcribe_audio http_str true w (with_format f request) t =
  match transcribe_audio_pipeline w request t with
  | (Returns (full_text, all_segments), t1) =>
      (Returns (JsonBody (make_response (with_format f request)
                                        full_text all_segments)), t1)
  | (Raises e, t1) => (Raises (HTTPException 500 (str_exn http_str e)), t1)
  end.
Proof.
  intros Hf. unfold transcribe_audio, try_except, transcribe_audio_body. simpl.
  change (transcribe_audio_pipeline w (with_format f request))
    with (transcribe_audio_pipeline w request).
  destruct (transcribe_audio_pipeline w request t)
    as [[[full_text all_segments]|e] t1] eqn:Hp.
  - erewrite bind_Returns by exact Hp. cbv beta iota.
    by rewrite render_response_json_formats.
  - by erewrite bind_Raises by exact Hp.
Qed.

(** C10 (as amended).  In the API the [json] and the [verbose_json]
    run of a request perform the same collaborator calls and fail
    alike; when timestamps were requested their outcomes are identical;
    when they were not, the two bodies agree on [text], [language],
    [duration] and [model], and the [verbose_json] body carries the
    segments where the [json] body carries none. *)
Theorem api_json_and_verbose_json
    (http_str : nat -> string -> string) (w : Collaborators)
    (request : ApiRequest) (t : list event) :
  let as_json := transcribe_audio http_str true w (with_format "json" request) t in
  let as_verbose :=
    transcribe_audio http_str true w (with_format "verbose_json" request) t in
  as_json.2 = as_verbose.2 /\
  (forall e, as_json.1 = Raises e <-> as_verbose.1 = Raises e) /\
  (rq_timestamps request = true -> as_json = as_verbose) /\
  (rq_timestamps request = false ->
   forall b, as_verbose.1 = Returns b ->
     exists r all_segments,
       b = JsonBody r /\
       tr_segments r = Some all_segments /\
       as_json.1 =
         Returns (JsonBody {| tr_text := tr_text r;
                              tr_segments := None;
                              tr_language := tr_language r;
                              tr_duration := tr_duration r;
                              tr_model := tr_model r |})).
Proof.
  intros as_json as_verbose. unfold as_json, as_verbose.
  rewrite !transcribe_audio_json_formats by auto.
  destruct (transcribe_audio_pipeline w request t)
    as [[[full_text all_segments]|e] t1]; simpl.
  - split; [done|]. split; [done|]. split.
    + intros Hts. unfold make_response. simpl. by rewrite Hts.
    + intros Hts b [= <-].
      eexists _, all_segments. split; [done|].
      unfold make_response. simpl. rewrite Hts. simpl.
      split; done.
  - split; [done|]. split; [done|]. split; [done|]. done.
Qed.

(** The scenario with and without timestamps. *)
Lemma api_json_and_verbose_json_witness :
  transcribe_audio scenario_http_str true scenario (scenario_request "json" true) []
  = transcribe_audio scenario_http_str true scenario
      (scenario_request "verbose_json" true) [] /\
  (forall b,
     (transcribe_audio scenario_http_str true scenario
        (scenario_request "verbose_json" false) []).1 = Returns b ->
     exists r all_segments,
       b = JsonBody r /\
       tr_segments r = Some all_segments /\
       (transcribe_audio scenario_http_str true scenario
          (scenario_request "json" false) []).1 =
         Returns (JsonBody {| tr_text := tr_text r;
                              tr_segments := None;
                              tr_language := tr_language r;
                              tr_duration := tr_duration r;
                              tr_model := tr_model r |})).
Proof.
  split.
  - apply (api_json_and_verbose_json scenario_http_str scenario
             (scenario_request "json" true) []). reflexivity.
  - apply (api_json_and_verbose_json scenario_http_str scenario
             (scenario_request "json" false) []). reflexivity.
Defined.

(** C10 (as stated) fails when timestamps were not requested: the
    [json] body has no segments, the [verbose_json] body has three. *)
Lemma api_json_differs_from_verbose_json :
  exists rj rv t',
    transcribe_audio scenario_http_str true scenario
      (scenario_request "json" false) [] = (Returns (JsonBody rj), t') /\
    transcribe_audio scenario_http_str true scenario
      (scenario_request "verbose_json" false) [] = (Returns (JsonBody rv), t') /\
    tr_segments rj = None /\
    (exists s1 s2 s3, tr_segments rv = Some [s1; s2; s3]) /\
    rj <> rv.
Proof.
  eexists _, _, _. split; [vm_compute; reflexivity|].
  split; [vm_compute; reflexivity|]. split; [reflexivity|].
  split; [by eexists _, _, _ | discriminate].
Qed.
(** ** Claim on unsupported formats *)

(** The serverless handler rejects an unsupported format before any
    collaborator is called. *)
Lemma handler_invalid_format_immediate w job_input t :
  str_truthy (ji_audio job_input) = true ->
  format_is_valid (ji_response_format job_input) = false ->
  handler w job_input t =
  (Returns [("error",
             JStr "Invalid response_format. Must be one of: json, text, srt, vtt, verbose_json")],
   t).
Proof. intros Ha Hf. unfold handler. by rewrite Ha, Hf. Qed.

Lemma render_response_invalid w request response full_text all_segments t :
  format_is_valid (rq_response_format request) = false ->
  render_response w request response full_text all_segments t =
  (Raises (HTTPException 400
             ("Unsupported response format: " +:+ rq_response_format request)), t).
Proof.
  unfold format_is_valid, valid_formats, render_response. simpl.
  intros H. repeat (apply orb_false_elim in H as [-> H]). done.
Qed.

Lemma process_chunks_extends w language word_timestamps i audio_chunks
    all_text all_segments t o t' :
  process_chunks w language word_timestamps i audio_chunks all_text all_segments t
  = (o, t') ->
  exists t1, t' = t ++ t1.
Proof.
  revert i all_text all_segments t.
  induction audio_chunks as [|chunk_path rest IH];
    intros i all_text all_segments t; cbn [process_chunks].
  - intros [= <- <-]. exists []. by rewrite app_nil_r.
  - run_monad.
    destruct (transcribe_audio_chunk w chunk_path language word_timestamps)
      as [[chunk_text chunk_segments]|e].
    + intros H. apply IH in H as [t1 ->]. rewrite <- app_assoc. by eexists.
    + intros [= <- <-]. by eexists.
Qed.

Lemma transcribe_audio_pipeline_starts w request t o t' :
  transcribe_audio_pipeline w request t = (o, t') ->
  exists t1, t' = t ++ EvSaveUpload (rq_file_suffix request) :: t1.
Proof.
  unfold transcribe_audio_pipeline. run_monad.
  destruct (save_upload w) as [temp_file|e]; [|intros [= <- <-]; by eexists].
  destruct (convert_audio_to_wav w temp_file) as [wav_file|e];
    [|intros [= <- <-]; rewrite <- app_assoc; by eexists].
  destruct (split_audio_into_chunks w wav_file (chunk_duration w))
    as [audio_chunks|e];
    [|intros [= <- <-]; rewrite <- !app_assoc; by eexists].
  destruct (rq_diarize request && str_truthy (get_hf_token w)).
  - destruct (process_chunks _ _ _ _ _ _ _ _) as [[[? ?]|?] t2] eqn:Hpc;
      apply process_chunks_extends in Hpc as [t1 ->];
      intros [= <- <-]; rewrite <- !app_assoc; by eexists.
  - destruct (process_chunks _ _ _ _ _ _ _ _) as [[[? ?]|?] t2] eqn:Hpc;
      apply process_chunks_extends in Hpc as [t1 ->];
      intros [= <- <-]; rewrite <- !app_assoc; by eexists.
Qed.

(** The API never answers a request with an unsupported format by a
    response, never by a status other than 500, and not before the
    upload was stored. *)
Lemma transcribe_audio_invalid_format http_str w request t :
  format_is_valid (rq_response_format request) = false ->
  exists detail t1,
    transcribe_audio http_str true w request t
    = (Raises (HTTPException 500 detail),
       t ++ EvSaveUpload (rq_file_suffix request) :: t1).
Proof.
  intros Hf. unfold transcribe_audio, try_except, transcribe_audio_body. simpl.
  destruct (transcribe_audio_pipeline w request t)
    as [[[full_text all_segments]|e] t'] eqn:Hp;
    destruct (transcribe_audio_pipeline_starts _ _ _ _ _ Hp) as [t1 ->].
  - erewrite bind_Returns by exact Hp. cbv beta iota.
    rewrite render_response_invalid by done. by eexists _, _.
  - erewrite bind_Raises by exact Hp. by eexists _, _.
Qed.

(** C8.  The API, asked for [response_format = "xml"], stores the
    upload, converts and splits the audio and runs the ASR collaborator
    on every chunk; only then is the format rejected, and the status
    400 of that rejection is turned into 500 by the enclosing
    [except Exception]. *)
Theorem api_invalid_format_after_transcription :
  forall http_str,
    transcribe_audio http_str true scenario (scenario_request "xml" false) [] =
    (Raises (HTTPException 500 (http_str 400%nat "Unsupported response format: xml")),
     [EvSaveUpload ".mp3"; EvConvertToWav "/tmp/upload_00.mp3";
      EvSplit "/tmp/audio.wav";
      EvTranscribe 0 "chunk_0.wav"; EvTranscribe 1 "chunk_1.wav";
      EvTranscribe 2 "chunk_2.wav"]).
Proof. intros http_str. reflexivity. Qed.

(** ** Claims on the orchestrator *)

Lemma dict_has_lookup k d :
  dict_has k d = true -> exists v, dict_lookup k d = Some v.
Proof. unfold dict_has. destruct (dict_lookup k d); [eauto | done]. Qed.

Lemma endpoint_result_failure py r :
  diarization_failure r ->
  exists d, endpoint_result py r = JDict d /\ dict_has "error" d = true.
Proof.
  destruct 1 as [|msg|d Hd|d out Hd Ho He]; simpl.
  - by eexists.
  - by eexists.
  - rewrite Hd. destruct (dict_has_lookup _ _ Hd) as [v ->]. by eexists.
  - rewrite Hd. unfold dict_has at 1. rewrite Ho. by exists out.
Qed.

Lemma diarization_stage_failure py net DIARIZATION_ENDPOINT job_input t :
  truthy (dict_get "diarize" (JBool true) job_input) = true ->
  diarization_failure (net DIARIZATION_ENDPOINT (diar_payload job_input) 600%nat) ->
  diarization_stage py net DIARIZATION_ENDPOINT job_input t =
  (Returns JNull, t ++ [EvPost DIARIZATION_ENDPOINT (diar_payload job_input) 600]).
Proof.
  intros Hd Hfail. unfold diarization_stage, call_runpod_endpoint. rewrite Hd.
  destruct (endpoint_result_failure py _ Hfail) as (d & Hr & He).
  run_monad. rewrite Hr. simpl. rewrite He.
  by destruct (dict_has_lookup _ _ He) as [v ->].
Qed.

Lemma transcription_stage_result py net TRANSCRIPTION_ENDPOINT job_input
    diarization_result payload t :
  trans_payload py job_input diarization_result t = (Returns payload, t) ->
  forall tr, endpoint_result py (net TRANSCRIPTION_ENDPOINT payload 900%nat) = JDict tr ->
  transcription_stage py net TRANSCRIPTION_ENDPOINT job_input diarization_result t =
  (Returns match dict_lookup "error" tr with
           | Some err =>
               error_result (JStr ("Transcription failed: " +:+ py_format py err))
           | None => JDict tr
           end,
   t ++ [EvPost TRANSCRIPTION_ENDPOINT payload 900]).
Proof.
  intros Hp tr Hr. unfold transcription_stage.
  erewrite bind_Returns by exact Hp.
  unfold call_runpod_endpoint. run_monad. rewrite Hr. simpl.
  unfold dict_has. by destruct (dict_lookup "error" tr).
Qed.

(** C3.  When diarization is enabled and the diarization call fails by
    timeout, transport error or an error field, the orchestrator calls
    the diarization service, then the transcription service with a
    request that has no [diarization_segments], and returns; when the
    transcription service delivers a dict without ["error"], that dict
    is the job's result. *)
Theorem orchestrator_diarization_soft_fail
    (py : PyText) (net : network)
    (DIARIZATION_ENDPOINT TRANSCRIPTION_ENDPOINT : string)
    (job_input : dict) (t : list event) :
  truthy (dict_get "audio" JNull job_input) = true ->
  truthy (dict_get "diarize" (JBool true) job_input) = true ->
  diarization_failure (net DIARIZATION_ENDPOINT (diar_payload job_input) 600%nat) ->
  let payload := JDict [("input", JDict (trans_input job_input))] in
  dict_has "diarization_segments" (trans_input job_input) = false /\
  exists result,
    orchestrator_handler py net DIARIZATION_ENDPOINT TRANSCRIPTION_ENDPOINT
                         job_input t =
    (Returns result,
     t ++ [EvPost DIARIZATION_ENDPOINT (diar_payload job_input) 600;
           EvPost TRANSCRIPTION_ENDPOINT payload 900]) /\
    forall out,
      endpoint_result py (net TRANSCRIPTION_ENDPOINT payload 900%nat) = JDict out ->
      dict_has "error" out = false ->
      result = JDict out.
Proof.
  intros Ha Hd Hfail payload. split; [done|].
  unfold orchestrator_handler. rewrite Ha. simpl. unfold try_except.
  erewrite bind_Returns by (by apply diarization_stage_failure).
  unfold transcription_stage, trans_payload. simpl.
  unfold call_runpod_endpoint. run_monad. fold payload.
  rewrite <- app_assoc. simpl.
  destruct (py_in py "error" (endpoint_result py (net TRANSCRIPTION_ENDPOINT payload 900%nat)))
    as [[|]|e] eqn:Hin.
  - destruct (py_getitem py "error" _) as [err|e] eqn:Hg.
    + eexists. split; [done|]. intros out Ho He. rewrite Ho in Hin.
      simpl in Hin. congruence.
    + eexists. split; [done|]. intros out Ho He. rewrite Ho in Hin.
      simpl in Hin. congruence.
  - eexists. split; [done|]. by intros out -> _.
  - eexists. split; [done|]. intros out Ho He. by rewrite Ho in Hin.
Qed.

(** The diarization call times out, the transcription service answers:
    the job's result is the transcription output. *)
Lemma orchestrator_diarization_soft_fail_witness :
  exists result,
    orchestrator_handler scenario_py net_diarization_times_out diar_url trans_url
                         orchestrator_job [] =
    (Returns result,
     [EvPost diar_url (diar_payload orchestrator_job) 600;
      EvPost trans_url (JDict [("input", JDict (trans_input orchestrator_job))]) 900]) /\
    forall out,
      endpoint_result scenario_py
        (net_diarization_times_out trans_url
           (JDict [("input", JDict (trans_input orchestrator_job))]) 900%nat)
      = JDict out ->
      dict_has "error" out = false ->
      result = JDict out.
Proof.
  apply (orchestrator_diarization_soft_fail scenario_py net_diarization_times_out
           diar_url trans_url orchestrator_job []).
  - reflexivity.
  - reflexivity.
  - exact fail_timeout.
Defined.

Example orchestrator_timeout_scenario :
  orchestrator_handler scenario_py net_diarization_times_out diar_url trans_url
                       orchestrator_job [] =
  (Returns (JDict [("text", JStr "hello world")]),
   [EvPost diar_url (diar_payload orchestrator_job) 600;
    EvPost trans_url (JDict [("input", JDict (trans_input orchestrator_job))]) 900]).
Proof. vm_compute. reflexivity. Qed.

(** C4 (as amended).  Whenever the orchestrator reaches the
    transcription call and that call yields a dict with an ["error"]
    entry, the job's result is an error dict whose message is the text
    ["Transcription failed: "] followed by that error -- whatever the
    diarization stage delivered before. *)
Theorem orchestrator_transcription_hard_fail
    (py : PyText) (net : network)
    (DIARIZATION_ENDPOINT TRANSCRIPTION_ENDPOINT : string)
    (job_input : dict) (t t1 : list event)
    (diarization_result payload : json) (tr : dict) (err : json) :
  truthy (dict_get "audio" JNull job_input) = true ->
  diarization_stage py net DIARIZATION_ENDPOINT job_input t
    = (Returns diarization_result, t1) ->
  trans_payload py job_input diarization_result t1 = (Returns payload, t1) ->
  endpoint_result py (net TRANSCRIPTION_ENDPOINT payload 900%nat) = JDict tr ->
  dict_lookup "error" tr = Some err ->
  orchestrator_handler py net DIARIZATION_ENDPOINT TRANSCRIPTION_ENDPOINT
                       job_input t =
  (Returns (error_result (JStr ("Transcription failed: " +:+ py_format py err))),
   t1 ++ [EvPost TRANSCRIPTION_ENDPOINT payload 900]).
Proof.
  intros Ha Hd Hp Hr He.
  unfold orchestrator_handler. rewrite Ha. simpl. unfold try_except.
  erewrite bind_Returns by exact Hd.
  erewrite transcription_stage_result by eassumption.
  by rewrite He.
Qed.

(** Diarization succeeds and its segments are forwarded; the
    transcription service reports an error. *)
Lemma orchestrator_transcription_hard_fail_witness :
  let segments :=
    JList [JDict [("start", JFloat 0); ("end", JFloat 5); ("speaker", JStr "1")]] in
  let payload :=
    JDict [("input",
            JDict (dict_set "diarization_segments" segments
                            (trans_input orchestrator_job)))] in
  orchestrator_handler scenario_py net_transcription_fails diar_url trans_url
                       orchestrator_job [] =
  (Returns (error_result (JStr "Transcription failed: CUDA out of memory")),
   [EvPost diar_url (diar_payload orchestrator_job) 600] ++
   [EvPost trans_url payload 900]).
Proof.
  intros segments payload.
  apply (orchestrator_transcription_hard_fail scenario_py net_transcription_fails
           diar_url trans_url orchestrator_job []
           [EvPost diar_url (diar_payload orchestrator_job) 600]
           (JDict [("segments", segments); ("num_speakers", JInt 1);
                   ("duration", JFloat 5)])
           payload
           [("error", JStr "CUDA out of memory")]
           (JStr "CUDA out of memory")).
  - reflexivity.
  - reflexivity.
  - reflexivity.
  - reflexivity.
  - reflexivity.
Defined.

(** C4 (as stated) fails: the transcription service's error is
    ["CUDA out of memory"]; the caller receives it behind a prefix. *)
Lemma orchestrator_error_not_verbatim :
  let segments :=
    JList [JDict [("start", JFloat 0); ("end", JFloat 5); ("speaker", JStr "1")]] in
  let payload :=
    JDict [("input",
            JDict (dict_set "diarization_segments" segments
                            (trans_input orchestrator_job)))] in
  net_transcription_fails trans_url payload 900%nat
    = ResponseJson (error_result (JStr "CUDA out of memory")) /\
  orchestrator_handler scenario_py net_transcription_fails diar_url trans_url
                       orchestrator_job [] =
  (Returns (error_result (JStr "Transcription failed: CUDA out of memory")),
   [EvPost diar_url (diar_payload orchestrator_job) 600;
    EvPost trans_url payload 900]) /\
  error_result (JStr "Transcription failed: CUDA out of memory")
    <> error_result (JStr "CUDA out of memory").
Proof.
  intros segments payload. split; [reflexivity|].
  split; [vm_compute; reflexivity | discriminate].
Qed.

(* ================================================================== *)
(** * Further properties of the code *)

(** ** Speaker alignment *)

Lemma isnan_key x : isnan x <-> fkey x = None.
Proof.
  unfold isnan, fkey. rewrite FloatAxioms.eqb_spec. unfold SFeqb.
  destruct (Prim2SF x) as [[]|[]| |[] m e]; simpl; try (split; done).
  - by rewrite Z.compare_refl, Pos.compare_cont_refl.
  - by rewrite Z.compare_refl, Pos.compare_cont_refl.
Qed.

(** Decides statements on the order of floats: every comparison is
    turned into a comparison of positions. *)
Ltac float_order :=
  unfold flt in *;
  repeat match goal with
         | H : isnan _ |- _ => apply isnan_key in H
         | H : ~ isnan _ |- _ => rewrite isnan_key in H
         | H : (_ <? _) = true |- _ => apply ltb_key in H
         | H : (_ <? _) = false |- _ =>
             apply not_true_iff_false in H; rewrite ltb_key in H
         | H : ~ (_ <? _) = true |- _ => rewrite ltb_key in H
         | |- (_ <? _) = true => apply ltb_key
         | |- (_ <? _) = false => apply not_true_iff_false; rewrite ltb_key
         | |- ~ (_ <? _) = true => rewrite ltb_key
         | |- context [(?a <? ?b) = true] => rewrite (ltb_key a b)
         | H : context [(?a <? ?b) = true] |- _ => rewrite (ltb_key a b) in H
         end;
  unfold okey_lt, key_lt in *;
  repeat match goal with
         | |- context [fkey ?x] => destruct (fkey x) as [[[? ?] ?]|]
         | H : context [fkey ?x] |- _ => destruct (fkey x) as [[[? ?] ?]|]
         end;
  cbn [fst snd] in *; try done; try lia; try tauto.

Lemma overlap_positive start end_ d :
  flt 0 (overlap start end_ d) <->
  flt (pymax start (spk_start d)) (pymin end_ (spk_end d)).
Proof.
  unfold overlap, flt.
  rewrite <- (sub_pos_iff (pymax start (spk_start d)) (pymin end_ (spk_end d))).
  set (x := pymin end_ (spk_end d) - pymax start (spk_start d)).
  unfold pymax at 1. destruct (0 <? x) eqn:E; [done|].
  split; [|done]. intros H. by rewrite ltb_irrefl in H.
Qed.

(** The overlap is positive when both intervals are non-empty and
    properly intersect; intervals that merely touch do not overlap.
    Conversely a positive overlap needs a non-empty transcript
    interval, and proper intersection with the speaker turn unless one
    of the turn's bounds is a NaN, which [max] and [min] pass over. *)
Lemma overlap_pos_intro start end_ d :
  flt start end_ -> flt (spk_start d) (spk_end d) ->
  flt (spk_start d) end_ -> flt start (spk_end d) ->
  flt 0 (overlap start end_ d).
Proof.
  intros H1 H2 H3 H4. apply overlap_positive. unfold pymax, pymin.
  by destruct (start <? spk_start d), (spk_end d <? end_).
Qed.

Lemma overlap_pos_elim start end_ d :
  flt 0 (overlap start end_ d) ->
  flt start end_ /\
  (~ isnan (spk_start d) -> ~ isnan (spk_end d) ->
   flt (spk_start d) (spk_end d) /\
   flt (spk_start d) end_ /\ flt start (spk_end d)).
Proof.
  intros H. apply overlap_positive in H. unfold pymax, pymin in H.
  destruct (start <? spk_start d) eqn:E1, (spk_end d <? end_) eqn:E2;
    (split; [|intros N1 N2; repeat split]); float_order.
Qed.

Lemma dominant_speaker_origin start end_ diar :
  (dominant_speaker start end_ diar = "unknown" /\
   Forall (fun d => overlap start end_ d = 0) diar) \/
  (exists d, d ∈ diar /\ flt 0 (overlap start end_ d) /\
             dominant_speaker start end_ diar = spk_speaker d).
Proof.
  destruct (overlap_positive_or_zero start end_ diar) as [Hex|Hall].
  - right. destruct (dominant_speaker_first_max _ _ _ Hex)
      as (d & (pre & post & -> & _) & Hpos & Hdom).
    exists d. split; [|done]. apply elem_of_app. right. left.
  - left. split; [by apply dominant_speaker_unknown | done].
Qed.

(** X1.  With a non-empty diarization list the merge overwrites the
    speaker of every segment of the sequence, whatever it was before,
    and never invents a label: the new speaker is ["unknown"] when no
    diarization segment properly intersects the segment, and otherwise
    the speaker of a diarization segment with a positive overlap --
    one that properly intersects the (non-empty) segment, unless one
    of its bounds is a NaN. *)
Theorem merge_labels_come_from_diarization
    (diar : list SpeakerSegment) (refs : list nat) (h : heap)
    (r : nat) (s : Segment) :
  diar <> [] ->
  r ∈ refs ->
  h !! r = Some s ->
  exists label,
    ms_heap (merge_diarization_with_transcription diar refs h).2 !! r
      = Some (setattr_speaker label s) /\
    ((label = "unknown" /\
      Forall (fun d => ~ (flt (seg_start s) (seg_end s) /\
                          flt (spk_start d) (spk_end d) /\
                          flt (spk_start d) (seg_end s) /\
                          flt (seg_start s) (spk_end d))) diar) \/
     (exists d, d ∈ diar /\ label = spk_speaker d /\
                flt 0 (overlap (seg_start s) (seg_end s) d) /\
                flt (seg_start s) (seg_end s) /\
                (~ isnan (spk_start d) -> ~ isnan (spk_end d) ->
                 flt (spk_start d) (spk_end d) /\
                 flt (spk_start d) (seg_end s) /\
                 flt (seg_start s) (spk_end d)))).
Proof.
  intros Hne Hr Hs. rewrite merge_heap_lookup by done.
  destruct (decide (r ∈ refs)); [|done]. rewrite Hs. simpl.
  exists (dominant_speaker (seg_start s) (seg_end s) diar). split; [done|].
  destruct (dominant_speaker_origin (seg_start s) (seg_end s) diar)
    as [[Hu Hall]|(d & Hd & Hpos & Hl)].
  - left. split; [done|]. eapply Forall_impl; [exact Hall|].
    intros d Hz (H1 & H2 & H3 & H4).
    pose proof (overlap_pos_intro _ _ _ H1 H2 H3 H4) as Hpos.
    simpl in Hz. rewrite Hz in Hpos. by apply flt_irrefl in Hpos.
  - right. exists d. destruct (overlap_pos_elim _ _ _ Hpos) as [H1 H2]. auto.
Qed.

Lemma merge_labels_come_from_diarization_witness :
  let d := {| spk_start := 0; spk_end := 5; spk_speaker := "2" |} in
  let s := {| seg_id := 7; seg_start := 5; seg_end := 6; seg_text := "late";
              seg_speaker := Some "stale" |} in
  exists label,
    ms_heap (merge_diarization_with_transcription [d] [0%nat] [s]).2 !! 0%nat
      = Some (setattr_speaker label s) /\
    ((label = "unknown" /\
      Forall (fun d => ~ (flt (seg_start s) (seg_end s) /\
                          flt (spk_start d) (spk_end d) /\
                          flt (spk_start d) (seg_end s) /\
                          flt (seg_start s) (spk_end d))) [d]) \/
     (exists d', d' ∈ [d] /\ label = spk_speaker d' /\
                 flt 0 (overlap (seg_start s) (seg_end s) d') /\
                 flt (seg_start s) (seg_end s) /\
                 (~ isnan (spk_start d') -> ~ isnan (spk_end d') ->
                  flt (spk_start d') (spk_end d') /\
                  flt (spk_start d') (seg_end s) /\
                  flt (seg_start s) (spk_end d')))).
Proof.
  intros d s.
  apply (merge_labels_come_from_diarization [d] [0%nat] [s] 0%nat s).
  - discriminate.
  - apply list_elem_of_here.
  - reflexivity.
Defined.

(** A NaN bound is passed over: [max(0.0, nan)] is [0.0], so the turn
    [[nan, 1]] overlaps the segment [[0, 2]] for [1] and gives it its
    speaker. *)
Example merge_nan_bound :
  let d := {| spk_start := nan; spk_end := 1; spk_speaker := "A" |} in
  overlap 0 2 d = 1 /\ dominant_speaker 0 2 [d] = "A" /\
  ~ flt (spk_start d) (spk_end d).
Proof. vm_compute. split; [done|]. split; [done|]. discriminate. Qed.

(** X2.  Merging is idempotent: running the merge again on the store
    it produced, with the same diarization and the same sequence,
    changes nothing. *)
Theorem merge_idempotent
    (diar : list SpeakerSegment) (refs : list nat) (h : heap) :
  let h1 := ms_heap (merge_diarization_with_transcription diar refs h).2 in
  ms_heap (merge_diarization_with_transcription diar refs h1).2 = h1.
Proof.
  intros h1. destruct diar as [|d diar]; [done|].
  apply list_eq. intros i. unfold h1.
  rewrite !merge_heap_lookup by done.
  destruct (decide (i ∈ refs)); [|done].
  destruct (h !! i); simpl; [|done]. by rewrite assigned_idemp.
Qed.

(** ** The chunk loop and the serverless transcription handler *)

Lemma process_chunks_raises w language word_timestamps i pre chunk_path post
    outs e all_text all_segments t :
  Forall2 (fun chunk_path out =>
             transcribe_audio_chunk w chunk_path language word_timestamps
             = Returns out) pre outs ->
  transcribe_audio_chunk w chunk_path language word_timestamps = Raises e ->
  process_chunks w language word_timestamps i (pre ++ chunk_path :: post)
                 all_text all_segments t =
  (Raises e,
   t ++ imap (fun k c => EvTranscribe (i + k) c) pre
     ++ [EvTranscribe (i + length pre) chunk_path]).
Proof.
  intros Hall He. revert i all_text all_segments t.
  induction Hall as [|c [chunk_text chunk_segments] rest outs Hc Hrest IH];
    intros i all_text all_segments t.
  - cbn [app process_chunks imap length].
    erewrite bind_Raises; [|unfold call; by rewrite He].
    by rewrite Nat.add_0_r.
  - cbn [app process_chunks].
    erewrite bind_Returns; [|unfold call; by rewrite Hc].
    cbv beta iota. rewrite IH. rewrite imap_cons. cbn [length].
    rewrite (imap_ext (_ ∘ S) (fun k c => EvTranscribe (S i + k) c))
      by (intros; simpl; by rewrite Nat.add_succ_r).
    rewrite Nat.add_0_r, <- !app_assoc. simpl.
    by rewrite Nat.add_succ_r.
Qed.

Lemma prefix_http_truthy url :
  String.prefix "http://" url || String.prefix "https://" url = true ->
  str_truthy (Some url) = true.
Proof. by destruct url. Qed.

(** X3.  Fail-fast without partial results: when the audio was fetched,
    converted and split and the ASR collaborator raises on some chunk
    after returning for all earlier ones, the serverless handler
    returns the error dict of that exception; the chunks after the
    failing one are never transcribed and nothing of the earlier
    chunks' transcripts is returned. *)
Theorem handler_asr_failure_discards_partial
    (w : Collaborators) (job_input : JobInput) (t : list event)
    (url temp_dir temp_file wav_file chunk_path : string)
    (pre post : list string) (outs : list (string * list Segment)) (e : exn) :
  ji_audio job_input = Some url ->
  String.prefix "http://" url || String.prefix "https://" url = true ->
  format_is_valid (ji_response_format job_input) = true ->
  mkdtemp w = Returns temp_dir ->
  download_audio w url (temp_dir +:+ "/input_audio") = Returns temp_file ->
  convert_audio_to_wav w temp_file = Returns wav_file ->
  split_audio_into_chunks w wav_file (chunk_duration w)
    = Returns (pre ++ chunk_path :: post) ->
  Forall2 (fun c out =>
             transcribe_audio_chunk w c (ji_language job_input)
                                    (ji_word_timestamps job_input)
             = Returns out) pre outs ->
  transcribe_audio_chunk w chunk_path (ji_language job_input)
                         (ji_word_timestamps job_input) = Raises e ->
  handler w job_input t =
  (Returns [("error", JStr (str_error e))],
   t ++ [EvMkdtemp; EvDownload url; EvConvertToWav temp_file; EvSplit wav_file]
     ++ imap EvTranscribe pre ++ [EvTranscribe (length pre) chunk_path]).
Proof.
  intros Ha Hurl Hf Hm Hd Hc Hs Hpre He.
  unfold handler. rewrite Ha, (prefix_http_truthy _ Hurl), Hf.
  cbn [negb default from_option id].
  unfold try_except, handler_body.
  erewrite (bind_Raises (handler_pipeline w job_input url)); [done|].
  unfold handler_pipeline. run_monad.
  rewrite Hm, Hurl, Hd, Hc, Hs.
  rewrite (process_chunks_raises _ _ _ _ _ _ _ outs e) by done.
  by rewrite <- !app_assoc.
Qed.

Lemma handler_asr_failure_discards_partial_witness :
  handler scenario_asr_fails (scenario_job "json" true None) [] =
  (Returns [("error", JStr "CUDA out of memory")],
   [EvMkdtemp; EvDownload "https://example.com/audio.mp3";
    EvConvertToWav "/tmp/runpod_transcription_0/input_audio";
    EvSplit "/tmp/audio.wav"]
   ++ imap EvTranscribe ["chunk_0.wav"] ++ [EvTranscribe 1 "chunk_1.wav"]).
Proof.
  apply (handler_asr_failure_discards_partial scenario_asr_fails
           (scenario_job "json" true None) []
           "https://example.com/audio.mp3" "/tmp/runpod_transcription_0"
           "/tmp/runpod_transcription_0/input_audio" "/tmp/audio.wav"
           "chunk_1.wav" ["chunk_0.wav"] ["chunk_2.wav"]
           [("hello world", [local_segment])] (Error "CUDA out of memory")).
  - reflexivity.
  - reflexivity.
  - reflexivity.
  - reflexivity.
  - reflexivity.
  - reflexivity.
  - reflexivity.
  - repeat constructor.
  - reflexivity.
Defined.

(** ** Order of the collaborator calls *)

Lemma process_chunks_trace w language word_timestamps i audio_chunks
    all_text all_segments t o t' :
  process_chunks w language word_timestamps i audio_chunks all_text all_segments t
  = (o, t') ->
  exists n,
    t' = t ++ imap (fun k c => EvTranscribe (i + k) c) (take n audio_chunks).
Proof.
  revert i all_text all_segments t.
  induction audio_chunks as [|chunk_path rest IH];
    intros i all_text all_segments t; cbn [process_chunks].
  - intros [= <- <-]. exists 0%nat. by rewrite app_nil_r.
  - run_monad.
    destruct (transcribe_audio_chunk w chunk_path language word_timestamps)
      as [[chunk_text chunk_segments]|e].
    + intros H. apply IH in H as [n ->]. exists (S n).
      cbn [take]. rewrite imap_cons.
      rewrite (imap_ext (_ ∘ S) (fun k c => EvTranscribe (S i + k) c))
        by (intros; simpl; by rewrite Nat.add_succ_r).
      by rewrite Nat.add_0_r, <- app_assoc.
    + intros [= <- <-]. exists 1%nat. cbn [take]. rewrite take_0.
      by rewrite imap_cons, Nat.add_0_r.
Qed.

Lemma transcribe_events_order i (l : list string) :
  in_pipeline_order (imap (fun k c => EvTranscribe (i + k) c) l) /\
  Forall (fun ev => (6 + i <= stage ev)%nat)
         (imap (fun k c => EvTranscribe (i + k) c) l).
Proof.
  revert i. induction l as [|c l IH]; intros i.
  - split; constructor.
  - rewrite imap_cons.
    rewrite (imap_ext (_ ∘ S) (fun k c => EvTranscribe (S i + k) c))
      by (intros; simpl; by rewrite Nat.add_succ_r).
    destruct (IH (S i)) as [Hs Hf]. split.
    + constructor; [done|]. eapply Forall_impl; [exact Hf|].
      intros ev Hev. simpl in *. lia.
    + constructor; [simpl; lia|]. eapply Forall_impl; [exact Hf|].
      intros ev Hev. simpl in *. lia.
Qed.

Lemma in_pipeline_order_cons ev l :
  in_pipeline_order l ->
  Forall (fun ev' => (stage ev < stage ev')%nat) l ->
  in_pipeline_order (ev :: l).
Proof. intros. by constructor. Qed.

Lemma format_response_trace w job_input full_text all_segments t o t' :
  format_response w job_input full_text all_segments t = (o, t') -> t' = t.
Proof.
  unfold format_response. run_monad.
  repeat match goal with
         | |- context [if ?b then _ else _] => destruct b
         | |- context [match ?o with Returns _ => _ | Raises _ => _ end] =>
             destruct o
         end; by intros [= <- <-].
Qed.

Ltac order_tail :=
  match goal with
  | |- in_pipeline_order (imap _ ?l) =>
      exact (proj1 (transcribe_events_order 0%nat l))
  | |- in_pipeline_order [] => constructor
  | |- in_pipeline_order (_ :: _) =>
      apply in_pipeline_order_cons; [order_tail|]
  end.

Ltac order_bounds l :=
  repeat (apply Forall_cons; split; [simpl; lia|]);
  try (by constructor);
  try (eapply Forall_impl;
       [exact (proj2 (transcribe_events_order 0 l))|];
       intros ? ?; simpl in *; lia).

Ltac order_done l :=
  rewrite <- ?app_assoc; eexists; (split; [reflexivity|]);
  cbn [app]; order_tail; order_bounds l.

Lemma handler_pipeline_order w job_input audio_input t o t' :
  handler_pipeline w job_input audio_input t = (o, t') ->
  exists l, t' = t ++ l /\ in_pipeline_order l.
Proof.
  unfold handler_pipeline. run_monad.
  destruct (mkdtemp w) as [temp_dir|e];
    [|intros [= <- <-]; order_done (@nil string)].
  destruct (String.prefix "http://" audio_input
            || String.prefix "https://" audio_input).
  - destruct (download_audio w audio_input _) as [temp_file|e];
      [|intros [= <- <-]; order_done (@nil string)].
    destruct (convert_audio_to_wav w temp_file) as [wav_file|e];
      [|intros [= <- <-]; order_done (@nil string)].
    destruct (split_audio_into_chunks w wav_file (chunk_duration w))
      as [audio_chunks|e];
      [|intros [= <- <-]; order_done (@nil string)].
    destruct (process_chunks _ _ _ _ _ _ _ _) as [[[? ?]|?] t2] eqn:Hpc;
      apply process_chunks_trace in Hpc as [n ->];
      intros [= <- <-]; order_done (take n audio_chunks).
  - destruct (negb (str_truthy (ji_audio_format job_input))).
    { intros [= <- <-]. order_done (@nil string). }
    destruct (decode_base64_audio w audio_input _ _) as [temp_file|e];
      [|intros [= <- <-]; order_done (@nil string)].
    destruct (convert_audio_to_wav w temp_file) as [wav_file|e];
      [|intros [= <- <-]; order_done (@nil string)].
    destruct (split_audio_into_chunks w wav_file (chunk_duration w))
      as [audio_chunks|e];
      [|intros [= <- <-]; order_done (@nil string)].
    destruct (process_chunks _ _ _ _ _ _ _ _) as [[[? ?]|?] t2] eqn:Hpc;
      apply process_chunks_trace in Hpc as [n ->];
      intros [= <- <-]; order_done (take n audio_chunks).
Qed.

(** On a typed job input the handler always returns, and its calls
    follow the pipeline order. *)
Lemma handler_returns_in_order
    (w : Collaborators) (job_input : JobInput) (t : list event) :
  exists result l,
    handler w job_input t = (Returns result, t ++ l) /\
    in_pipeline_order l.
Proof.
  unfold handler.
  destruct (negb (str_truthy (ji_audio job_input))).
  { exists [("error", JStr "Missing required 'audio' field in input")], [].
    rewrite app_nil_r. split; [done|constructor]. }
  destruct (negb (format_is_valid (ji_response_format job_input))).
  { eexists _, []. rewrite app_nil_r. split; [done|constructor]. }
  unfold try_except, handler_body.
  destruct (handler_pipeline w job_input (default "" (ji_audio job_input)) t)
    as [[[early|[full_text all_segments]]|e] t1] eqn:Hp;
    destruct (handler_pipeline_order _ _ _ _ _ _ Hp) as (l & -> & Hl).
  - erewrite bind_Returns by exact Hp. by eexists _, l.
  - erewrite bind_Returns by exact Hp. simpl.
    destruct (format_response w job_input full_text all_segments (t ++ l))
      as [[result|e] t'] eqn:Hf;
      apply format_response_trace in Hf as ->; by eexists _, l.
  - erewrite bind_Raises by exact Hp. by eexists _, l.
Qed.

(** Reading the input succeeds exactly on a dict whose ["input"] is
    a dict or absent; otherwise [.get] raises on the value that is not
    a dict: the job itself, or its ["input"]. *)
Lemma read_job_input_spec py job :
  match read_job_input py job with
  | Returns job_input =>
      exists j, job = JDict j /\ dict_get "input" (JDict []) j = JDict job_input
  | Raises e =>
      exists v, e = Error (no_get py v) /\ (forall d, v <> JDict d) /\
                (v = job \/
                 exists j, job = JDict j /\ dict_get "input" (JDict []) j = v)
  end.
Proof.
  unfold read_job_input, py_get.
  destruct job as [|b|z|f|s|l|j];
    try (eexists; split; [done|]; split; [done|by left]).
  destruct (dict_get "input" (JDict []) j) as [|b|z|f|s|l|d] eqn:E;
    try (eexists; split; [done|]; split; [done|right; by exists j]).
  by exists j.
Qed.

(** X6.  The serverless transcription handler, on the job as
    delivered.  When the job, or its ["input"], is not a dict, the
    [.get] in front of the [try] raises [AttributeError] and no
    collaborator is called.  On a dict input whose fields have the
    documented types it returns a dict, and in every such run --
    successful or not -- its collaborator calls follow the pipeline
    order: the temporary directory first, then at most one fetch of the
    audio, one conversion, one split, and then the chunks in strictly
    ascending index order, each at most once. *)
Theorem handler_calls_in_order
    (py : PyText) (w : Collaborators) (job : json) (t : list event) :
  (forall e, read_job_input py job = Raises e ->
     (exists v, e = Error (no_get py v) /\ (forall d, v <> JDict d) /\
                (v = job \/
                 exists j, job = JDict j /\ dict_get "input" (JDict []) j = v)) /\
     exists run, handler_job py w job = Some run /\ run t = (Raises e, t)) /\
  (forall job_input fields,
     read_job_input py job = Returns job_input ->
     job_fields job_input = Some fields ->
     (exists j, job = JDict j /\ dict_get "input" (JDict []) j = JDict job_input) /\
     exists run result l,
       handler_job py w job = Some run /\
       run t = (Returns result, t ++ l) /\
       in_pipeline_order l).
Proof.
  pose proof (read_job_input_spec py job) as Hspec.
  unfold handler_job. split.
  - intros e He. rewrite He in *. split; [done|]. by eexists.
  - intros job_input fields Hj Hf. rewrite Hj in *. split; [done|].
    rewrite Hf. simpl.
    destruct (handler_returns_in_order w fields t) as (result & l & Hh & Hl).
    by exists (handler w fields), result, l.
Qed.

(** The scenario's job, delivered as a dict. *)
Lemma handler_calls_in_order_witness :
  let job :=
    JDict [("id", JStr "job-1");
           ("input", JDict [("audio", JStr "https://example.com/audio.mp3");
                            ("response_format", JStr "json")])] in
  exists run result l,
    handler_job scenario_py scenario job = Some run /\
    run [] = (Returns result, [] ++ l) /\
    in_pipeline_order l.
Proof.
  intros job.
  apply (proj2 (handler_calls_in_order scenario_py scenario job [])
               [("audio", JStr "https://example.com/audio.mp3");
                ("response_format", JStr "json")]
               (scenario_job "json" false None)); reflexivity.
Defined.

(** A job whose input is null, and the scenario's job as a dict. *)
Example handler_job_examples :
  (exists run, handler_job scenario_py scenario (JDict [("input", JNull)]) = Some run /\
               run [] = (Raises (Error "object has no attribute 'get'"), [])) /\
  job_fields [("audio", JStr "https://example.com/audio.mp3");
              ("response_format", JStr "json")]
  = Some (scenario_job "json" false None).
Proof. split; [by eexists|done]. Qed.

Lemma transcribe_events_only i (l : list string) ev :
  ev ∈ imap (fun k c => EvTranscribe (i + k) c) l ->
  exists k c, ev = EvTranscribe k c.
Proof.
  intros Hin. apply elem_of_lookup_imap in Hin as (k & c & -> & _). eauto.
Qed.

Lemma render_response_trace w request response full_text all_segments t o t' :
  render_response w request response full_text all_segments t = (o, t') -> t' = t.
Proof.
  unfold render_response. run_monad.
  repeat match goal with
         | |- context [if ?b then _ else _] => destruct b
         | |- context [match ?o with Returns _ => _ | Raises _ => _ end] =>
             destruct o
         end; by intros [= <- <-].
Qed.

Ltac not_member H :=
  repeat (apply elem_of_cons in H as [H|H]; [discriminate H|]);
  by apply elem_of_nil in H.

Ltac diarizer_unused l :=
  cbn [app];
  repeat (apply Forall_cons; split; [simpl; lia|]);
  try (by constructor);
  try (eapply Forall_impl;
       [exact (proj2 (transcribe_events_order 0 l))|];
       intros ? ?; simpl in *; lia).

Lemma transcribe_audio_pipeline_order w request t o t' :
  transcribe_audio_pipeline w request t = (o, t') ->
  exists l,
    t' = t ++ l /\ in_pipeline_order l /\
    (rq_diarize request && str_truthy (get_hf_token w) = false ->
     Forall (fun ev => stage ev <> 4%nat /\ stage ev <> 5%nat) l) /\
    (rq_diarize request && str_truthy (get_hf_token w) = true ->
     forall i c, EvTranscribe i c ∈ l ->
       exists wav_file, EvDiarize wav_file ∈ l /\ EvDiarizerCleanup ∈ l).
Proof.
  unfold transcribe_audio_pipeline. run_monad.
  destruct (save_upload w) as [temp_file|e].
  2:{ intros [= <- <-]. eexists. split; [reflexivity|].
      split; [order_tail; order_bounds (@nil string)|].
      split; [intros _; diarizer_unused (@nil string)|].
      intros _ i c H. not_member H. }
  destruct (convert_audio_to_wav w temp_file) as [wav_file|e].
  2:{ intros [= <- <-]. rewrite <- !app_assoc. eexists. split; [reflexivity|].
      cbn [app]. split; [order_tail; order_bounds (@nil string)|].
      split; [intros _; diarizer_unused (@nil string)|].
      intros _ i c H. not_member H. }
  destruct (split_audio_into_chunks w wav_file (chunk_duration w))
    as [audio_chunks|e].
  2:{ intros [= <- <-]. rewrite <- !app_assoc. eexists. split; [reflexivity|].
      cbn [app]. split; [order_tail; order_bounds (@nil string)|].
      split; [intros _; diarizer_unused (@nil string)|].
      intros _ i c H. not_member H. }
  destruct (rq_diarize request && str_truthy (get_hf_token w)).
  - destruct (process_chunks _ _ _ _ _ _ _ _) as [[[? ?]|?] t2] eqn:Hpc;
      apply process_chunks_trace in Hpc as [n ->];
      intros [= <- <-]; rewrite <- !app_assoc;
      (eexists; split; [reflexivity|]); cbn [app];
      (split; [order_tail; order_bounds (take n audio_chunks)|]);
      (split; [done|]); intros _ i c _; exists wav_file;
      (split; [do 3 apply list_elem_of_further | do 4 apply list_elem_of_further]);
      apply list_elem_of_here.
  - destruct (process_chunks _ _ _ _ _ _ _ _) as [[[? ?]|?] t2] eqn:Hpc;
      apply process_chunks_trace in Hpc as [n ->];
      intros [= <- <-]; rewrite <- !app_assoc;
      (eexists; split; [reflexivity|]); cbn [app];
      (split; [order_tail; order_bounds (take n audio_chunks)|]);
      (split; [|done]); intros _; diarizer_unused (take n audio_chunks).
Qed.

(** X7.  Resource hand-off in the API: in every run, successful or
    not, the collaborator calls follow the pipeline order -- upload,
    conversion, split, diarization, release of the diarizer, then the
    chunks in ascending index order, each stage at most once.  When a
    diarizer is configured (diarization requested and a token present),
    no chunk is transcribed unless the diarization has run and the
    diarizer has been released before; when none is configured, no
    diarization call is made at all. *)
Theorem transcribe_audio_calls_in_order
    (http_str : nat -> string -> string) (model_loaded : bool)
    (w : Collaborators) (request : ApiRequest) (t : list event) :
  exists o l,
    transcribe_audio http_str model_loaded w request t = (o, t ++ l) /\
    in_pipeline_order l /\
    (rq_diarize request && str_truthy (get_hf_token w) = false ->
     forall ev, ev ∈ l ->
       ev <> EvDiarizerCleanup /\ forall wav_file, ev <> EvDiarize wav_file) /\
    (rq_diarize request && str_truthy (get_hf_token w) = true ->
     forall i c, EvTranscribe i c ∈ l ->
       exists wav_file, EvDiarize wav_file ∈ l /\ EvDiarizerCleanup ∈ l).
Proof.
  unfold transcribe_audio. destruct model_loaded; simpl.
  2:{ eexists _, []. rewrite app_nil_r. split; [done|].
      split; [constructor|]. split.
      - intros _ ev H. by apply elem_of_nil in H.
      - intros _ i c H. by apply elem_of_nil in H. }
  unfold try_except, transcribe_audio_body.
  destruct (transcribe_audio_pipeline w request t)
    as [[[full_text all_segments]|e] t1] eqn:Hp;
    destruct (transcribe_audio_pipeline_order _ _ _ _ _ Hp)
      as (l & -> & Hl & Hno & Hyes);
    assert (rq_diarize request && str_truthy (get_hf_token w) = false ->
            forall ev, ev ∈ l ->
              ev <> EvDiarizerCleanup /\ forall wav_file, ev <> EvDiarize wav_file)
      as Hno'
      by (intros Hd ev Hev; specialize (Hno Hd); rewrite Forall_forall in Hno;
          destruct (Hno ev Hev) as [H4 H5];
          split; [intros -> | intros wav_file ->]; simpl in *; congruence).
  - erewrite bind_Returns by exact Hp. cbv beta iota.
    destruct (render_response _ _ _ _ _ _) as [[b|e] t'] eqn:Hr;
      apply render_response_trace in Hr as ->; by eexists _, l.
  - erewrite bind_Raises by exact Hp. by eexists _, l.
Qed.

(** X8.  Status codes of the API: an exception leaves the endpoint
    only as status 503, raised before any collaborator is called when
    the model is not loaded, or as status 500 wrapping the text of the
    exception raised inside the [try] block; no other status -- in
    particular no 400 -- is ever produced. *)
Theorem transcribe_audio_status_codes
    (http_str : nat -> string -> string) (model_loaded : bool)
    (w : Collaborators) (request : ApiRequest) (t t' : list event) (e : exn) :
  transcribe_audio http_str model_loaded w request t = (Raises e, t') ->
  (model_loaded = false /\ t' = t /\
   e = HTTPException 503 "Model not loaded yet. Please try again in a few moments.")
  \/
  (model_loaded = true /\
   exists e0, transcribe_audio_body w request t = (Raises e0, t') /\
              e = HTTPException 500 (str_exn http_str e0)).
Proof.
  unfold transcribe_audio. destruct model_loaded; simpl.
  - unfold try_except.
    destruct (transcribe_audio_body w request t) as [[b|e0] t1]; [done|].
    intros [= <- <-]. right. split; [done|]. by exists e0.
  - intros [= <- <-]. by left.
Qed.

Lemma transcribe_audio_status_codes_witness :
  (true = false /\
   [EvSaveUpload ".mp3"; EvConvertToWav "/tmp/upload_00.mp3";
    EvSplit "/tmp/audio.wav"; EvTranscribe 0 "chunk_0.wav";
    EvTranscribe 1 "chunk_1.wav"; EvTranscribe 2 "chunk_2.wav"] = [] /\
   HTTPException 500 "Unsupported response format: xml"
   = HTTPException 503 "Model not loaded yet. Please try again in a few moments.")
  \/
  (true = true /\
   exists e0,
     transcribe_audio_body scenario (scenario_request "xml" false) []
     = (Raises e0,
        [EvSaveUpload ".mp3"; EvConvertToWav "/tmp/upload_00.mp3";
         EvSplit "/tmp/audio.wav"; EvTranscribe 0 "chunk_0.wav";
         EvTranscribe 1 "chunk_1.wav"; EvTranscribe 2 "chunk_2.wav"]) /\
     HTTPException 500 "Unsupported response format: xml"
     = HTTPException 500 (str_exn scenario_http_str e0)).
Proof.
  apply (transcribe_audio_status_codes scenario_http_str true scenario
           (scenario_request "xml" false) []).
  reflexivity.
Defined.

(** X9.  Input validation of the serverless transcription handler:
    a job without audio (absent or empty) is rejected before anything
    else is looked at and before any collaborator is called; a job
    whose audio is not an http(s) URL and that names no [audio_format]
    is rejected after the temporary directory was created, without
    decoding, converting or transcribing anything. *)
Theorem handler_input_errors
    (w : Collaborators) (job_input : JobInput) (t : list event) :
  (str_truthy (ji_audio job_input) = false ->
   handler w job_input t =
   (Returns [("error", JStr "Missing required 'audio' field in input")], t)) /\
  (forall audio_input temp_dir,
     ji_audio job_input = Some audio_input ->
     audio_input <> "" ->
     format_is_valid (ji_response_format job_input) = true ->
     String.prefix "http://" audio_input = false ->
     String.prefix "https://" audio_input = false ->
     str_truthy (ji_audio_format job_input) = false ->
     mkdtemp w = Returns temp_dir ->
     handler w job_input t =
     (Returns [("error",
                JStr "audio_format is required when using base64-encoded audio")],
      t ++ [EvMkdtemp])).
Proof.
  split.
  - intros Ha. unfold handler. by rewrite Ha.
  - intros audio_input temp_dir Ha Hne Hf H1 H2 Hfmt Hm.
    unfold handler. rewrite Ha, Hf.
    assert (str_truthy (Some audio_input) = true) as ->.
    { simpl. destruct audio_input; [done|reflexivity]. }
    cbn [negb default from_option id].
    unfold try_except, handler_body, handler_pipeline. run_monad.
    by rewrite Hm, H1, H2, Hfmt.
Qed.

Lemma handler_input_errors_witness :
  handler scenario
    {| ji_audio := Some ""; ji_audio_format := None; ji_language := None;
       ji_response_format := "xml"; ji_timestamps := false;
       ji_word_timestamps := false; ji_diarization_segments := None |} []
  = (Returns [("error", JStr "Missing required 'audio' field in input")], []) /\
  handler scenario
    {| ji_audio := Some "UklGRg=="; ji_audio_format := None; ji_language := None;
       ji_response_format := "json"; ji_timestamps := false;
       ji_word_timestamps := false; ji_diarization_segments := None |} []
  = (Returns [("error",
               JStr "audio_format is required when using base64-encoded audio")],
     [] ++ [EvMkdtemp]).
Proof.
  split.
  - apply (handler_input_errors scenario). reflexivity.
  - apply (proj2 (handler_input_errors scenario _ [])
             "UklGRg==" "/tmp/runpod_transcription_0");
      try reflexivity. discriminate.
Defined.

Lemma process_chunks_outcome_indep w language word_timestamps i audio_chunks
    all_text all_segments t1 t2 :
  (process_chunks w language word_timestamps i audio_chunks all_text all_segments t1).1
  = (process_chunks w language word_timestamps i audio_chunks all_text all_segments t2).1.
Proof.
  revert i all_text all_segments t1 t2.
  induction audio_chunks as [|chunk_path rest IH];
    intros i all_text all_segments t1 t2; cbn [process_chunks]; [done|].
  run_monad.
  destruct (transcribe_audio_chunk w chunk_path language word_timestamps)
    as [[chunk_text chunk_segments]|e]; [apply IH | done].
Qed.

Lemma render_response_outcome_indep w request response full_text all_segments t1 t2 :
  (render_response w request response full_text all_segments t1).1
  = (render_response w request response full_text all_segments t2).1.
Proof.
  unfold render_response. run_monad.
  repeat match goal with
         | |- context [if ?b then _ else _] => destruct b
         | |- context [match ?o with Returns _ => _ | Raises _ => _ end] =>
             destruct o
         end; done.
Qed.

(** X10.  Diarization degrades gracefully in the API: when no token is
    configured, or when the diarizer finds no speaker segment, a
    request that asks for diarization is answered (or fails) exactly
    like the same request with diarization switched off. *)
Theorem api_diarization_degrades
    (http_str : nat -> string -> string) (w : Collaborators)
    (request : ApiRequest) (t : list event) :
  str_truthy (get_hf_token w) = false \/
  (forall wav_file, dr_segments (diarize w wav_file) = []) ->
  (transcribe_audio http_str true w request t).1
  = (transcribe_audio http_str true w (without_diarization request) t).1.
Proof.
  intros Hdeg. unfold transcribe_audio, try_except, transcribe_audio_body,
    transcribe_audio_pipeline. run_monad. cbn [negb].
  cbn [without_diarization rq_file_suffix rq_language rq_response_format
       rq_timestamps rq_word_timestamps rq_diarize andb].
  destruct (save_upload w) as [temp_file|e]; [|done].
  destruct (convert_audio_to_wav w temp_file) as [wav_file|e]; [|done].
  destruct (split_audio_into_chunks w wav_file (chunk_duration w))
    as [audio_chunks|e]; [|done].
  destruct (rq_diarize request && str_truthy (get_hf_token w)) eqn:Hd; [|done].
  destruct Hdeg as [Htok|Hempty].
  { rewrite Htok, andb_false_r in Hd. done. }
  set (ta := _ ++ [EvDiarizerCleanup]). set (tb := _ ++ [EvSplit wav_file]).
  pose proof (process_chunks_outcome_indep w (rq_language request)
                (rq_word_timestamps request) 0 audio_chunks [] [] ta tb)
    as Hind.
  destruct (process_chunks _ _ _ _ _ _ _ ta)
    as [[[all_text all_segments]|e] ta'];
    destruct (process_chunks _ _ _ _ _ _ _ tb)
      as [[[all_text' all_segments']|e'] tb'];
    simpl in Hind; simplify_eq; [|done].
  rewrite Hempty.
  pose proof (render_response_outcome_indep w request
                (make_response request (join " " all_text') all_segments')
                (join " " all_text') all_segments' ta' tb') as Hr.
  change (make_response (without_diarization request))
    with (make_response request).
  change (render_response w (without_diarization request))
    with (render_response w request).
  destruct (render_response _ _ _ _ _ ta') as [[b|e] ?];
    destruct (render_response _ _ _ _ _ tb') as [[b'|e'] ?];
    simpl in Hr; by simplify_eq.
Qed.

Lemma api_diarization_degrades_witness :
  (transcribe_audio scenario_http_str true scenario
     (scenario_request "json" true) []).1
  = (transcribe_audio scenario_http_str true scenario
       (without_diarization (scenario_request "json" true)) []).1.
Proof.
  apply (api_diarization_degrades scenario_http_str scenario
           (scenario_request "json" true) []).
  left. reflexivity.
Defined.

(** ** The orchestrator *)

Lemma transcription_stage_calls py net TRANSCRIPTION_ENDPOINT job_input
    diarization_result t o t' :
  transcription_stage py net TRANSCRIPTION_ENDPOINT job_input diarization_result t
  = (o, t') ->
  t' = t \/ exists payload, t' = t ++ [EvPost TRANSCRIPTION_ENDPOINT payload 900].
Proof.
  unfold transcription_stage, trans_payload, call_runpod_endpoint. run_monad.
  destruct (truthy diarization_result).
  - destruct (py_in py "segments" diarization_result) as [[|]|e].
    + destruct (py_getitem py "segments" diarization_result) as [segments|e].
      * destruct (py_in py "error" _) as [[|]|e];
          [destruct (py_getitem py "error" _)| |];
          intros [= <- <-]; right; by eexists.
      * intros [= <- <-]. by left.
    + destruct (py_in py "error" _) as [[|]|e];
        [destruct (py_getitem py "error" _)| |];
        intros [= <- <-]; right; by eexists.
    + intros [= <- <-]. by left.
  - destruct (py_in py "error" _) as [[|]|e];
      [destruct (py_getitem py "error" _)| |];
      intros [= <- <-]; right; by eexists.
Qed.

Lemma diarization_stage_calls py net DIARIZATION_ENDPOINT job_input t o t' :
  diarization_stage py net DIARIZATION_ENDPOINT job_input t = (o, t') ->
  if truthy (dict_get "diarize" (JBool true) job_input)
  then t' = t ++ [EvPost DIARIZATION_ENDPOINT (diar_payload job_input) 600]
  else t' = t /\ o = Returns JNull.
Proof.
  unfold diarization_stage, call_runpod_endpoint. run_monad.
  destruct (truthy (dict_get "diarize" (JBool true) job_input)).
  - destruct (py_in py "error" _) as [[|]|e].
    + destruct (py_getitem py "error" _); by intros [= <- <-].
    + destruct (py_get py "num_speakers" _ _); by intros [= <- <-].
    + by intros [= <- <-].
  - by intros [= <- <-].
Qed.

Lemma transcription_stage_without_diarization py net TRANSCRIPTION_ENDPOINT
    job_input t o t' :
  transcription_stage py net TRANSCRIPTION_ENDPOINT job_input JNull t = (o, t') ->
  t' = t ++ [EvPost TRANSCRIPTION_ENDPOINT
               (JDict [("input", JDict (trans_input job_input))]) 900].
Proof.
  unfold transcription_stage, trans_payload, call_runpod_endpoint. run_monad.
  simpl.
  destruct (py_in py "error" _) as [[|]|e];
    [destruct (py_getitem py "error" _)| |]; by intros [= <- <-].
Qed.

(** On the input dict the orchestrator always returns, with at most
    the two calls, in order. *)
Lemma orchestrator_handler_calls
    (py : PyText) (net : network)
    (DIARIZATION_ENDPOINT TRANSCRIPTION_ENDPOINT : string)
    (job_input : dict) (t : list event) :
  let diar_call := EvPost DIARIZATION_ENDPOINT (diar_payload job_input) 600 in
  exists result l,
    orchestrator_handler py net DIARIZATION_ENDPOINT TRANSCRIPTION_ENDPOINT
                         job_input t = (Returns result, t ++ l) /\
    if truthy (dict_get "audio" JNull job_input)
    then if truthy (dict_get "diarize" (JBool true) job_input)
         then l = [diar_call] \/
              exists payload,
                l = [diar_call; EvPost TRANSCRIPTION_ENDPOINT payload 900]
         else l = [EvPost TRANSCRIPTION_ENDPOINT
                     (JDict [("input", JDict (trans_input job_input))]) 900]
    else l = [] /\
         result = error_result (JStr "Missing required 'audio' field in input").
Proof.
  intros diar_call. unfold orchestrator_handler.
  destruct (truthy (dict_get "audio" JNull job_input)); simpl.
  2:{ eexists _, []. by rewrite app_nil_r. }
  unfold try_except.
  destruct (diarization_stage py net DIARIZATION_ENDPOINT job_input t)
    as [[dres|e] t1] eqn:Hd;
    pose proof (diarization_stage_calls _ _ _ _ _ _ _ Hd) as Hc.
  - erewrite bind_Returns by exact Hd.
    destruct (truthy (dict_get "diarize" (JBool true) job_input)).
    + subst t1.
      destruct (transcription_stage py net TRANSCRIPTION_ENDPOINT job_input dres _)
        as [[r|e] t2] eqn:Ht;
        destruct (transcription_stage_calls _ _ _ _ _ _ _ _ Ht) as [->|[p ->]];
        rewrite <- ?app_assoc; eexists _, _; (split; [done|]);
        first [by left | right; by exists p].
    + destruct Hc as [-> [= ->]].
      destruct (transcription_stage py net TRANSCRIPTION_ENDPOINT job_input JNull t)
        as [[r|e] t2] eqn:Ht;
        apply transcription_stage_without_diarization in Ht as ->;
        by eexists _, _.
  - erewrite bind_Raises by exact Hd.
    destruct (truthy (dict_get "diarize" (JBool true) job_input)).
    + subst t1. eexists _, _. split; [done|]. by left.
    + by destruct Hc as [_ ?].
Qed.

(** X11.  Call discipline of the orchestrator.  When the job, or its
    ["input"], is not a dict, the [.get] in front of the [try] raises
    [AttributeError] and no network call is made.  On every other job
    the handler returns: a job without audio causes no network call;
    otherwise the diarization service is called exactly when [diarize]
    is true, with timeout 600 and before anything else, and the
    transcription service is called at most once, with timeout 900 and
    after the diarization call; with [diarize] false the single call is
    the transcription request without [diarization_segments]. *)
Theorem orchestrator_call_discipline
    (py : PyText) (net : network)
    (DIARIZATION_ENDPOINT TRANSCRIPTION_ENDPOINT : string)
    (job : json) (t : list event) :
  let run :=
    orchestrator_handler_job py net DIARIZATION_ENDPOINT TRANSCRIPTION_ENDPOINT
                             job t in
  match read_job_input py job with
  | Raises e =>
      run = (Raises e, t) /\
      exists v, e = Error (no_get py v) /\ (forall d, v <> JDict d) /\
                (v = job \/
                 exists j, job = JDict j /\ dict_get "input" (JDict []) j = v)
  | Returns job_input =>
      (exists j, job = JDict j /\ dict_get "input" (JDict []) j = JDict job_input) /\
      let diar_call := EvPost DIARIZATION_ENDPOINT (diar_payload job_input) 600 in
      exists result l,
        run = (Returns result, t ++ l) /\
        if truthy (dict_get "audio" JNull job_input)
        then if truthy (dict_get "diarize" (JBool true) job_input)
             then l = [diar_call] \/
                  exists payload,
                    l = [diar_call; EvPost TRANSCRIPTION_ENDPOINT payload 900]
             else l = [EvPost TRANSCRIPTION_ENDPOINT
                         (JDict [("input", JDict (trans_input job_input))]) 900]
        else l = [] /\
             result = error_result (JStr "Missing required 'audio' field in input")
  end.
Proof.
  intros run. unfold run, orchestrator_handler_job.
  pose proof (read_job_input_spec py job) as Hspec.
  destruct (read_job_input py job) as [job_input|e]; [|done].
  split; [done|]. apply orchestrator_handler_calls.
Qed.

(** A job whose input is a list. *)
Lemma orchestrator_call_discipline_witness :
  orchestrator_handler_job scenario_py net_transcription_fails diar_url trans_url
    (JDict [("id", JStr "job-1"); ("input", JList [])]) []
  = (Raises (Error "object has no attribute 'get'"), []).
Proof.
  apply (orchestrator_call_discipline scenario_py net_transcription_fails
           diar_url trans_url
           (JDict [("id", JStr "job-1"); ("input", JList [])]) []).
Defined.

(** A job whose input is a list raises; the scenario's job makes both
    calls. *)
Example orchestrator_job_examples :
  orchestrator_handler_job scenario_py net_transcription_fails diar_url trans_url
    (JDict [("input", JList [])]) []
  = (Raises (Error "object has no attribute 'get'"), []) /\
  exists result payload,
    orchestrator_handler_job scenario_py net_transcription_fails diar_url trans_url
      (JDict [("input", JDict orchestrator_job)]) []
    = (Returns result,
       [EvPost diar_url (diar_payload orchestrator_job) 600;
        EvPost trans_url payload 900]).
Proof. split; [done|]. by eexists _, _. Qed.

Lemma dict_lookup_nonempty k (d : dict) v :
  dict_lookup k d = Some v -> truthy (JDict d) = true.
Proof. by destruct d. Qed.

Lemma py_or_truthy a b : truthy b = true -> truthy (py_or a b) = true.
Proof. intros Hb. unfold py_or. by destruct (truthy a) eqn:Ha. Qed.

Lemma dict_lookup_set_eq k v (d : dict) : dict_lookup k (dict_set k v d) = Some v.
Proof.
  induction d as [|[k' v'] d IH]; simpl.
  - by rewrite String.eqb_refl.
  - destruct (String.eqb k k') eqn:E; simpl.
    + by rewrite String.eqb_refl.
    + by rewrite E.
Qed.

Lemma dict_lookup_set_ne k k' v (d : dict) :
  k <> k' -> dict_lookup k (dict_set k' v d) = dict_lookup k d.
Proof.
  intros Hne. induction d as [|[k0 v0] d IH]; simpl.
  - by destruct (String.eqb_spec k k').
  - destruct (String.eqb_spec k' k0) as [->|Hk0]; simpl.
    + by destruct (String.eqb_spec k k0).
    + by destruct (String.eqb k k0).
Qed.

Lemma orchestrator_handler_forwards py net DIARIZATION_ENDPOINT
    TRANSCRIPTION_ENDPOINT job_input t d segments :
  truthy (dict_get "audio" JNull job_input) = true ->
  truthy (dict_get "diarize" (JBool true) job_input) = true ->
  endpoint_result py (net DIARIZATION_ENDPOINT (diar_payload job_input) 600%nat)
    = JDict d ->
  dict_has "error" d = false ->
  dict_lookup "segments" d = Some segments ->
  exists result,
    orchestrator_handler py net DIARIZATION_ENDPOINT TRANSCRIPTION_ENDPOINT
                         job_input t =
    (Returns result,
     t ++ [EvPost DIARIZATION_ENDPOINT (diar_payload job_input) 600;
           EvPost TRANSCRIPTION_ENDPOINT
             (JDict [("input",
                      JDict (dict_set "diarization_segments" segments
                                      (trans_input job_input)))]) 900]).
Proof.
  intros Ha Hd Hr He Hs.
  unfold orchestrator_handler. rewrite Ha. simpl. unfold try_except.
  assert (diarization_stage py net DIARIZATION_ENDPOINT job_input t =
          (Returns (JDict d),
           t ++ [EvPost DIARIZATION_ENDPOINT (diar_payload job_input) 600]))
    as Hstage.
  { unfold diarization_stage, call_runpod_endpoint. rewrite Hd.
    run_monad. rewrite Hr. simpl. by rewrite He. }
  erewrite bind_Returns by exact Hstage.
  unfold transcription_stage, trans_payload, call_runpod_endpoint. run_monad.
  rewrite (dict_lookup_nonempty _ _ _ Hs). simpl.
  unfold dict_has. rewrite Hs. rewrite <- app_assoc. simpl.
  destruct (py_in py "error" _) as [[|]|e];
    [destruct (py_getitem py "error" _)| |]; by eexists.
Qed.

(** X12.  When diarization is enabled and the diarization call yields
    a dict without ["error"] that has a ["segments"] entry, the
    orchestrator sends the transcription request with that entry as
    [diarization_segments], with a true [timestamps] field whatever the
    job asked for, and with all other fields as they are without
    diarization. *)
Theorem orchestrator_forwards_segments
    (py : PyText) (net : network)
    (DIARIZATION_ENDPOINT TRANSCRIPTION_ENDPOINT : string)
    (job_input : dict) (t : list event) (d : dict) (segments : json) :
  truthy (dict_get "audio" JNull job_input) = true ->
  truthy (dict_get "diarize" (JBool true) job_input) = true ->
  endpoint_result py (net DIARIZATION_ENDPOINT (diar_payload job_input) 600%nat)
    = JDict d ->
  dict_has "error" d = false ->
  dict_lookup "segments" d = Some segments ->
  let input := dict_set "diarization_segments" segments (trans_input job_input) in
  (exists result,
     orchestrator_handler py net DIARIZATION_ENDPOINT TRANSCRIPTION_ENDPOINT
                          job_input t =
     (Returns result,
      t ++ [EvPost DIARIZATION_ENDPOINT (diar_payload job_input) 600;
            EvPost TRANSCRIPTION_ENDPOINT (JDict [("input", JDict input)]) 900])) /\
  dict_lookup "diarization_segments" input = Some segments /\
  truthy (dict_get "timestamps" JNull input) = true /\
  (forall k, k <> "diarization_segments" ->
     dict_lookup k input = dict_lookup k (trans_input job_input)).
Proof.
  intros Ha Hd Hr He Hs input. split; [|split; [done|split]].
  - by apply (orchestrator_handler_forwards _ _ _ _ _ _ d).
  - unfold input. simpl. by apply py_or_truthy.
  - intros k Hk. by apply dict_lookup_set_ne.
Qed.

Lemma orchestrator_forwards_segments_witness :
  let segments :=
    JList [JDict [("start", JFloat 0); ("end", JFloat 5); ("speaker", JStr "1")]] in
  let input :=
    dict_set "diarization_segments" segments (trans_input orchestrator_job) in
  (exists result,
     orchestrator_handler scenario_py net_transcription_fails diar_url trans_url
                          orchestrator_job [] =
     (Returns result,
      [] ++ [EvPost diar_url (diar_payload orchestrator_job) 600;
             EvPost trans_url (JDict [("input", JDict input)]) 900])) /\
  dict_lookup "diarization_segments" input = Some segments /\
  truthy (dict_get "timestamps" JNull input) = true /\
  (forall k, k <> "diarization_segments" ->
     dict_lookup k input = dict_lookup k (trans_input orchestrator_job)).
Proof.
  intros segments input.
  apply (orchestrator_forwards_segments scenario_py net_transcription_fails
           diar_url trans_url orchestrator_job []
           [("segments", segments); ("num_speakers", JInt 1); ("duration", JFloat 5)]
           segments); reflexivity.
Defined.

(** X13.  The tolerance for diarization failures covers error dicts
    only: when diarization is enabled and the diarization call yields
    anything that is not a JSON object (null, a number, a string, a
    list), the orchestrator returns an error dict after that one call
    and never calls the transcription service. *)
Theorem orchestrator_non_object_diarization_aborts
    (py : PyText) (net : network)
    (DIARIZATION_ENDPOINT TRANSCRIPTION_ENDPOINT : string)
    (job_input : dict) (t : list event) :
  truthy (dict_get "audio" JNull job_input) = true ->
  truthy (dict_get "diarize" (JBool true) job_input) = true ->
  (forall d,
     endpoint_result py (net DIARIZATION_ENDPOINT (diar_payload job_input) 600%nat)
     <> JDict d) ->
  exists msg,
    orchestrator_handler py net DIARIZATION_ENDPOINT TRANSCRIPTION_ENDPOINT
                         job_input t =
    (Returns (error_result (JStr msg)),
     t ++ [EvPost DIARIZATION_ENDPOINT (diar_payload job_input) 600]).
Proof.
  intros Ha Hd Hnd. unfold orchestrator_handler. rewrite Ha. simpl.
  unfold try_except, diarization_stage, call_runpod_endpoint. rewrite Hd.
  run_monad.
  destruct (endpoint_result py (net DIARIZATION_ENDPOINT (diar_payload job_input) 600%nat))
    as [|b|z|f|s|l|d]; simpl; try by eexists.
  - destruct (is_substring "error" s); by eexists.
  - destruct (existsb _ l); by eexists.
  - by destruct (Hnd d).
Qed.

Lemma orchestrator_non_object_diarization_aborts_witness :
  exists msg,
    orchestrator_handler scenario_py
      (fun _ _ _ => ResponseJson (JDict [("output", JList [])]))
      diar_url trans_url orchestrator_job [] =
    (Returns (error_result (JStr msg)),
     [] ++ [EvPost diar_url (diar_payload orchestrator_job) 600]).
Proof.
  apply (orchestrator_non_object_diarization_aborts scenario_py
           (fun _ _ _ => ResponseJson (JDict [("output", JList [])]))
           diar_url trans_url orchestrator_job []).
  - reflexivity.
  - reflexivity.
  - intros d. discriminate.
Defined.

(** ** The serverless diarization handler *)

Lemma pymax_nan_l m x : isnan m -> pymax m x = m.
Proof.
  intros Hm. unfold pymax. destruct (m <? x) eqn:E; [|done]. float_order.
Qed.

Lemma max_fold_nan (l : list SpeakerSegment) m :
  isnan m -> fold_left (fun m s => pymax m (spk_end s)) l m = m.
Proof.
  intros Hm. induction l as [|s l IH]; simpl; [done|].
  by rewrite pymax_nan_l.
Qed.

Lemma isnan_dec x : isnan x \/ ~ isnan x.
Proof. unfold isnan. destruct (x =? x); [right|left]; done. Qed.

(** The running maximum: no item exceeds the result, which is the
    initial value or one of the items. *)
Lemma max_fold_bounds (l : list SpeakerSegment) m :
  let r := fold_left (fun m s => pymax m (spk_end s)) l m in
  ~ flt r m /\ Forall (fun s => ~ flt r (spk_end s)) l /\
  (r = m \/ exists s, s ∈ l /\ r = spk_end s).
Proof.
  revert m. induction l as [|s l IH]; intros m; simpl.
  - split; [apply flt_irrefl|]. split; [constructor|by left].
  - destruct (IH (pymax m (spk_end s))) as (Hm & Hall & Hin).
    set (r := fold_left _ l _) in *.
    unfold pymax in Hm, Hin. destruct (m <? spk_end s) eqn:E.
    + split; [|split].
      * intros Hr. apply Hm. by apply flt_trans with m.
      * by constructor.
      * right. destruct Hin as [->|(s' & Hs' & ->)].
        -- exists s. split; [by left|done].
        -- exists s'. split; [by right|done].
    + split; [done|]. split.
      * constructor; [|done].
        destruct (isnan_dec m) as [Hn|Hn].
        -- unfold r, pymax. rewrite E. rewrite max_fold_nan by done.
           clear -Hn. float_order.
        -- apply flt_neg_trans with m; [by rewrite <- isnan_key|done|].
           unfold flt. by rewrite E.
      * destruct Hin as [->|(s' & Hs' & ->)]; [by left|].
        right. exists s'. split; [by right|done].
Qed.

Lemma max_end_spec (segments : list SpeakerSegment) :
  Forall (fun s => ~ flt (max_end segments) (spk_end s)) segments /\
  (segments <> [] -> exists s, s ∈ segments /\ max_end segments = spk_end s).
Proof.
  destruct segments as [|seg rest]; [by split|]. simpl.
  destruct (max_fold_bounds rest (spk_end seg)) as (Hm & Hall & Hin). split.
  - by constructor.
  - intros _. destruct Hin as [->|(s & Hs & ->)].
    + exists seg. split; [by left|done].
    + exists s. split; [by right|done].
Qed.

Lemma diarization_handler_body_cases diarize_method w job_input audio_input t o t' :
  diarization_handler_body diarize_method w job_input audio_input t = (o, t') ->
  (exists e, o = Raises e) \/
  o = Returns [("error",
                JStr "audio_format is required when using base64-encoded audio")] \/
  (exists wav_file diarization_result,
     diarize_method wav_file (dj_num_speakers job_input) = Returns diarization_result /\
     o = Returns (diarization_response diarization_result)).
Proof.
  unfold diarization_handler_body. run_monad.
  destruct (mkdtemp w) as [temp_dir|e]; [|intros [= <- <-]; left; by eexists].
  destruct (String.prefix "http://" audio_input
            || String.prefix "https://" audio_input).
  - destruct (download_audio w audio_input _) as [temp_file|e];
      [|intros [= <- <-]; left; by eexists].
    destruct (convert_audio_to_wav w temp_file) as [wav_file|e];
      [|intros [= <- <-]; left; by eexists].
    destruct (diarize_method wav_file _) as [r|e] eqn:Hd;
      intros [= <- <-]; [right; right; by eexists _, _ | left; by eexists].
  - destruct (negb (str_truthy (dj_audio_format job_input))).
    { intros [= <- <-]. right. by left. }
    destruct (decode_base64_audio w audio_input _ _) as [temp_file|e];
      [|intros [= <- <-]; left; by eexists].
    destruct (convert_audio_to_wav w temp_file) as [wav_file|e];
      [|intros [= <- <-]; left; by eexists].
    destruct (diarize_method wav_file _) as [r|e] eqn:Hd;
      intros [= <- <-]; [right; right; by eexists _, _ | left; by eexists].
Qed.

(** On typed fields the diarization handler always returns. *)
Lemma diarization_handler_returns
    (diarizer : diarizer_handle) (w : Collaborators)
    (job_input : DiarizationJob) (t : list event) :
  exists result t',
    diarization_handler diarizer w job_input t = (Returns result, t') /\
    (diarizer = None ->
     t' = t /\ result = [("error", JStr "Diarization model not initialized")]) /\
    ((exists msg, result = [("error", JStr msg)]) \/
     (exists diarize_method wav_file diarization_result num_speakers duration,
        diarizer = Some diarize_method /\
        diarize_method wav_file (dj_num_speakers job_input)
          = Returns diarization_result /\
        result =
          [("segments",
            JList (map speaker_segment_json (dr_segments diarization_result)));
           ("num_speakers", JInt (Z.of_nat num_speakers));
           ("duration", JFloat duration)] /\
        Forall (fun s => ~ flt duration (spk_end s))
               (dr_segments diarization_result) /\
        (dr_segments diarization_result = [] ->
         num_speakers = 0%nat /\ duration = 0) /\
        (dr_segments diarization_result <> [] ->
         num_speakers = dr_num_speakers diarization_result /\
         exists s, s ∈ dr_segments diarization_result /\ duration = spk_end s))).
Proof.
  unfold diarization_handler. destruct diarizer as [diarize_method|].
  2:{ eexists _, _. split; [done|]. split; [done|]. left. by eexists. }
  destruct (negb (str_truthy (dj_audio job_input))).
  { eexists _, _. split; [done|]. split; [done|]. left. by eexists. }
  unfold try_except.
  destruct (diarization_handler_body diarize_method w job_input _ t)
    as [[result|e] t'] eqn:Hb.
  2:{ eexists _, _. split; [done|]. split; [done|]. left. by eexists. }
  exists result, t'. split; [done|]. split; [done|].
  apply diarization_handler_body_cases in Hb
    as [[e ?]|[[= ->]|(wav_file & r & Hd & [= ->])]]; [done| |].
  { left. by eexists. }
  right. destruct (max_end_spec (dr_segments r)) as [Hall Hin].
  unfold diarization_response.
  destruct (dr_segments r) as [|seg rest] eqn:Hsegs.
  - exists diarize_method, wav_file, r, 0%nat, 0. rewrite Hsegs.
    split; [done|]. split; [done|]. split; [done|]. split; [constructor|].
    split; [done|]. by intros ?.
  - exists diarize_method, wav_file, r, (dr_num_speakers r), (max_end (seg :: rest)).
    rewrite Hsegs. split; [done|]. split; [done|]. split; [done|].
    split; [done|]. split; [done|]. intros Hne. split; [done|]. by apply Hin.
Qed.

(** X14.  The diarization handler, on the job as delivered.  Without
    an initialised diarizer it returns an error dict before looking at
    the job.  Otherwise, when the job or its ["input"] is not a dict,
    the [.get] in front of the [try] raises [AttributeError] before any
    collaborator is called.  On a dict input whose fields have the
    documented types it returns either a dict whose only key is
    ["error"], or -- for some result of the diarizer -- a dict with
    exactly [segments], [num_speakers] and [duration], where [segments]
    lists the diarizer's segments in their order and [duration] is the
    latest end among them (no segment ends later, and some segment ends
    exactly then), or 0 together with [num_speakers = 0] when there is
    no segment. *)
Theorem diarization_handler_result
    (py : PyText) (diarizer : diarizer_handle) (w : Collaborators)
    (job : json) (t : list event) :
  (diarizer = None ->
   exists run,
     diarization_handler_job py diarizer w job = Some run /\
     run t = (Returns [("error", JStr "Diarization model not initialized")], t)) /\
  (forall e,
     diarizer <> None -> read_job_input py job = Raises e ->
     (exists v, e = Error (no_get py v) /\ (forall d, v <> JDict d) /\
                (v = job \/
                 exists j, job = JDict j /\ dict_get "input" (JDict []) j = v)) /\
     exists run,
       diarization_handler_job py diarizer w job = Some run /\
       run t = (Raises e, t)) /\
  (forall job_input fields,
     diarizer <> None -> read_job_input py job = Returns job_input ->
     diarization_job_fields job_input = Some fields ->
     exists run result t',
       diarization_handler_job py diarizer w job = Some run /\
       run t = (Returns result, t') /\
       ((exists msg, result = [("error", JStr msg)]) \/
        (exists diarize_method wav_file diarization_result num_speakers duration,
           diarizer = Some diarize_method /\
           diarize_method wav_file (dj_num_speakers fields)
             = Returns diarization_result /\
           result =
             [("segments",
               JList (map speaker_segment_json (dr_segments diarization_result)));
              ("num_speakers", JInt (Z.of_nat num_speakers));
              ("duration", JFloat duration)] /\
           Forall (fun s => ~ flt duration (spk_end s))
                  (dr_segments diarization_result) /\
           (dr_segments diarization_result = [] ->
            num_speakers = 0%nat /\ duration = 0) /\
           (dr_segments diarization_result <> [] ->
            num_speakers = dr_num_speakers diarization_result /\
            exists s, s ∈ dr_segments diarization_result /\
                      duration = spk_end s)))).
Proof.
  pose proof (read_job_input_spec py job) as Hspec.
  unfold diarization_handler_job. split; [|split].
  - intros ->. by eexists.
  - intros e Hd He. destruct diarizer as [diarize_method|]; [|done].
    rewrite He in *. split; [done|]. by eexists.
  - intros job_input fields Hd Hj Hf.
    destruct diarizer as [diarize_method|]; [|done].
    rewrite Hj, Hf. simpl.
    destruct (diarization_handler_returns (Some diarize_method) w fields t)
      as (result & t' & Hh & _ & Hres).
    by exists (diarization_handler (Some diarize_method) w fields), result, t'.
Qed.

(** A job for a diarizer that reports two turns. *)
Lemma diarization_handler_result_witness :
  let turns :=
    {| dr_segments := [ {| spk_start := 0; spk_end := 4; spk_speaker := "1" |};
                        {| spk_start := 4; spk_end := 6; spk_speaker := "2" |} ];
       dr_num_speakers := 2 |} in
  let diarizer : diarizer_handle := Some (fun _ _ => Returns turns) in
  let job :=
    JDict [("input", JDict [("audio", JStr "https://example.com/audio.mp3")])] in
  exists run result t',
    diarization_handler_job scenario_py diarizer scenario job = Some run /\
    run [] = (Returns result, t') /\
    ((exists msg, result = [("error", JStr msg)]) \/
     (exists diarize_method wav_file diarization_result num_speakers duration,
        diarizer = Some diarize_method /\
        diarize_method wav_file None = Returns diarization_result /\
        result =
          [("segments",
            JList (map speaker_segment_json (dr_segments diarization_result)));
           ("num_speakers", JInt (Z.of_nat num_speakers));
           ("duration", JFloat duration)] /\
        Forall (fun s => ~ flt duration (spk_end s))
               (dr_segments diarization_result) /\
        (dr_segments diarization_result = [] ->
         num_speakers = 0%nat /\ duration = 0) /\
        (dr_segments diarization_result <> [] ->
         num_speakers = dr_num_speakers diarization_result /\
         exists s, s ∈ dr_segments diarization_result /\
                   duration = spk_end s))).
Proof.
  intros turns diarizer job.
  apply (proj2 (proj2 (diarization_handler_result scenario_py diarizer
                         scenario job []))
               [("audio", JStr "https://example.com/audio.mp3")]
               {| dj_audio := Some "https://example.com/audio.mp3";
                  dj_audio_format := None; dj_num_speakers := None |}).
  - discriminate.
  - reflexivity.
  - reflexivity.
Defined.

Example diarization_handler_scenario :
  let turns :=
    {| dr_segments := [ {| spk_start := 0; spk_end := 4; spk_speaker := "1" |};
                        {| spk_start := 4; spk_end := 6; spk_speaker := "2" |} ];
       dr_num_speakers := 2 |} in
  exists run,
    diarization_handler_job scenario_py (Some (fun _ _ => Returns turns)) scenario
      (JDict [("input", JDict [("audio", JStr "https://example.com/audio.mp3")])])
    = Some run /\
    run [] =
      (Returns [("segments", JList (map speaker_segment_json (dr_segments turns)));
                ("num_speakers", JInt 2); ("duration", JFloat 6)],
       [EvMkdtemp; EvDownload "https://example.com/audio.mp3";
        EvConvertToWav "/tmp/runpod_transcription_0/input_audio";
        EvDiarize "/tmp/audio.wav"]).
Proof. intros turns. eexists. split; [reflexivity|]. vm_compute. reflexivity. Qed.

(** The latest end is found with [>]: a NaN end that comes first stays
    the maximum, one that comes later is passed over. *)
Example max_end_examples :
  let seg e := {| spk_start := 0; spk_end := e; spk_speaker := "1" |} in
  max_end [seg 2; seg 7; seg 5] = 7 /\
  max_end [seg 2; seg nan; seg 5] = 5 /\
  Prim2SF (max_end [seg nan; seg 5]) = S754_nan.
Proof. vm_compute. done. Qed.

Lemma diarization_response_segments diarization_result :
  dict_has "error" (diarization_response diarization_result) = false /\
  dict_lookup "segments" (diarization_response diarization_result)
  = Some (JList (map speaker_segment_json (dr_segments diarization_result))).
Proof.
  unfold diarization_response.
  by destruct (dr_segments diarization_result).
Qed.

(** X15.  The two services compose: when the diarization service
    answers with the response its handler builds from a diarization
    result, wrapped as ["output"] in an envelope without ["error"], the
    orchestrator forwards exactly the diarizer's segments, in their
    order, as [diarization_segments] of the transcription request --
    also when that list is empty. *)
Theorem orchestrator_forwards_diarization_response
    (py : PyText) (net : network)
    (DIARIZATION_ENDPOINT TRANSCRIPTION_ENDPOINT : string)
    (job_input envelope : dict) (t : list event)
    (diarization_result : DiarizationResult) :
  truthy (dict_get "audio" JNull job_input) = true ->
  truthy (dict_get "diarize" (JBool true) job_input) = true ->
  net DIARIZATION_ENDPOINT (diar_payload job_input) 600%nat
    = ResponseJson (JDict envelope) ->
  dict_has "error" envelope = false ->
  dict_lookup "output" envelope
    = Some (JDict (diarization_response diarization_result)) ->
  exists result,
    orchestrator_handler py net DIARIZATION_ENDPOINT TRANSCRIPTION_ENDPOINT
                         job_input t =
    (Returns result,
     t ++ [EvPost DIARIZATION_ENDPOINT (diar_payload job_input) 600;
           EvPost TRANSCRIPTION_ENDPOINT
             (JDict [("input",
                      JDict (dict_set "diarization_segments"
                               (JList (map speaker_segment_json
                                           (dr_segments diarization_result)))
                               (trans_input job_input)))]) 900]).
Proof.
  intros Ha Hd Hnet He Ho.
  destruct (diarization_response_segments diarization_result) as [Hne Hs].
  apply (orchestrator_handler_forwards _ _ _ _ _ _
           (diarization_response diarization_result)); try done.
  rewrite Hnet. simpl. rewrite He. unfold dict_has. by rewrite Ho.
Qed.

Lemma orchestrator_forwards_diarization_response_witness :
  let diarization_result :=
    {| dr_segments := [ {| spk_start := 0; spk_end := 5; spk_speaker := "1" |} ];
       dr_num_speakers := 1 |} in
  exists result,
    orchestrator_handler scenario_py net_transcription_fails diar_url trans_url
                         orchestrator_job [] =
    (Returns result,
     [] ++ [EvPost diar_url (diar_payload orchestrator_job) 600;
            EvPost trans_url
              (JDict [("input",
                       JDict (dict_set "diarization_segments"
                                (JList (map speaker_segment_json
                                            (dr_segments diarization_result)))
                                (trans_input orchestrator_job)))]) 900]).
Proof.
  intros diarization_result.
  apply (orchestrator_forwards_diarization_response scenario_py
           net_transcription_fails diar_url trans_url orchestrator_job
           [("output", JDict (diarization_response diarization_result))] []
           diarization_result); reflexivity.
Defined.
(** ** [Diarizer.diarize] *)













(** Three turns, the pipeline's order broken by start; the two turns
    that start at 0 keep their order. *)
Example diarize_scenario :
  Diarizer_diarize ascii_py
    (Some (fun _ _ =>
             Returns (Annotation
                        [ {| turn_start := 4; turn_end := 6;
                             turn_speaker := LStr "SPEAKER_01" |};
                          {| turn_start := 0; turn_end := 4;
                             turn_speaker := LStr "SPEAKER_00" |};
                          {| turn_start := -0; turn_end := 1;
                             turn_speaker := LStr "SPEAKER_01" |} ])))
    (fun _ => Returns tt) "/tmp/audio.wav" None
  = {| dr_segments :=
         [ {| spk_start := 0; spk_end := 4; spk_speaker := "1" |};
           {| spk_start := -0; spk_end := 1; spk_speaker := "2" |};
           {| spk_start := 4; spk_end := 6; spk_speaker := "2" |} ];
       dr_num_speakers := 2 |}.
Proof. vm_compute. reflexivity. Qed.

(** ** Speaker labels *)

Example speaker_name_examples :
  speaker_name ascii_py (LStr "SPEAKER_00") = "1" /\
  speaker_name ascii_py (LStr "SPEAKER_09") = "10" /\
  speaker_name ascii_py (LStr "7") = "8" /\
  speaker_name ascii_py (LStr "alice") = "alice" /\
  speaker_name ascii_py (LStr "speaker_a") = "speaker_a" /\
  speaker_name ascii_py (LStr "SPEAKER_") = "SPEAKER_" /\
  speaker_name ascii_py (LInt 0) = "1" /\
  speaker_name ascii_py (LInt (-3)) = "-3".
Proof. vm_compute. repeat split. Qed.

(** The printed form of a non-empty sequence of decimal digits. *)
Lemma digits_string d :
  d <> Nil ->
  let s := NilEmpty.string_of_uint d in
  contains_char "_" s = false /\ lstrip s = s /\ rstrip s = s /\
  s <> EmptyString /\
  (forall rest, s <> String "+" rest) /\ (forall rest, s <> String "-" rest).
Proof.
  intros Hd s. unfold s. clear s.
  assert (forall d, contains_char "_" (NilEmpty.string_of_uint d) = false) as Hc
    by (intros d'; induction d'; simpl; auto).
  assert (forall d, rstrip (NilEmpty.string_of_uint d) = NilEmpty.string_of_uint d)
    as Hr.
  { intros d'. induction d' as [|d' IH|d' IH|d' IH|d' IH|d' IH|d' IH|d' IH|d' IH|d' IH|d' IH];
      [done|..]; cbn [NilEmpty.string_of_uint rstrip]; rewrite IH;
      by destruct (NilEmpty.string_of_uint d'). }
  split; [apply Hc|]. split; [by destruct d|]. split; [apply Hr|].
  split; [by destruct d|]. split; intros rest; by destruct d.
Qed.




(** [int] reads a sequence of ASCII digits as its decimal value. *)
Lemma ascii_int_digits d :
  d <> Nil -> ascii_int (NilEmpty.string_of_uint d) = Some (Z.of_uint d).
Proof.
  intros Hd. destruct (digits_string d Hd) as (_ & Hl & Hr & Hne & Hp & Hm).
  unfold ascii_int. rewrite Hl, Hr.
  pose proof (NilEmpty.usu d) as Hu.
  destruct (NilEmpty.string_of_uint d) as [|a rest] eqn:E; [done|].
  destruct (Ascii.eqb_spec a "+") as [->|Hp']; [by destruct (Hp rest)|].
  destruct (Ascii.eqb_spec a "-") as [->|Hm']; [by destruct (Hm rest)|].
  assert (forall (X : Type) (x y z : X),
            match a with
            | "+"%char => x | "-"%char => y | _ => z
            end = z) as Hmatch.
  { intros X x y z.
    destruct a as [[] [] [] [] [] [] [] []]; try reflexivity; congruence. }
  rewrite Hmatch. by rewrite Hu.
Qed.


